(** * SpaceKeeper (poc/engine/spacekeeper/capacity/capacity.go)

    A shallow embedding of the capacity SpaceKeeper: the Go heap of
    [*WorkSpace] objects is an explicit store, the per-state indexes are
    finite maps from the SpaceID string to a pointer, and every public
    operation is a function from the SpaceKeeper to an [outcome]. *)

From stdpp Require Import gmap strings list fin_maps pretty.
From Stdlib Require Import ZArith.

Open Scope Z_scope.

(** ** Errors and outcomes *)

(** The sentinel errors of the package (and the two of [engine] that the
    dispatcher returns).  An error produced by a collaborator (wallet, plot
    backend, disk query) is [ErrForeign] with its message. *)
Inductive error : Type :=
| ErrWalletIsLocked
| ErrSpaceKeeperIsRunning
| ErrSpaceKeeperIsNotRunning
| ErrSpaceKeeperIsConfiguring
| ErrSpaceKeeperChangeDBDirs
| ErrSpaceKeeperConfiguredNothing
| ErrWorkSpaceDoesNotExist
| ErrWorkSpaceIsNotPlotting
| ErrWorkSpaceIsNotStill
| ErrWorkSpaceCannotGenerate
| ErrConfigUnderSizeTarget
| ErrInvalidRequiredBytes
| ErrOSDiskSizeNotEnough
| ErrInvalidAction
| ErrUnImplementedAction
| ErrForeign (msg : string).

(** What a call does: it returns, it blocks on a full channel, or it
    panics (nil dereference, index out of range).  The two generation
    loops of the planner have no bound in the code: they run on fuel, and
    [OutOfFuel] says that the fuel given was not enough. *)
Inductive outcome (A : Type) : Type :=
| Returns (a : A)
| Blocked
| Panic
| OutOfFuel.
Arguments Returns {A} a.
Arguments Blocked {A}.
Arguments Panic {A}.
Arguments OutOfFuel {A}.

Definition obind {A B : Type} (o : outcome A) (k : A → outcome B) : outcome B :=
  match o with
  | Returns a => k a
  | Blocked => Blocked
  | Panic => Panic
  | OutOfFuel => OutOfFuel
  end.

Notation "'let*' x := o 'in' k" := (obind o (λ x, k))
  (at level 10, x pattern, o at level 200, k at level 200, only parsing).

Definition omap {A B : Type} (f : A → B) (o : outcome A) : outcome B :=
  obind o (λ a, Returns (f a)).
Infix "<$$>" := omap (at level 61, left associativity).

(** A nil pointer, a missing key that the code dereferences: [None] panics. *)
Definition must {A : Type} (o : option A) : outcome A :=
  match o with Some a => Returns a | None => Panic end.

(** ** Go [int] *)

(** [int] is 64 bits on the supported platforms: arithmetic wraps. *)
Definition wrap (z : Z) : Z := (z + 2 ^ 63) mod 2 ^ 64 - 2 ^ 63.
Definition int_add (a b : Z) : Z := wrap (a + b).
Definition int_sub (a b : Z) : Z := wrap (a - b).
Definition int_mul (a b : Z) : Z := wrap (a * b).
Definition in_int (z : Z) : Prop := - 2 ^ 63 <= z < 2 ^ 63.

(** ** Data model *)

Inductive WorkSpaceState : Type := Registered | Plotting | Ready | Mining.

Global Instance WorkSpaceState_eq_dec : EqDecision WorkSpaceState.
Proof. solve_decision. Defined.

(** [engine.Registered = 0 .. engine.Mining = engine.LastState = 3]. *)
Definition state_index (s : WorkSpaceState) : Z :=
  match s with Registered => 0 | Plotting => 1 | Ready => 2 | Mining => 3 end.

(** A slot of [sk.workSpaceIndex]: one per state, and
    [allState = engine.LastState + 1]. *)
Inductive bucket : Type := OfState (s : WorkSpaceState) | allState.

Global Instance bucket_eq_dec : EqDecision bucket.
Proof. solve_decision. Defined.

Definition PubKey : Type := string.
Definition Hash : Type := list Byte.byte.

Record SpaceID : Type := mkSpaceID {
  ordinal : Z;
  pubKey : PubKey;
  bitLength : Z
}.

Definition NewSpaceID (ord : Z) (pk : PubKey) (bl : Z) : SpaceID :=
  mkSpaceID ord pk bl.

(** A pointer [*WorkSpace]: an address of the store. *)
Definition loc : Type := nat.

(** The fields of [WorkSpace] that the SpaceKeeper reads and writes. *)
Record WorkSpace : Type := mkWorkSpace {
  ws_id : SpaceID;
  ws_state : WorkSpaceState;
  ws_using : bool
}.

Definition set_using (b : bool) (w : WorkSpace) : WorkSpace :=
  mkWorkSpace (ws_id w) (ws_state w) b.
Definition set_state (s : WorkSpaceState) (w : WorkSpace) : WorkSpace :=
  mkWorkSpace (ws_id w) s (ws_using w).

(** What the [poc], [pocutil] and [capacity] packages provide and this file
    does not contain: the string form of a SpaceID and of a challenge hash,
    the table of plot sizes (a Go
    map: a missing key reads as 0) and [poc.MinDiskSize]. *)
Class PoCParams : Type := {
  SpaceID_String : SpaceID → string;
  Hash_String : Hash → string;
  BitLengthDiskSize : Z → Z;
  MinDiskSize : Z
}.

(** [sk.workSpaceIndex]: five [WorkSpaceMap]s.
    Modelled from the spec: [WorkSpaceMap] is a mapping
    [space_id → WorkSpace] with [Get], [Set], [Delete] and [Items]. *)
Record WorkSpaceIndex : Type := mkIndex {
  ixRegistered : gmap string loc;
  ixPlotting : gmap string loc;
  ixReady : gmap string loc;
  ixMining : gmap string loc;
  ixAll : gmap string loc
}.

Definition index_at (ix : WorkSpaceIndex) (b : bucket) : gmap string loc :=
  match b with
  | OfState Registered => ixRegistered ix
  | OfState Plotting => ixPlotting ix
  | OfState Ready => ixReady ix
  | OfState Mining => ixMining ix
  | allState => ixAll ix
  end.

Definition index_upd (ix : WorkSpaceIndex) (b : bucket)
    (f : gmap string loc → gmap string loc) : WorkSpaceIndex :=
  match b with
  | OfState Registered =>
      mkIndex (f (ixRegistered ix)) (ixPlotting ix) (ixReady ix) (ixMining ix) (ixAll ix)
  | OfState Plotting =>
      mkIndex (ixRegistered ix) (f (ixPlotting ix)) (ixReady ix) (ixMining ix) (ixAll ix)
  | OfState Ready =>
      mkIndex (ixRegistered ix) (ixPlotting ix) (f (ixReady ix)) (ixMining ix) (ixAll ix)
  | OfState Mining =>
      mkIndex (ixRegistered ix) (ixPlotting ix) (ixReady ix) (f (ixMining ix)) (ixAll ix)
  | allState =>
      mkIndex (ixRegistered ix) (ixPlotting ix) (ixReady ix) (ixMining ix) (f (ixAll ix))
  end.

Definition empty_index : WorkSpaceIndex := mkIndex ∅ ∅ ∅ ∅ ∅.

(** ** The plotter queue *)

Record queuedWorkSpace : Type := mkQueued {
  qws_ws : loc;
  wouldMining : bool
}.

Definition newQueuedWorkSpace (l : loc) (wm : bool) : queuedWorkSpace :=
  mkQueued l wm.

(** Modelled from the spec: the priority of a queued job; lower state index
    first, then larger bit length first, then smaller ordinal. *)
Definition priority_key : Type := (Z * Z * Z)%type.

Definition prio_leb (p q : priority_key) : bool :=
  let '(s1, b1, o1) := p in
  let '(s2, b2, o2) := q in
  if s1 <? s2 then true else if s2 <? s1 then false
  else if b2 <? b1 then true else if b1 <? b2 then false
  else o1 <=? o2.

Record queueItem : Type := mkItem {
  item_sid : string;
  item_prio : priority_key;
  item_qws : queuedWorkSpace
}.

(** Modelled from the spec: [plotterQueue] is a priority queue of pending
    plot jobs that supports deletion by sid, and exposes the in-flight job
    as a peekable popped item. *)
Record plotterQueue : Type := mkQueue {
  pending : list queueItem;
  popped : option queuedWorkSpace
}.

Definition newPlotterQueue : plotterQueue := mkQueue [] None.

Fixpoint insert_item (it : queueItem) (l : list queueItem) : list queueItem :=
  match l with
  | [] => [it]
  | x :: r =>
      if prio_leb (item_prio x) (item_prio it) then x :: insert_item it r
      else it :: x :: r
  end.

Definition pq_Push (it : queueItem) (q : plotterQueue) : plotterQueue :=
  mkQueue (insert_item it (pending q)) (popped q).

Definition pq_PopItem (q : plotterQueue) : option (queuedWorkSpace * plotterQueue) :=
  match pending q with
  | [] => None
  | x :: r => Some (item_qws x, mkQueue r (Some (item_qws x)))
  end.

Definition pq_Empty (q : plotterQueue) : bool :=
  match pending q with [] => true | _ => false end.

Definition pq_Size (q : plotterQueue) : nat := length (pending q).

Definition pq_Delete (sid : string) (q : plotterQueue) : plotterQueue :=
  mkQueue (filter (λ it, item_sid it ≠ sid) (pending q)) (popped q).

Definition pq_Reset (q : plotterQueue) : plotterQueue := mkQueue [] (popped q).

Definition pq_PoppedItem (q : plotterQueue) : option queuedWorkSpace := popped q.

Definition pq_set_wouldMining (b : bool) (q : plotterQueue) : plotterQueue :=
  mkQueue (pending q)
          (match popped q with
           | Some qws => Some (mkQueued (qws_ws qws) b)
           | None => None
           end).

Definition plotterMaxChanSize : nat := 1024.
Definition proofCacheSize : nat := 3000.
Definition maxPoolWorker : nat := 32.

(** ** Proofs and the proof cache *)

Definition Signature : Type := string.

Record Proof : Type := mkProof {
  proof_X : list Byte.byte;
  proof_XPrime : list Byte.byte;
  proof_BitLength : Z
}.

Record WorkSpaceProof : Type := mkWorkSpaceProof {
  wp_SpaceID : string;
  wp_Proof : option Proof;
  wp_PublicKey : PubKey;
  wp_Ordinal : Z;
  wp_Error : option error
}.

(** Modelled from the spec: [ccache.CCache] is a bounded mapping with LRU
    eviction; the most recently used entry is first, [Add] is
    last-writer-wins. *)
Record CCache : Type := mkCache {
  cache_cap : nat;
  cache_entries : list (string * WorkSpaceProof)
}.

Definition cache_remove (key : string) (l : list (string * WorkSpaceProof)) :
    list (string * WorkSpaceProof) :=
  filter (λ e, e.1 ≠ key) l.

Fixpoint cache_find (key : string) (l : list (string * WorkSpaceProof)) :
    option WorkSpaceProof :=
  match l with
  | [] => None
  | (k, v) :: r => if decide (k = key) then Some v else cache_find key r
  end.

Definition ccache_Get (key : string) (c : CCache) : option WorkSpaceProof * CCache :=
  match cache_find key (cache_entries c) with
  | Some v => (Some v, mkCache (cache_cap c) ((key, v) :: cache_remove key (cache_entries c)))
  | None => (None, c)
  end.

Definition ccache_Add (key : string) (v : WorkSpaceProof) (c : CCache) : CCache :=
  mkCache (cache_cap c) (take (cache_cap c) ((key, v) :: cache_remove key (cache_entries c))).

Definition new_proofCache : CCache := mkCache proofCacheSize [].

(** ** Collaborators *)

(** The interface [PoCWallet] of the source, over a wallet state [W]. A
    failing method gives the message of its (foreign) error. *)
Class PoCWallet (W : Type) : Type := {
  GenerateNewPublicKey : W → W * (PubKey * Z + string);
  GetPublicKeyOrdinal : W → PubKey → option Z;
  SignMessage : W → PubKey → list Byte.byte → option Signature * option string;
  Unlock : W → string → W * option string;
  Lock : W → W;
  IsLocked : W → bool
}.

(** The plot backend behind a WorkSpace, the constructor [NewWorkSpace]
    (its error, if it rejects the request) and [disk.Usage] (the free bytes,
    a [uint64], or the error). *)
Record PlotBackend : Type := mkBackend {
  db_GetProof : loc → Hash → option Proof * option string;
  ws_StopPlot : loc → option string;
  ws_Delete : loc → option string;
  NewWorkSpace_err : string → string → Z → PubKey → Z → option string;
  disk_Usage : string → Z + string
}.

Definition foreign (o : option string) : option error := ErrForeign <$> o.

(** ** The SpaceKeeper *)

Record SpaceKeeper (W : Type) : Type := mkSK {
  started : bool;
  configuring : Z;
  configured : Z;
  allowGenerateNewSpace : bool;
  dbDirs : list string;
  dbType : string;
  wallet : W;
  store : list WorkSpace;
  workSpaceIndex : WorkSpaceIndex;
  workSpaceList : list loc;
  queue : plotterQueue;
  newQueuedWorkSpaceCh : list queuedWorkSpace;
  proofCache : CCache
}.
Arguments mkSK {W}.
Arguments started {W}.
Arguments configuring {W}.
Arguments configured {W}.
Arguments allowGenerateNewSpace {W}.
Arguments dbDirs {W}.
Arguments dbType {W}.
Arguments wallet {W}.
Arguments store {W}.
Arguments workSpaceIndex {W}.
Arguments workSpaceList {W}.
Arguments queue {W}.
Arguments newQueuedWorkSpaceCh {W}.
Arguments proofCache {W}.

Section Setters.
Context {W : Type}.
Implicit Type sk : SpaceKeeper W.

Definition with_started (v : bool) sk : SpaceKeeper W :=
  mkSK v (configuring sk) (configured sk) (allowGenerateNewSpace sk) (dbDirs sk)
       (dbType sk) (wallet sk) (store sk) (workSpaceIndex sk) (workSpaceList sk)
       (queue sk) (newQueuedWorkSpaceCh sk) (proofCache sk).
Definition with_configuring (v : Z) sk : SpaceKeeper W :=
  mkSK (started sk) v (configured sk) (allowGenerateNewSpace sk) (dbDirs sk)
       (dbType sk) (wallet sk) (store sk) (workSpaceIndex sk) (workSpaceList sk)
       (queue sk) (newQueuedWorkSpaceCh sk) (proofCache sk).
Definition with_configured (v : Z) sk : SpaceKeeper W :=
  mkSK (started sk) (configuring sk) v (allowGenerateNewSpace sk) (dbDirs sk)
       (dbType sk) (wallet sk) (store sk) (workSpaceIndex sk) (workSpaceList sk)
       (queue sk) (newQueuedWorkSpaceCh sk) (proofCache sk).
Definition with_dbDirs (v : list string) sk : SpaceKeeper W :=
  mkSK (started sk) (configuring sk) (configured sk) (allowGenerateNewSpace sk) v
       (dbType sk) (wallet sk) (store sk) (workSpaceIndex sk) (workSpaceList sk)
       (queue sk) (newQueuedWorkSpaceCh sk) (proofCache sk).
Definition with_wallet (v : W) sk : SpaceKeeper W :=
  mkSK (started sk) (configuring sk) (configured sk) (allowGenerateNewSpace sk)
       (dbDirs sk) (dbType sk) v (store sk) (workSpaceIndex sk) (workSpaceList sk)
       (queue sk) (newQueuedWorkSpaceCh sk) (proofCache sk).
Definition with_store (v : list WorkSpace) sk : SpaceKeeper W :=
  mkSK (started sk) (configuring sk) (configured sk) (allowGenerateNewSpace sk)
       (dbDirs sk) (dbType sk) (wallet sk) v (workSpaceIndex sk) (workSpaceList sk)
       (queue sk) (newQueuedWorkSpaceCh sk) (proofCache sk).
Definition with_index (v : WorkSpaceIndex) sk : SpaceKeeper W :=
  mkSK (started sk) (configuring sk) (configured sk) (allowGenerateNewSpace sk)
       (dbDirs sk) (dbType sk) (wallet sk) (store sk) v (workSpaceList sk)
       (queue sk) (newQueuedWorkSpaceCh sk) (proofCache sk).
Definition with_list (v : list loc) sk : SpaceKeeper W :=
  mkSK (started sk) (configuring sk) (configured sk) (allowGenerateNewSpace sk)
       (dbDirs sk) (dbType sk) (wallet sk) (store sk) (workSpaceIndex sk) v
       (queue sk) (newQueuedWorkSpaceCh sk) (proofCache sk).
Definition with_queue (v : plotterQueue) sk : SpaceKeeper W :=
  mkSK (started sk) (configuring sk) (configured sk) (allowGenerateNewSpace sk)
       (dbDirs sk) (dbType sk) (wallet sk) (store sk) (workSpaceIndex sk)
       (workSpaceList sk) v (newQueuedWorkSpaceCh sk) (proofCache sk).
Definition with_chan (v : list queuedWorkSpace) sk : SpaceKeeper W :=
  mkSK (started sk) (configuring sk) (configured sk) (allowGenerateNewSpace sk)
       (dbDirs sk) (dbType sk) (wallet sk) (store sk) (workSpaceIndex sk)
       (workSpaceList sk) (queue sk) v (proofCache sk).
Definition with_cache (v : CCache) sk : SpaceKeeper W :=
  mkSK (started sk) (configuring sk) (configured sk) (allowGenerateNewSpace sk)
       (dbDirs sk) (dbType sk) (wallet sk) (store sk) (workSpaceIndex sk)
       (workSpaceList sk) (queue sk) (newQueuedWorkSpaceCh sk) v.
End Setters.

Section Keeper.
Context {W : Type} {wallet_ops : PoCWallet W} {params : PoCParams}.
Implicit Type sk : SpaceKeeper W.

(** [ws.id.String()] through a pointer. *)
Definition sid_at (st : list WorkSpace) (l : loc) : outcome string :=
  let* w := must (st !! l) in Returns (SpaceID_String (ws_id w)).

(** [m.Get(sid)] on a slot of the index. *)
Definition index_Get sk (b : bucket) (sid : string) : option loc :=
  index_at (workSpaceIndex sk) b !! sid.

(** A send on the buffered channel [newQueuedWorkSpaceCh]. *)
Definition chan_send (q : queuedWorkSpace) sk : outcome (SpaceKeeper W) :=
  if decide (length (newQueuedWorkSpaceCh sk) < plotterMaxChanSize)%nat
  then Returns (with_chan (newQueuedWorkSpaceCh sk ++ [q]) sk)
  else Blocked.

(** [qws.priority()] for a job on the WorkSpace at [l]. *)
Definition priority (w : WorkSpace) : priority_key :=
  (state_index (ws_state w), bitLength (ws_id w), ordinal (ws_id w)).

Definition queue_item (st : list WorkSpace) (q : queuedWorkSpace) : outcome queueItem :=
  let* w := must (st !! qws_ws q) in
  Returns (mkItem (SpaceID_String (ws_id w)) (priority w) q).

Fixpoint deleteFromSlice (st : list WorkSpace) (src : list loc) (sid : string) :
    outcome (list loc) :=
  match src with
  | [] => Returns []
  | l :: r =>
      let* s := sid_at st l in
      if decide (s = sid) then Returns r
      else let* r' := deleteFromSlice st r sid in Returns (l :: r')
  end.

Fixpoint getWsByID (st : list WorkSpace) (src : list loc) (sid : string) :
    outcome (option loc) :=
  match src with
  | [] => Returns None
  | l :: r =>
      let* s := sid_at st l in
      if decide (s = sid) then Returns (Some l) else getWsByID st r sid
  end.

(** [flags.States()] is the list of states a flag set names. *)
Fixpoint getWsByFlags (st : list WorkSpace) (src : list loc)
    (flags : list WorkSpaceState) : outcome (list loc) :=
  match src with
  | [] => Returns []
  | l :: r =>
      let* w := must (st !! l) in
      let* r' := getWsByFlags st r flags in
      Returns (if decide (ws_state w ∈ flags) then l :: r' else r')
  end.

(** The loop of [useWorkSpace]: is a WorkSpace of that sid in the list? *)
Fixpoint list_has_sid (st : list WorkSpace) (src : list loc) (sid : string) :
    outcome bool :=
  match src with
  | [] => Returns false
  | l :: r =>
      let* s := sid_at st l in
      if decide (s = sid) then Returns true else list_has_sid st r sid
  end.

Definition useWorkSpace (l : loc) sk : outcome (SpaceKeeper W) :=
  let* sid := sid_at (store sk) l in
  let* found := list_has_sid (store sk) (workSpaceList sk) sid in
  if found then Returns sk
  else
    let* w := must (store sk !! l) in
    Returns (with_store (<[l := set_using true w]> (store sk))
               (with_list (workSpaceList sk ++ [l]) sk)).

Definition disuseWorkSpace (l : loc) sk : outcome (SpaceKeeper W) :=
  let* w := must (store sk !! l) in
  let sk1 := with_store (<[l := set_using false w]> (store sk)) sk in
  let* lst := deleteFromSlice (store sk1) (workSpaceList sk1) (SpaceID_String (ws_id w)) in
  Returns (with_list lst sk1).

Definition addWorkSpaceToIndex (l : loc) sk : outcome (SpaceKeeper W) :=
  let* w := must (store sk !! l) in
  let sid := SpaceID_String (ws_id w) in
  match index_Get sk allState sid with
  | Some _ => Returns sk
  | None =>
      let ix1 := index_upd (workSpaceIndex sk) allState (insert sid l) in
      let ix2 := index_upd ix1 (OfState (ws_state w)) (insert sid l) in
      Returns (with_index ix2 sk)
  end.

(** *** The action verbs *)

(** The guard that opens every verb:
    [if ws, ok := sk.workSpaceIndex[allState].Get(sid); !ok || !ws.using]. *)
Definition known_and_using sk (sid : string) : outcome bool :=
  match index_Get sk allState sid with
  | None => Returns false
  | Some l => let* w := must (store sk !! l) in Returns (ws_using w)
  end.

(** [qws := sk.queue.PoppedItem(); qws.ws.id.String() != sid]. *)
Definition popped_is sk (sid : string) : outcome bool :=
  let* qws := must (pq_PoppedItem (queue sk)) in
  let* s := sid_at (store sk) (qws_ws qws) in
  Returns (bool_decide (s = sid)).

Definition PlotWS (sid : string) sk : outcome (SpaceKeeper W * option error) :=
  let* ok := known_and_using sk sid in
  if negb ok then Returns (sk, Some ErrWorkSpaceDoesNotExist)
  else
    match index_Get sk (OfState Registered) sid with
    | Some l =>
        let* sk' := chan_send (newQueuedWorkSpace l false) sk in
        Returns (sk', None)
    | None =>
        match index_Get sk (OfState Plotting) sid with
        | Some _ =>
            let* same := popped_is sk sid in
            if negb same then Returns (sk, Some ErrWorkSpaceIsNotPlotting)
            else Returns (with_queue (pq_set_wouldMining false (queue sk)) sk, None)
        | None => Returns (sk, None)
        end
    end.

(** Move the WorkSpace at [l] from one state slot to another and write
    its [state] field. *)
Definition move_state (sid : string) (l : loc) (from to : WorkSpaceState) sk :
    outcome (SpaceKeeper W) :=
  let ix1 := index_upd (workSpaceIndex sk) (OfState from) (delete sid) in
  let ix2 := index_upd ix1 (OfState to) (insert sid l) in
  let* w := must (store sk !! l) in
  Returns (with_store (<[l := set_state to w]> (store sk)) (with_index ix2 sk)).

Definition MineWS (sid : string) sk : outcome (SpaceKeeper W * option error) :=
  let* ok := known_and_using sk sid in
  if negb ok then Returns (sk, Some ErrWorkSpaceDoesNotExist)
  else
    match index_Get sk (OfState Registered) sid with
    | Some l =>
        let* sk' := chan_send (newQueuedWorkSpace l true) sk in
        Returns (sk', None)
    | None =>
        match index_Get sk (OfState Plotting) sid with
        | Some _ =>
            let* same := popped_is sk sid in
            if negb same then Returns (sk, Some ErrWorkSpaceIsNotPlotting)
            else Returns (with_queue (pq_set_wouldMining true (queue sk)) sk, None)
        | None =>
            match index_Get sk (OfState Ready) sid with
            | Some l =>
                let* sk' := move_state sid l Ready Mining sk in
                Returns (sk', None)
            | None => Returns (sk, None)
            end
        end
    end.

Definition StopWS (be : PlotBackend) (sid : string) sk :
    outcome (SpaceKeeper W * option error) :=
  let* ok := known_and_using sk sid in
  if negb ok then Returns (sk, Some ErrWorkSpaceDoesNotExist)
  else
    let sk1 := with_queue (pq_Delete sid (queue sk)) sk in
    match index_Get sk1 (OfState Plotting) sid with
    | Some l =>
        let* same := popped_is sk1 sid in
        if negb same then Returns (sk1, Some ErrWorkSpaceIsNotPlotting)
        else Returns (with_queue (pq_set_wouldMining false (queue sk1)) sk1,
                      foreign (ws_StopPlot be l))
    | None =>
        match index_Get sk1 (OfState Mining) sid with
        | Some l =>
            let* sk' := move_state sid l Mining Ready sk1 in
            Returns (sk', None)
        | None => Returns (sk1, None)
        end
    end.

(** The lookup shared by [RemoveWS] and [DeleteWS]: the WorkSpace when it
    is registered or ready. *)
Definition still_ws sk (sid : string) : option loc :=
  match index_Get sk (OfState Registered) sid with
  | Some l => Some l
  | None => index_Get sk (OfState Ready) sid
  end.

Definition RemoveWS (sid : string) sk : outcome (SpaceKeeper W * option error) :=
  let* ok := known_and_using sk sid in
  if negb ok then Returns (sk, Some ErrWorkSpaceDoesNotExist)
  else
    let sk1 := with_queue (pq_Delete sid (queue sk)) sk in
    match still_ws sk1 sid with
    | None => Returns (sk1, Some ErrWorkSpaceIsNotStill)
    | Some l =>
        let* sk' := disuseWorkSpace l sk1 in
        Returns (sk', None)
    end.

Definition DeleteWS (be : PlotBackend) (sid : string) sk :
    outcome (SpaceKeeper W * option error) :=
  let* ok := known_and_using sk sid in
  if negb ok then Returns (sk, Some ErrWorkSpaceDoesNotExist)
  else
    let sk1 := with_queue (pq_Delete sid (queue sk)) sk in
    match still_ws sk1 sid with
    | None => Returns (sk1, Some ErrWorkSpaceIsNotStill)
    | Some l =>
        let* w := must (store sk1 !! l) in
        let ix1 := index_upd (workSpaceIndex sk1) (OfState (ws_state w)) (delete sid) in
        let ix2 := index_upd ix1 allState (delete sid) in
        let* sk' := disuseWorkSpace l (with_index ix2 sk1) in
        Returns (sk', foreign (ws_Delete be l))
    end.

(** [engine.ActionType]; [IsValid] holds of the five verbs, [ActOther] is
    any other value of the underlying integer type. *)
Inductive ActionType : Type := Plot | Mine | Stop | Remove | Delete | ActOther (n : Z).

Definition action_IsValid (a : ActionType) : bool :=
  match a with ActOther _ => false | _ => true end.

Definition ActOnWorkSpace (be : PlotBackend) (sid : string) (action : ActionType) sk :
    outcome (SpaceKeeper W * option error) :=
  if negb (action_IsValid action) then Returns (sk, Some ErrInvalidAction)
  else
    match action with
    | Plot => PlotWS sid sk
    | Mine => MineWS sid sk
    | Stop => StopWS be sid sk
    | Remove => RemoveWS sid sk
    | Delete => DeleteWS be sid sk
    | ActOther _ => Returns (sk, Some ErrUnImplementedAction)
    end.

(** *** Proof lookup *)

Definition cache_key (sid : string) (challenge : Hash) : string :=
  sid +:+ Hash_String challenge.

(** The record built on a cache miss (by [getProof], and by a pool worker
    for its job). *)
Definition lookup_proof (be : PlotBackend) (l : loc) (w : WorkSpace) (challenge : Hash) :
    WorkSpaceProof :=
  let '(proof, err) := db_GetProof be l challenge in
  mkWorkSpaceProof (SpaceID_String (ws_id w)) proof (pubKey (ws_id w))
                   (ordinal (ws_id w)) (foreign err).

Definition getProof (be : PlotBackend) (l : loc) (challenge : Hash) sk :
    outcome (SpaceKeeper W * WorkSpaceProof) :=
  let* w := must (store sk !! l) in
  let cacheKey := cache_key (SpaceID_String (ws_id w)) challenge in
  match ccache_Get cacheKey (proofCache sk) with
  | (Some v, c) => Returns (with_cache c sk, v)
  | (None, c) =>
      let result := lookup_proof be l w challenge in
      Returns (with_cache (ccache_Add cacheKey result c) sk, result)
  end.

Definition GetProof (be : PlotBackend) (sid : string) (challenge : Hash) sk :
    outcome (SpaceKeeper W * (option WorkSpaceProof * option error)) :=
  if negb (started sk) then Returns (sk, (None, Some ErrSpaceKeeperIsNotRunning))
  else
    let* ok := known_and_using sk sid in
    if ok then
      let* l := must (index_Get sk allState sid) in
      let* (sk', r) := getProof be l challenge sk in
      Returns (sk', (Some r, None))
    else Returns (sk, (None, Some ErrWorkSpaceDoesNotExist)).

(** A job of the worker pool. *)
Record Job : Type := mkJob {
  job_ws : loc;
  job_cacheKey : string;
  job_challenge : Hash
}.

(** The state one call of [getProofs] shares with the pool: the cache, the
    counter of its [sync.WaitGroup] and the jobs handed over. *)
Record fanout : Type := mkFanout {
  fo_cache : CCache;
  fo_wg : Z;
  fo_jobs : list Job;
  fo_result : gmap string WorkSpaceProof
}.

(** Modelled from the spec: [WorkerPool.AddTask] submits a proof-lookup job
    to the fixed-size pool; the job is counted in the caller's wait group
    until a worker has run it. *)
Definition AddTask (j : Job) (f : fanout) : fanout :=
  mkFanout (fo_cache f) (fo_wg f + 1) (fo_jobs f ++ [j]) (fo_result f).

(** Modelled from the spec: a worker runs one job: it looks the proof up
    in the plot backend, inserts the record into the cache and signals the
    wait group. *)
Definition run_job (be : PlotBackend) (st : list WorkSpace) (j : Job) (cw : CCache * Z) :
    outcome (CCache * Z) :=
  let* w := must (st !! job_ws j) in
  Returns (ccache_Add (job_cacheKey j) (lookup_proof be (job_ws j) w (job_challenge j)) cw.1,
           cw.2 - 1).

Fixpoint run_jobs (be : PlotBackend) (st : list WorkSpace) (js : list Job) (cw : CCache * Z) :
    outcome (CCache * Z) :=
  match js with
  | [] => Returns cw
  | j :: r => let* cw' := run_job be st j cw in run_jobs be st r cw'
  end.

(** The first loop of [getProofs], over the entries of [wsMap]. *)
Fixpoint getProofs_submit (challenge : Hash) (entries : list (string * loc)) (f : fanout) :
    fanout :=
  match entries with
  | [] => f
  | (sid, l) :: r =>
      let cacheKey := cache_key sid challenge in
      match ccache_Get cacheKey (fo_cache f) with
      | (Some v, c) =>
          getProofs_submit challenge r
            (mkFanout c (fo_wg f) (fo_jobs f) (<[sid := v]> (fo_result f)))
      | (None, c) =>
          getProofs_submit challenge r
            (AddTask (mkJob l cacheKey challenge)
               (mkFanout c (fo_wg f) (fo_jobs f) (fo_result f)))
      end
  end.

(** The last loop of [getProofs], over [jobList]. *)
Fixpoint getProofs_collect (st : list WorkSpace) (js : list Job) (c : CCache)
    (result : gmap string WorkSpaceProof) : outcome (CCache * gmap string WorkSpaceProof) :=
  match js with
  | [] => Returns (c, result)
  | j :: r =>
      match ccache_Get (job_cacheKey j) c with
      | (Some v, c') =>
          let* sid := sid_at st (job_ws j) in
          getProofs_collect st r c' (<[sid := v]> result)
      | (None, c') => getProofs_collect st r c' result
      end
  end.

(** The fan-out as it stands when [getProofs] reaches [wg.Wait()]: after
    the first loop, [wg.Add(1)] and [wg.Done()]. *)
Definition getProofs_at_wait (wsMap : gmap string loc) (challenge : Hash) sk : fanout :=
  let f := getProofs_submit challenge (map_to_list wsMap)
             (mkFanout (proofCache sk) 0 [] ∅) in
  mkFanout (fo_cache f) (fo_wg f + 1 - 1) (fo_jobs f) (fo_result f).

(** [wg.Wait()] returns at once when the counter is 0; otherwise the
    caller waits for the pool. *)
Definition waits_for_pool (f : fanout) : bool := negb (fo_wg f =? 0).

Definition getProofs (be : PlotBackend) (wsMap : gmap string loc) (challenge : Hash) sk :
    outcome (SpaceKeeper W * gmap string WorkSpaceProof) :=
  let f := getProofs_at_wait wsMap challenge sk in
  let* cw := run_jobs be (store sk) (fo_jobs f) (fo_cache f, fo_wg f) in
  if negb (cw.2 =? 0) then Blocked
  else
    let* (c, result) := getProofs_collect (store sk) (fo_jobs f) cw.1 (fo_result f) in
    Returns (with_cache c sk, result).

(** [items[ws.id.String()] = ws] for every selected WorkSpace. *)
Fixpoint items_of (st : list WorkSpace) (src : list loc) (m : gmap string loc) :
    outcome (gmap string loc) :=
  match src with
  | [] => Returns m
  | l :: r => let* sid := sid_at st l in items_of st r (<[sid := l]> m)
  end.

Definition GetProofs (be : PlotBackend) (flags : list WorkSpaceState) (challenge : Hash) sk :
    outcome (SpaceKeeper W * (list WorkSpaceProof * option error)) :=
  if negb (started sk) then Returns (sk, ([], Some ErrSpaceKeeperIsNotRunning))
  else
    let* sel := getWsByFlags (store sk) (workSpaceList sk) flags in
    let* items := items_of (store sk) sel ∅ in
    let* (sk', proofs) := getProofs be items challenge sk in
    Returns (sk', ((map_to_list proofs).*2, None)).

(** *** Service start *)

(** [OnStart] is where the lock of the wallet is looked at; the plotter
    loop and the file watcher it spawns are not part of this model. *)
Definition OnStart sk : outcome (SpaceKeeper W * option error) :=
  if IsLocked (wallet sk) then Returns (sk, Some ErrWalletIsLocked)
  else Returns (sk, None).

(** *** Signing *)

Definition SignHash (sid : string) (hash : list Byte.byte) sk :
    outcome (option Signature * option error) :=
  match index_Get sk allState sid with
  | Some l =>
      let* w := must (store sk !! l) in
      let '(sig, err) := SignMessage (wallet sk) (pubKey (ws_id w)) hash in
      Returns (sig, foreign err)
  | None => Returns (None, Some ErrWorkSpaceDoesNotExist)
  end.

(** *** Seeding *)

(** The closure [strSliceEqual] of [ResetDBDirs]. *)
Definition strSliceEqual (newDirs oldDirs : list string) : bool :=
  if decide (length newDirs ≠ length oldDirs) then false
  else
    let existsDir : gset string := list_to_set oldDirs in
    forallb (λ dir, bool_decide (dir ∈ existsDir)) newDirs.

(** [generateInitialIndex] is a hook of the SpaceKeeper, here an argument. *)
Definition ResetDBDirs
    (generateInitialIndex : SpaceKeeper W → outcome (SpaceKeeper W * option error))
    (newDirs : list string) sk : outcome (SpaceKeeper W * option error) :=
  if started sk then Returns (sk, Some ErrSpaceKeeperIsRunning)
  else if decide (length (dbDirs sk) = 0%nat) then
    generateInitialIndex (with_dbDirs newDirs sk)
  else if negb (strSliceEqual newDirs (dbDirs sk)) then
    Returns (sk, Some ErrSpaceKeeperChangeDBDirs)
  else Returns (sk, None).

(** *** The planner: shared parts *)

Definition usableBitLength : list Z := [24; 26; 28].

(** The loop that reverses [allowedBL] in place. *)
Fixpoint swap_ends (n i : nat) (l : list Z) : list Z :=
  match n with
  | O => l
  | S n' =>
      let j := (length l - 1 - i)%nat in
      match l !! i, l !! j with
      | Some a, Some b => swap_ends n' (S i) (<[j := a]> (<[i := b]> l))
      | _, _ => l
      end
  end.

Definition allowedBL : list Z :=
  swap_ends (length usableBitLength / 2) 0 usableBitLength.

Definition checkOSDiskSize (be : PlotBackend) (requiredBytes : Z) sk :
    outcome (option error) :=
  if requiredBytes <? 0 then Returns (Some ErrInvalidRequiredBytes)
  else
    let* dir := must (dbDirs sk !! 0%nat) in
    match disk_Usage be dir with
    | inr msg => Returns (Some (ErrForeign msg))
    | inl free =>
        if free <=? requiredBytes then Returns (Some ErrOSDiskSizeNotEnough)
        else Returns None
    end.

(** Modelled from the spec: [NewWorkSpace] creates a WorkSpace of the given
    identity, registered and not in use, unless the backend rejects the
    request. The new object gets a fresh address. *)
Definition NewWorkSpace (be : PlotBackend) (ord : Z) (pk : PubKey) (bl : Z) sk :
    outcome (SpaceKeeper W * (loc + error)) :=
  let* dir := must (dbDirs sk !! 0%nat) in
  match NewWorkSpace_err be (dbType sk) dir ord pk bl with
  | Some msg => Returns (sk, inr (ErrForeign msg))
  | None =>
      Returns (with_store (store sk ++ [mkWorkSpace (NewSpaceID ord pk bl) Registered false]) sk,
               inl (length (store sk)))
  end.

Definition generateNewWorkSpace (be : PlotBackend) (bl : Z) sk :
    outcome (SpaceKeeper W * (loc + error)) :=
  match GenerateNewPublicKey (wallet sk) with
  | (w', inr msg) => Returns (with_wallet w' sk, inr (ErrForeign msg))
  | (w', inl (pk, ord)) => NewWorkSpace be ord pk bl (with_wallet w' sk)
  end.

Definition generateNewWorkSpaceByPubKey (be : PlotBackend) (ord : Z) (pk : PubKey) (bl : Z) sk :
    outcome (SpaceKeeper W * (loc + error)) :=
  NewWorkSpace be ord pk bl sk.

(** [queue.PopItem()] repeated [n] times, keeping the WorkSpaces. *)
Fixpoint pop_all (n : nat) (q : plotterQueue) : outcome (list loc) :=
  match n with
  | O => Returns []
  | S n' =>
      let* (qws, q') := must (pq_PopItem q) in
      let* r := pop_all n' q' in
      Returns (qws_ws qws :: r)
  end.

Fixpoint push_by_bitLength (st : list WorkSpace) (entries : list (string * loc))
    (queueMap : gmap Z plotterQueue) : outcome (gmap Z plotterQueue) :=
  match entries with
  | [] => Returns queueMap
  | (_, l) :: r =>
      let* w := must (st !! l) in
      let bl := bitLength (ws_id w) in
      let* it := queue_item st (newQueuedWorkSpace l false) in
      let q := default newPlotterQueue (queueMap !! bl) in
      push_by_bitLength st r (<[bl := pq_Push it q]> queueMap)
  end.

Fixpoint pop_queues (qs : list (Z * plotterQueue)) (resultMap : gmap Z (list loc)) :
    outcome (gmap Z (list loc)) :=
  match qs with
  | [] => Returns resultMap
  | (bl, q) :: r =>
      let* ws := pop_all (pq_Size q) q in
      pop_queues r (<[bl := ws]> resultMap)
  end.

Definition getIndexedWorkSpaces sk : outcome (gmap Z (list loc)) :=
  let* queueMap :=
    push_by_bitLength (store sk) (map_to_list (index_at (workSpaceIndex sk) allState)) ∅ in
  pop_queues (map_to_list queueMap) ∅.

(** [ws.Info()] of every WorkSpace of a list: a snapshot of the object. *)
Fixpoint infos_of (st : list WorkSpace) (ls : list loc) : outcome (list WorkSpace) :=
  match ls with
  | [] => Returns []
  | l :: r =>
      let* w := must (st !! l) in
      let* r' := infos_of st r in
      Returns (w :: r')
  end.

(** [for _, ws := range sk.workSpaceList { ws.using = false }]. *)
Fixpoint clear_using (ls : list loc) (st : list WorkSpace) : outcome (list WorkSpace) :=
  match ls with
  | [] => Returns st
  | l :: r =>
      let* w := must (st !! l) in
      clear_using r (<[l := set_using false w]> st)
  end.

(** The temporary queue of a planner: every selected WorkSpace is pushed
    with its priority. *)
Fixpoint push_all (st : list WorkSpace) (wm : bool) (ls : list loc) (q : plotterQueue) :
    outcome plotterQueue :=
  match ls with
  | [] => Returns q
  | l :: r =>
      let* it := queue_item st (newQueuedWorkSpace l wm) in
      push_all st wm r (pq_Push it q)
  end.

(** [for !tmpQueuedList.Empty() { qws := PopItem(); sk.queue.Push(..);
    sk.useWorkSpace(qws.ws) }], over the pending jobs in pop order. *)
Fixpoint drain_into (qs : list queuedWorkSpace) sk : outcome (SpaceKeeper W) :=
  match qs with
  | [] => Returns sk
  | qws :: r =>
      let* it := queue_item (store sk) qws in
      let* sk' := useWorkSpace (qws_ws qws) (with_queue (pq_Push it (queue sk)) sk) in
      drain_into r sk'
  end.

Definition requeue (wm : bool) (resultList : list loc) sk : outcome (SpaceKeeper W) :=
  let* tmpQueuedList := push_all (store sk) wm resultList newPlotterQueue in
  drain_into (item_qws <$> pending tmpQueuedList) sk.

Definition reset_unless (exec : bool) sk : SpaceKeeper W :=
  if negb exec then with_queue (pq_Reset (queue sk)) sk else sk.

(** What every planner does first; [None] when the call goes on, with
    [configuring = 1] and [configured = 0]. *)
Definition planner_enter sk : SpaceKeeper W + error :=
  if started sk then inr ErrSpaceKeeperIsRunning
  else if negb (configuring sk =? 0) then inr ErrSpaceKeeperIsConfiguring
  else inl (with_configured 0 (with_configuring 1 sk)).

(** The deferred [atomic.StoreInt32(&sk.configuring, 0)]. *)
Definition planner_leave {R : Type} (r : SpaceKeeper W * R) : SpaceKeeper W * R :=
  (with_configuring 0 r.1, r.2).

Definition planner_result : Type := (list WorkSpace * option error)%type.

Definition failureReturn (err : error) sk : outcome (SpaceKeeper W * planner_result) :=
  Returns (sk, ([], Some err)).

(** *** The planner: by bit-length count *)

(** [currentCount[bl]] of a Go map: a missing key reads as 0. *)
Definition count_at (cc : gmap Z Z) (bl : Z) : Z := default 0 (cc !! bl).

Fixpoint fill_bucket_by_count (spaces : list loc) (bl count : Z)
    (dst : list loc) (cc : gmap Z Z) : list loc * gmap Z Z :=
  match spaces with
  | [] => (dst, cc)
  | space :: r =>
      if count_at cc bl =? count then (dst, cc)
      else fill_bucket_by_count r bl count (dst ++ [space])
             (<[bl := int_add (count_at cc bl) 1]> cc)
  end.

(** [targets] are the entries of [targetCount] in the order of the
    iteration. *)
Fixpoint fillSpaceListByBitLength_loop (targets : list (Z * Z)) (srcMap : gmap Z (list loc))
    (dst : list loc) (cc : gmap Z Z) (finished : bool) : list loc * gmap Z Z * bool :=
  match targets with
  | [] => (dst, cc, finished)
  | (bl, count) :: r =>
      match srcMap !! bl with
      | None => fillSpaceListByBitLength_loop r srcMap dst cc false
      | Some spaces =>
          let '(dst', cc') := fill_bucket_by_count spaces bl count dst cc in
          fillSpaceListByBitLength_loop r srcMap dst' cc'
            (finished && (count_at cc' bl =? count))
      end
  end.

Definition fillSpaceListByBitLength (dstList : list loc) (srcMap : gmap Z (list loc))
    (currentCount targetCount : gmap Z Z) : list loc * gmap Z Z * bool :=
  fillSpaceListByBitLength_loop (map_to_list targetCount) srcMap dstList currentCount true.

Fixpoint required_by_count (targets : list (Z * Z)) (cc : gmap Z Z) (acc : Z) : Z :=
  match targets with
  | [] => acc
  | (bl, target) :: r =>
      required_by_count r cc
        (int_add acc (int_mul (int_sub target (count_at cc bl)) (BitLengthDiskSize bl)))
  end.

(** The generation loop of one bit length ([out: for { ... }]). *)
Fixpoint generate_by_count (fuel : nat) (be : PlotBackend) (bl count : Z)
    (dst : list loc) (cc : gmap Z Z) sk :
    outcome (SpaceKeeper W * (list loc * gmap Z Z + error)) :=
  if count_at cc bl =? count then Returns (sk, inl (dst, cc))
  else
    match fuel with
    | O => OutOfFuel
    | S fuel' =>
        let* (sk1, r) := generateNewWorkSpace be bl sk in
        match r with
        | inr err => Returns (sk1, inr err)
        | inl newWS =>
            let* sk2 := addWorkSpaceToIndex newWS sk1 in
            generate_by_count fuel' be bl count (dst ++ [newWS])
              (<[bl := int_add (count_at cc bl) 1]> cc) sk2
        end
    end.

Fixpoint generate_by_count_all (fuel : nat) (be : PlotBackend) (targets : list (Z * Z))
    (dst : list loc) (cc : gmap Z Z) sk : outcome (SpaceKeeper W * (list loc + error)) :=
  match targets with
  | [] => Returns (sk, inl dst)
  | (bl, count) :: r =>
      let* (sk1, res) := generate_by_count fuel be bl count dst cc sk in
      match res with
      | inr err => Returns (sk1, inr err)
      | inl (dst', cc') => generate_by_count_all fuel be r dst' cc' sk1
      end
  end.

Definition generateFillSpaceListByBitLength (fuel : nat) (be : PlotBackend)
    (dstList : list loc) (currentCount targetCount : gmap Z Z) sk :
    outcome (SpaceKeeper W * (list loc + error)) :=
  if negb (allowGenerateNewSpace sk) then Returns (sk, inr ErrWorkSpaceCannotGenerate)
  else
    let requiredOSDiskSize := required_by_count (map_to_list targetCount) currentCount 0 in
    let* chk := checkOSDiskSize be requiredOSDiskSize sk in
    match chk with
    | Some err => Returns (sk, inr err)
    | None =>
        generate_by_count_all fuel be (map_to_list targetCount) dstList currentCount sk
    end.

(** The closure [successfullyReturn] of [ConfigureByBitLength]. *)
Definition successfullyReturn_ByBitLength (resultList : list loc) (execPlot execMine : bool) sk :
    outcome (SpaceKeeper W * planner_result) :=
  if decide (length resultList = 0%nat) then failureReturn ErrSpaceKeeperConfiguredNothing sk
  else
    let* st := clear_using (workSpaceList sk) (store sk) in
    let sk1 := with_list [] (with_store st sk) in
    let* sk2 := requeue execMine resultList sk1 in
    let sk3 := reset_unless (execMine || execPlot) sk2 in
    let* wsiList := infos_of (store sk3) resultList in
    Returns (with_configured 1 sk3, (wsiList, None)).

(** The choice of the WorkSpaces, before [successfullyReturn]. *)
Definition select_ByBitLength (fuel : nat) (be : PlotBackend) (BlCount : gmap Z Z) sk :
    outcome (SpaceKeeper W * (list loc + error)) :=
  let* srcMap := getIndexedWorkSpaces sk in
  let '(resultList, currentCount, finished) := fillSpaceListByBitLength [] srcMap ∅ BlCount in
  if finished then Returns (sk, inl resultList)
  else generateFillSpaceListByBitLength fuel be resultList currentCount BlCount sk.

Definition ConfigureByBitLength (fuel : nat) (be : PlotBackend) (BlCount : gmap Z Z)
    (execPlot execMine : bool) sk : outcome (SpaceKeeper W * planner_result) :=
  match planner_enter sk with
  | inr err => Returns (sk, ([], Some err))
  | inl sk0 =>
      planner_leave <$$>
        (let* (sk1, sel) := select_ByBitLength fuel be BlCount sk0 in
         match sel with
         | inr err => failureReturn err sk1
         | inl resultList => successfullyReturn_ByBitLength resultList execPlot execMine sk1
         end)
  end.

(** *** The planner: by aggregate size *)

(** The inner loop of [fillSpaceListBySize], over one bucket. *)
Fixpoint fill_bucket_by_size (spaces : list loc) (bl : Z) (dst : list loc)
    (currentSize targetSize : Z) : list loc * Z :=
  match spaces with
  | [] => (dst, currentSize)
  | space :: r =>
      let grown := int_add currentSize (BitLengthDiskSize bl) in
      if targetSize <? grown then
        fill_bucket_by_size r bl dst (int_sub grown (BitLengthDiskSize bl)) targetSize
      else fill_bucket_by_size r bl (dst ++ [space]) grown targetSize
  end.

Fixpoint fill_buckets_by_size (bls : list Z) (srcMap : gmap Z (list loc)) (dst : list loc)
    (currentSize targetSize : Z) : list loc * Z :=
  match bls with
  | [] => (dst, currentSize)
  | bl :: r =>
      match srcMap !! bl with
      | None => fill_buckets_by_size r srcMap dst currentSize targetSize
      | Some spaces =>
          let '(dst', cur') := fill_bucket_by_size spaces bl dst currentSize targetSize in
          fill_buckets_by_size r srcMap dst' cur' targetSize
      end
  end.

Definition fillSpaceListBySize (dstList : list loc) (srcMap : gmap Z (list loc))
    (currentSize targetSize : Z) : list loc * Z * bool :=
  let '(dst, cur) := fill_buckets_by_size allowedBL srcMap dstList currentSize targetSize in
  (dst, cur, (cur =? targetSize) || (int_sub targetSize cur <? MinDiskSize)).

(** The generation loop of one bit length ([out: for { ... }]). *)
Fixpoint generate_by_size (fuel : nat) (be : PlotBackend) (bl : Z) (dst : list loc)
    (currentSize targetSize : Z) sk : outcome (SpaceKeeper W * (list loc * Z + error)) :=
  if int_sub targetSize currentSize <? BitLengthDiskSize bl then
    Returns (sk, inl (dst, currentSize))
  else
    match fuel with
    | O => OutOfFuel
    | S fuel' =>
        let cur' := int_add currentSize (BitLengthDiskSize bl) in
        let* (sk1, r) := generateNewWorkSpace be bl sk in
        match r with
        | inr err => Returns (sk1, inr err)
        | inl newWS =>
            let* sk2 := addWorkSpaceToIndex newWS sk1 in
            generate_by_size fuel' be bl (dst ++ [newWS]) cur' targetSize sk2
        end
    end.

Fixpoint generate_by_size_all (fuel : nat) (be : PlotBackend) (bls : list Z) (dst : list loc)
    (currentSize targetSize : Z) sk : outcome (SpaceKeeper W * (list loc + error)) :=
  match bls with
  | [] => Returns (sk, inl dst)
  | bl :: r =>
      let* (sk1, res) := generate_by_size fuel be bl dst currentSize targetSize sk in
      match res with
      | inr err => Returns (sk1, inr err)
      | inl (dst', cur') => generate_by_size_all fuel be r dst' cur' targetSize sk1
      end
  end.

Definition generateFillSpaceListBySize (fuel : nat) (be : PlotBackend) (dstList : list loc)
    (currentSize targetSize : Z) sk : outcome (SpaceKeeper W * (list loc + error)) :=
  if negb (allowGenerateNewSpace sk) then Returns (sk, inr ErrWorkSpaceCannotGenerate)
  else
    let* chk := checkOSDiskSize be (int_sub targetSize currentSize) sk in
    match chk with
    | Some err => Returns (sk, inr err)
    | None => generate_by_size_all fuel be allowedBL dstList currentSize targetSize sk
    end.

(** The closure [successfullyReturn] of [ConfigureBySize]. *)
Definition successfullyReturn_BySize (resultList : list loc) sk :
    outcome (SpaceKeeper W * planner_result) :=
  if decide (length resultList = 0%nat) then failureReturn ErrSpaceKeeperConfiguredNothing sk
  else
    let sk0 := with_queue (pq_Reset (queue sk)) sk in
    let* st := clear_using (workSpaceList sk0) (store sk0) in
    let sk1 := with_list [] (with_store st sk0) in
    let* sk2 := requeue false resultList sk1 in
    let sk3 := with_queue (pq_Reset (queue sk2)) sk2 in
    let* wsiList := infos_of (store sk3) resultList in
    Returns (with_configured 1 sk3, (wsiList, None)).

Definition select_BySize (fuel : nat) (be : PlotBackend) (targetSize : Z) sk :
    outcome (SpaceKeeper W * (list loc + error)) :=
  let* srcMap := getIndexedWorkSpaces sk in
  let '(resultList, currentSize, finished) := fillSpaceListBySize [] srcMap 0 targetSize in
  if finished then Returns (sk, inl resultList)
  else generateFillSpaceListBySize fuel be resultList currentSize targetSize sk.

Definition ConfigureBySize (fuel : nat) (be : PlotBackend) (targetSize : Z)
    (password : string) sk : outcome (SpaceKeeper W * planner_result) :=
  match planner_enter sk with
  | inr err => Returns (sk, ([], Some err))
  | inl sk0 =>
      planner_leave <$$>
        (let* bl0 := must (usableBitLength !! 0%nat) in
         if targetSize <? BitLengthDiskSize bl0 then failureReturn ErrConfigUnderSizeTarget sk0
         else
           match Unlock (wallet sk0) password with
           | (w', Some msg) => Returns (with_wallet w' sk0, ([], Some (ErrForeign msg)))
           | (w', None) =>
               let* (sk1, sel) := select_BySize fuel be targetSize (with_wallet w' sk0) in
               match sel with
               | inr err => failureReturn err sk1
               | inl resultList => successfullyReturn_BySize resultList sk1
               end
           end)
  end.

(** *** The planner: by public key *)

(** [PubKeyOrdinal[pubKey]] of a Go map: a missing key reads as 0. The
    keys of the two maps are pointers; an entry of [targets] stands for
    one key of [PubKeyBL]. *)
Definition ordinal_of (pubKeyOrdinal : gmap PubKey Z) (pk : PubKey) : Z :=
  default 0 (pubKeyOrdinal !! pk).

Fixpoint required_by_pubKey (targets : list (PubKey * Z)) (pubKeyOrdinal : gmap PubKey Z)
    sk (acc : Z) : Z :=
  match targets with
  | [] => acc
  | (pk, bl) :: r =>
      let sid := SpaceID_String (NewSpaceID (ordinal_of pubKeyOrdinal pk) pk bl) in
      match index_Get sk allState sid with
      | Some _ => required_by_pubKey r pubKeyOrdinal sk acc
      | None => required_by_pubKey r pubKeyOrdinal sk (int_add acc (BitLengthDiskSize bl))
      end
  end.

Fixpoint generate_by_pubKey (be : PlotBackend) (targets : list (PubKey * Z))
    (pubKeyOrdinal : gmap PubKey Z) (dst : list loc) sk :
    outcome (SpaceKeeper W * (list loc + error)) :=
  match targets with
  | [] => Returns (sk, inl dst)
  | (pk, bl) :: r =>
      let ord := ordinal_of pubKeyOrdinal pk in
      match index_Get sk allState (SpaceID_String (NewSpaceID ord pk bl)) with
      | Some l => generate_by_pubKey be r pubKeyOrdinal (dst ++ [l]) sk
      | None =>
          let* (sk1, res) := generateNewWorkSpaceByPubKey be ord pk bl sk in
          match res with
          | inr err => Returns (sk1, inr err)
          | inl newWS =>
              let* sk2 := addWorkSpaceToIndex newWS sk1 in
              generate_by_pubKey be r pubKeyOrdinal (dst ++ [newWS]) sk2
          end
      end
  end.

Definition generateFillSpaceListByPubKey (be : PlotBackend) (dstList : list loc)
    (targetPubKeyBL : list (PubKey * Z)) (pubKeyOrdinal : gmap PubKey Z) sk :
    outcome (SpaceKeeper W * (list loc + error)) :=
  let requiredOSDiskSize := required_by_pubKey targetPubKeyBL pubKeyOrdinal sk 0 in
  let* chk := checkOSDiskSize be requiredOSDiskSize sk in
  match chk with
  | Some err => Returns (sk, inr err)
  | None => generate_by_pubKey be targetPubKeyBL pubKeyOrdinal dstList sk
  end.

(** The closure [successfullyReturn] of [ConfigureByPubKey]. *)
Definition successfullyReturn_ByPubKey (resultList : list loc) (nTarget : nat)
    (execPlot execMine : bool) sk : outcome (SpaceKeeper W * planner_result) :=
  if decide (length resultList ≠ nTarget) then
    failureReturn ErrSpaceKeeperConfiguredNothing sk
  else
    let sk1 := with_list [] sk in
    let* sk2 := requeue execMine resultList sk1 in
    let sk3 := reset_unless (execMine || execPlot) sk2 in
    let* wsiList := infos_of (store sk3) resultList in
    Returns (with_configured 1 sk3, (wsiList, None)).

Definition ConfigureByPubKey (be : PlotBackend) (PubKeyBL : list (PubKey * Z))
    (PubKeyOrdinal : gmap PubKey Z) (execPlot execMine : bool) sk :
    outcome (SpaceKeeper W * planner_result) :=
  match planner_enter sk with
  | inr err => Returns (sk, ([], Some err))
  | inl sk0 =>
      planner_leave <$$>
        (let* (sk1, sel) := generateFillSpaceListByPubKey be [] PubKeyBL PubKeyOrdinal sk0 in
         match sel with
         | inr err => failureReturn err sk1
         | inl resultList =>
             successfullyReturn_ByPubKey resultList (length PubKeyBL) execPlot execMine sk1
         end)
  end.

(** *** The planner: by flags *)

(** The WorkSpaces of the slots of the states that the flags name. *)
Definition items_by_flags (flags : list WorkSpaceState) sk : list loc :=
  flags ≫= (λ state, (map_to_list (index_at (workSpaceIndex sk) (OfState state))).*2).

Definition ConfigureByFlags (flags : list WorkSpaceState) (execPlot execMine : bool) sk :
    outcome (SpaceKeeper W * planner_result) :=
  match planner_enter sk with
  | inr err => Returns (sk, ([], Some err))
  | inl sk0 =>
      planner_leave <$$>
        (let items := items_by_flags flags sk0 in
         let sk1 := with_list [] sk0 in
         let* sk2 := requeue true items sk1 in
         let sk3 := reset_unless (execMine || execPlot) sk2 in
         let* wsiList := infos_of (store sk3) (workSpaceList sk3) in
         let sk4 := if decide (length wsiList = 0%nat) then with_configured 1 sk3 else sk3 in
         Returns (sk4, (wsiList, None)))
  end.
End Keeper.

(** ** Queries and the verbs over a filter *)

(** Modelled from the spec: [engine.WorkSpaceStateFlags] is a bit-set over
    the four states plus a synthetic All; [Contains(SFAll)] and [States()]
    are what the SpaceKeeper asks of it. *)
Record WorkSpaceStateFlags : Type := mkFlags {
  flags_ContainsAll : bool;
  flags_States : list WorkSpaceState
}.

Section Queries.
Context {W : Type} {wallet_ops : PoCWallet W} {params : PoCParams}.
Implicit Type sk : SpaceKeeper W.

(** [ws.id.String()] of every WorkSpace of a list. *)
Fixpoint ids_of (st : list WorkSpace) (ls : list loc) : outcome (list string) :=
  match ls with
  | [] => Returns []
  | l :: r =>
      let* s := sid_at st l in
      let* r' := ids_of st r in
      Returns (s :: r')
  end.

Definition WorkSpaceIDs (flags : WorkSpaceStateFlags) sk :
    outcome (list string * option error) :=
  if flags_ContainsAll flags then
    let* result := ids_of (store sk) (workSpaceList sk) in
    Returns (result, None)
  else
    let* items := getWsByFlags (store sk) (workSpaceList sk) (flags_States flags) in
    let* result := ids_of (store sk) items in
    Returns (result, None).

Definition WorkSpaceInfos (flags : WorkSpaceStateFlags) sk :
    outcome (list WorkSpace * option error) :=
  if flags_ContainsAll flags then
    let* result := infos_of (store sk) (workSpaceList sk) in
    Returns (result, None)
  else
    let* items := getWsByFlags (store sk) (workSpaceList sk) (flags_States flags) in
    let* result := infos_of (store sk) items in
    Returns (result, None).

Definition Configured sk : bool := negb (configured sk =? 0).

(** The loop shared by the five [...MultiWS]: over the WorkSpaces selected
    when the call starts, [result[sid] = sk.verb(sid)]. *)
Fixpoint multi_loop (verb : string → SpaceKeeper W → outcome (SpaceKeeper W * option error))
    (sel : list loc) (result : gmap string (option error)) sk :
    outcome (SpaceKeeper W * gmap string (option error)) :=
  match sel with
  | [] => Returns (sk, result)
  | l :: r =>
      let* sid := sid_at (store sk) l in
      let* (sk1, err) := verb sid sk in
      multi_loop verb r (<[sid := err]> result) sk1
  end.

Definition PlotMultiWS (flags : list WorkSpaceState) sk :
    outcome (SpaceKeeper W * gmap string (option error)) :=
  let* sel := getWsByFlags (store sk) (workSpaceList sk) flags in
  multi_loop PlotWS sel ∅ sk.

Definition MineMultiWS (flags : list WorkSpaceState) sk :
    outcome (SpaceKeeper W * gmap string (option error)) :=
  let* sel := getWsByFlags (store sk) (workSpaceList sk) flags in
  multi_loop MineWS sel ∅ sk.

Definition StopMultiWS (be : PlotBackend) (flags : list WorkSpaceState) sk :
    outcome (SpaceKeeper W * gmap string (option error)) :=
  let* sel := getWsByFlags (store sk) (workSpaceList sk) flags in
  multi_loop (StopWS be) sel ∅ sk.

Definition RemoveMultiWS (flags : list WorkSpaceState) sk :
    outcome (SpaceKeeper W * gmap string (option error)) :=
  let* sel := getWsByFlags (store sk) (workSpaceList sk) flags in
  multi_loop RemoveWS sel ∅ sk.

Definition DeleteMultiWS (be : PlotBackend) (flags : list WorkSpaceState) sk :
    outcome (SpaceKeeper W * gmap string (option error)) :=
  let* sel := getWsByFlags (store sk) (workSpaceList sk) flags in
  multi_loop (DeleteWS be) sel ∅ sk.

(** The verb of a valid action, as the five [...MultiWS] call it. *)
Definition verb_of (be : PlotBackend) (action : ActionType) :
    option (string → SpaceKeeper W → outcome (SpaceKeeper W * option error)) :=
  match action with
  | Plot => Some PlotWS
  | Mine => Some MineWS
  | Stop => Some (StopWS be)
  | Remove => Some RemoveWS
  | Delete => Some (DeleteWS be)
  | ActOther _ => None
  end.

Definition ActOnWorkSpaces (be : PlotBackend) (flags : list WorkSpaceState)
    (action : ActionType) sk :
    outcome (SpaceKeeper W * (gmap string (option error) * option error)) :=
  if negb (action_IsValid action) then Returns (sk, (∅, Some ErrInvalidAction))
  else
    match action with
    | Plot => let* (sk', errs) := PlotMultiWS flags sk in Returns (sk', (errs, None))
    | Mine => let* (sk', errs) := MineMultiWS flags sk in Returns (sk', (errs, None))
    | Stop => let* (sk', errs) := StopMultiWS be flags sk in Returns (sk', (errs, None))
    | Remove => let* (sk', errs) := RemoveMultiWS flags sk in Returns (sk', (errs, None))
    | Delete => let* (sk', errs) := DeleteMultiWS be flags sk in Returns (sk', (errs, None))
    | ActOther _ => Returns (sk, (∅, Some ErrUnImplementedAction))
    end.
End Queries.

(** ** The invariants of the data model *)

Section Invariants.
Context {W : Type} {wallet_ops : PoCWallet W} {params : PoCParams}.
Implicit Type sk : SpaceKeeper W.

(** Every entry of a state slot is a live WorkSpace in that state, filed
    under its own sid, and is also in the [allState] slot. *)
Definition index_wf sk : Prop :=
  ∀ s sid l, index_Get sk (OfState s) sid = Some l →
    index_Get sk allState sid = Some l ∧
    ∃ w, store sk !! l = Some w ∧ ws_state w = s.

(** The sids of a list of WorkSpaces. *)
Definition sids_of (st : list WorkSpace) (ls : list loc) : list (option string) :=
  (λ l, (λ w, SpaceID_String (ws_id w)) <$> st !! l) <$> ls.

(** [ws.using ⇔ ws ∈ workSpaceList]: the members of [workSpaceList] are
    the WorkSpaces with [using = true]. *)
Definition using_iff_listed sk : Prop :=
  ∀ l : loc, l ∈ workSpaceList sk ↔ ∃ w, store sk !! l = Some w ∧ ws_using w = true.

(** No sid twice in [workSpaceList]. *)
Definition list_no_dup sk : Prop := NoDup (sids_of (store sk) (workSpaceList sk)).

(** The invariant of [workSpaceList]. *)
Definition list_inv sk : Prop := using_iff_listed sk ∧ list_no_dup sk.

(** The sid of the WorkSpace at an address. *)
Definition sid_of (st : list WorkSpace) (l : loc) : option string :=
  (λ w, SpaceID_String (ws_id w)) <$> st !! l.

(** [sk1] is [sk] with new WorkSpaces allocated, none in use, and the same
    [workSpaceList]: what the generation of plots does to the store. *)
Definition grows sk sk1 : Prop :=
  workSpaceList sk1 = workSpaceList sk ∧
  ∃ new, store sk1 = store sk ++ new ∧ Forall (λ w, ws_using w = false) new.

(** Every WorkSpace of the [allState] slot is filed in the slot of its
    state. *)
Definition index_complete sk : Prop :=
  ∀ sid l, index_Get sk allState sid = Some l →
    ∃ w, store sk !! l = Some w ∧ index_Get sk (OfState (ws_state w)) sid = Some l.

(** Every entry of the index is filed under the sid of its WorkSpace. *)
Definition index_keys sk : Prop :=
  ∀ b sid l, index_Get sk b sid = Some l → sid_of (store sk) l = Some sid.

(** The invariant of the indexes: every indexed WorkSpace is in the slot
    of its state, in no other state slot, and in [allState], under its sid. *)
Definition index_inv sk : Prop := index_wf sk ∧ index_complete sk ∧ index_keys sk.

(** What a planner call leaves alone. *)
Definition planner_frame sk sk' : Prop :=
  started sk' = started sk ∧ dbDirs sk' = dbDirs sk ∧ dbType sk' = dbType sk ∧
  allowGenerateNewSpace sk' = allowGenerateNewSpace sk ∧
  proofCache sk' = proofCache sk ∧
  newQueuedWorkSpaceCh sk' = newQueuedWorkSpaceCh sk.

(** A step inside a planner call: the frame, and the two atomic flags. *)
Definition planner_step sk sk' : Prop :=
  planner_frame sk sk' ∧ configuring sk' = configuring sk ∧ configured sk' = configured sk.

(** What every step of a planner call keeps: the frame, the two atomic
    flags, and the invariant of the indexes. *)
Definition keeps sk sk' : Prop :=
  planner_step sk sk' ∧ (index_inv sk → index_inv sk').

(** What holds when a planner call that passed its guards returns: the
    frame, [configuring] back to 0, [configured] telling whether the call
    succeeded, the invariant of the indexes, and no pending job when
    [idle] says that nothing was to be started. *)
Definition planner_post sk sk' (e : option error) (idle : bool) : Prop :=
  planner_frame sk sk' ∧ configuring sk' = 0 ∧
  configured sk' = (if e is None then 1 else 0) ∧
  (index_inv sk → index_inv sk') ∧
  (e = None → idle = true → pending (queue sk') = []).

(** Two stores that give every address the same identity and state. *)
Definition same_id_state (st st' : list WorkSpace) : Prop :=
  ∀ x : loc, (λ w, (ws_id w, ws_state w)) <$> st' !! x =
             (λ w, (ws_id w, ws_state w)) <$> st !! x.

(** The pointers of a list are live. *)
Definition all_live (st : list WorkSpace) (ls : list loc) : Prop :=
  Forall (λ l, is_Some (st !! l)) ls.

(** No WorkSpace of that sid in the [allState] slot, or one that is not
    in use. *)
Definition absent_or_unused sk (sid : string) : Prop :=
  index_Get sk allState sid = None ∨
  ∃ l w, index_Get sk allState sid = Some l ∧ store sk !! l = Some w ∧ ws_using w = false.

(** A WorkSpace of that sid is indexed at [l], and it is in use. *)
Definition live_and_using sk (sid : string) (l : loc) (w : WorkSpace) : Prop :=
  index_Get sk allState sid = Some l ∧ store sk !! l = Some w ∧ ws_using w = true.

(** The greedy fill in the words of the specification, on unbounded
    integers: the buckets are taken in the given order of bit lengths; a
    candidate that would take the accumulated size above the target is
    skipped, any other is added whole. *)
Fixpoint greedy_bucket (spaces : list loc) (size : Z) (dst : list loc)
    (currentSize targetSize : Z) : list loc * Z :=
  match spaces with
  | [] => (dst, currentSize)
  | space :: r =>
      if targetSize <? currentSize + size
      then greedy_bucket r size dst currentSize targetSize
      else greedy_bucket r size (dst ++ [space]) (currentSize + size) targetSize
  end.

Definition bucket_of (srcMap : gmap Z (list loc)) (bl : Z) : list loc :=
  default [] (srcMap !! bl).

Fixpoint greedy_fill (bls : list Z) (srcMap : gmap Z (list loc)) (dst : list loc)
    (currentSize targetSize : Z) : list loc * Z :=
  match bls with
  | [] => (dst, currentSize)
  | bl :: r =>
      let '(dst', cur') :=
        greedy_bucket (bucket_of srcMap bl) (BitLengthDiskSize bl) dst currentSize targetSize in
      greedy_fill r srcMap dst' cur' targetSize
  end.

(** The sizes at which the [int] arithmetic of the fill does not wrap. *)
Definition sizes_fit (currentSize targetSize : Z) : Prop :=
  0 <= currentSize <= targetSize ∧
  ∀ bl, bl ∈ [28; 26; 24] →
    0 <= BitLengthDiskSize bl ∧ targetSize + BitLengthDiskSize bl < 2 ^ 63.
(** The half of the invariant of [workSpaceList] that every planner
    keeps: a listed WorkSpace is live and in use. *)
Definition listed_are_used sk : Prop :=
  ∀ l : loc, l ∈ workSpaceList sk → ∃ w, store sk !! l = Some w ∧ ws_using w = true.

(** What the rebuild of [workSpaceList] leaves alone: the indexes, the
    wallet, and the identity and state of every WorkSpace. *)
Definition same_plots sk sk' : Prop :=
  workSpaceIndex sk' = workSpaceIndex sk ∧ wallet sk' = wallet sk ∧
  same_id_state (store sk) (store sk').

(** A WorkSpace that the generation has just made: registered, not in
    use, of the bit length asked for. *)
Definition fresh_plot sk (bl : Z) (l : loc) : Prop :=
  ∃ w, store sk !! l = Some w ∧ bitLength (ws_id w) = bl ∧
       ws_state w = Registered ∧ ws_using w = false.

(** The bit length of the WorkSpace at an address. *)
Definition bl_of (st : list WorkSpace) (l : loc) : option Z :=
  (λ w, bitLength (ws_id w)) <$> st !! l.

(** The WorkSpaces of a list that have a given bit length. *)
Definition of_bitLength (st : list WorkSpace) (bl : Z) (ls : list loc) : list loc :=
  filter (λ l, bl_of st l = Some bl) ls.

(** The WorkSpaces of the jobs of a queue, in pop order. *)
Definition ws_in (q : plotterQueue) : list loc :=
  (λ it, qws_ws (item_qws it)) <$> pending q.

(** The counters of the planner by bit length tell, for every bit
    length, how many WorkSpaces of the list have it; the WorkSpaces of the
    list are live. *)
Definition counted (st : list WorkSpace) (dst : list loc) (cc : gmap Z Z) : Prop :=
  all_live st dst ∧
  ∀ bl, Z.of_nat (length (of_bitLength st bl dst)) = count_at cc bl.

(** No counter is above its target, and the targets are counts of an
    [int]. *)
Definition below_targets (targetCount cc : gmap Z Z) : Prop :=
  ∀ bl count, targetCount !! bl = Some count → count_at cc bl <= count < 2 ^ 63.

(** The disk size of the plots of a list of WorkSpaceInfos. *)
Definition plots_size (infos : list WorkSpace) : Z :=
  foldr (λ w acc, BitLengthDiskSize (bitLength (ws_id w)) + acc) 0 infos.

(** The disk size of the plots of a list of WorkSpaces of the store. *)
Definition total_size (st : list WorkSpace) (ls : list loc) : Z :=
  foldr (λ l acc, BitLengthDiskSize (default 0 (bl_of st l)) + acc) 0 ls.

(** Every WorkSpace of the list has one of the usable bit lengths. *)
Definition usable_plots (st : list WorkSpace) (ls : list loc) : Prop :=
  Forall (λ l, ∃ bl, bl ∈ usableBitLength ∧ bl_of st l = Some bl) ls.

(** A job is pending for the WorkSpace at [l], under its sid, with the
    given [wouldMining]. *)
Definition has_job sk (l : loc) (wm : bool) : Prop :=
  ∃ w it, store sk !! l = Some w ∧ it ∈ pending (queue sk) ∧
          item_qws it = newQueuedWorkSpace l wm ∧
          item_sid it = SpaceID_String (ws_id w).

(** What a planner that is to start plots leaves in the plotter queue:
    the jobs that were pending, and a job for every WorkSpace it
    returns. *)
Definition queued_for sk sk' (infos : list WorkSpace) (wm : bool) : Prop :=
  (∀ it, it ∈ pending (queue sk) → it ∈ pending (queue sk')) ∧
  ∀ w, w ∈ infos →
    ∃ it, it ∈ pending (queue sk') ∧ item_sid it = SpaceID_String (ws_id w) ∧
          wouldMining (item_qws it) = wm ∧
          store sk' !! qws_ws (item_qws it) = Some w.

(** The sid that [ConfigureByPubKey] asks for, for a key and its bit
    length. *)
Definition target_sid (pubKeyOrdinal : gmap PubKey Z) (t : PubKey * Z) : string :=
  SpaceID_String (NewSpaceID (ordinal_of pubKeyOrdinal t.1) t.1 t.2).
End Invariants.

(** ** A concrete instance *)

(** Parameters to run the definitions on: the sid is the key, the ordinal
    and the bit length; a plot of bit length [bl] takes [2^bl * 8] bytes. *)
Definition demo_params : PoCParams := {|
  SpaceID_String := λ i, pubKey i +:+ "-" +:+ pretty (ordinal i) +:+ "-" +:+ pretty (bitLength i);
  Hash_String := String.string_of_list_byte;
  BitLengthDiskSize := λ bl,
    if decide (bl = 24 ∨ bl = 26 ∨ bl = 28) then 2 ^ bl * 8 else 0;
  MinDiskSize := 2 ^ 24 * 8
|}.

(** A wallet that is a counter of the keys it has issued; it is never
    locked and signs everything. *)
Definition demo_wallet : PoCWallet nat := {|
  GenerateNewPublicKey := λ n, (S n, inl ("key" +:+ pretty n, Z.of_nat n));
  GetPublicKeyOrdinal := λ _ _, None;
  SignMessage := λ _ pk _, (Some ("signed:" +:+ pk), None);
  Unlock := λ n _, (n, None);
  Lock := λ n, n;
  IsLocked := λ _, false
|}.

(** A backend that finds no proof ("miss") for the WorkSpace at address 0
    and a proof for the others, and a disk with 2^40 free bytes. *)
Definition demo_backend : PlotBackend := {|
  db_GetProof := λ l _,
    match l with
    | O => (None, Some "miss")
    | _ => (Some (mkProof [] [] 24), None)
    end;
  ws_StopPlot := λ _, None;
  ws_Delete := λ _, None;
  NewWorkSpace_err := λ _ _ _ _ bl,
    if decide (bl = 24 ∨ bl = 26 ∨ bl = 28) then None else Some "invalid bit length";
  disk_Usage := λ _, inl (2 ^ 40)
|}.

Definition demo_wsA : WorkSpace := mkWorkSpace (mkSpaceID 0 "A" 24) Registered true.
Definition demo_wsB : WorkSpace := mkWorkSpace (mkSpaceID 1 "B" 24) Ready false.

Definition demo_sidA : string := SpaceID_String (PoCParams := demo_params) (ws_id demo_wsA).
Definition demo_sidB : string := SpaceID_String (PoCParams := demo_params) (ws_id demo_wsB).

(** Two indexed WorkSpaces: A (registered, in use, listed) at address 0 and
    B (ready, not in use) at address 1; the service is stopped. *)
Definition demo_sk : SpaceKeeper nat := {|
  started := false;
  configuring := 0;
  configured := 1;
  allowGenerateNewSpace := true;
  dbDirs := ["/data/a"; "/data/b"];
  dbType := "massdb";
  wallet := 0%nat;
  store := [demo_wsA; demo_wsB];
  workSpaceIndex :=
    mkIndex {[ demo_sidA := 0%nat ]} ∅ {[ demo_sidB := 1%nat ]} ∅
            {[ demo_sidA := 0%nat; demo_sidB := 1%nat ]};
  workSpaceList := [0%nat];
  queue := newPlotterQueue;
  newQueuedWorkSpaceCh := [];
  proofCache := new_proofCache
|}.
(** The same SpaceKeeper, started. *)
Definition demo_started : SpaceKeeper nat := with_started true demo_sk.

Definition demo_wsM : WorkSpace := mkWorkSpace (mkSpaceID 2 "M" 26) Mining true.
Definition demo_sidM : string := SpaceID_String (PoCParams := demo_params) (ws_id demo_wsM).

(** One WorkSpace M, mining and in use, with a job for it left pending in
    the queue. *)
Definition demo_mining : SpaceKeeper nat := {|
  started := true;
  configuring := 0;
  configured := 1;
  allowGenerateNewSpace := true;
  dbDirs := ["/data/a"];
  dbType := "massdb";
  wallet := 0%nat;
  store := [demo_wsM];
  workSpaceIndex := mkIndex ∅ ∅ ∅ {[ demo_sidM := 0%nat ]} {[ demo_sidM := 0%nat ]};
  workSpaceList := [0%nat];
  queue := mkQueue [mkItem demo_sidM (3, 26, 2) (mkQueued 0%nat true)] None;
  newQueuedWorkSpaceCh := [];
  proofCache := new_proofCache
|}.

(** [demo_sk] after [ConfigureByPubKey] for the key of B alone. *)
Definition demo_after_pubKey : SpaceKeeper nat := {|
  started := false;
  configuring := 0;
  configured := 1;
  allowGenerateNewSpace := true;
  dbDirs := ["/data/a"; "/data/b"];
  dbType := "massdb";
  wallet := 0%nat;
  store := [demo_wsA; set_using true demo_wsB];
  workSpaceIndex := workSpaceIndex demo_sk;
  workSpaceList := [1%nat];
  queue := newPlotterQueue;
  newQueuedWorkSpaceCh := [];
  proofCache := new_proofCache
|}.

(** The index that [addWorkSpaceToIndex] builds over a list of WorkSpaces. *)
Fixpoint index_all {W : Type} {params : PoCParams} (ls : list loc) (sk : SpaceKeeper W) :
    outcome (SpaceKeeper W) :=
  match ls with
  | [] => Returns sk
  | l :: r => let* sk1 := addWorkSpaceToIndex l sk in index_all r sk1
  end.

(** The two WorkSpaces of [demo_sk], both in use and listed; the service
    is started. *)
Definition demo_both : SpaceKeeper nat :=
  with_started true
    (with_list [0%nat; 1%nat] (with_store [demo_wsA; set_using true demo_wsB] demo_sk)).

Definition demo_wsP : WorkSpace := mkWorkSpace (mkSpaceID 3 "P" 28) Plotting true.
Definition demo_sidP : string := SpaceID_String (PoCParams := demo_params) (ws_id demo_wsP).

(** One WorkSpace P, plotting and in use, with its job in flight. *)
Definition demo_plotting : SpaceKeeper nat := {|
  started := true;
  configuring := 0;
  configured := 1;
  allowGenerateNewSpace := true;
  dbDirs := ["/data/a"];
  dbType := "massdb";
  wallet := 0%nat;
  store := [demo_wsP];
  workSpaceIndex := mkIndex ∅ {[ demo_sidP := 0%nat ]} ∅ ∅ {[ demo_sidP := 0%nat ]};
  workSpaceList := [0%nat];
  queue := mkQueue [] (Some (mkQueued 0%nat true));
  newQueuedWorkSpaceCh := [];
  proofCache := new_proofCache
|}.

(** * Properties *)

Section Properties.
Context {W : Type} {wallet_ops : PoCWallet W} {params : PoCParams}.
Implicit Type sk : SpaceKeeper W.

(** ** The guard of the action verbs *)

Lemma known_and_using_false sk sid :
  absent_or_unused sk sid → known_and_using sk sid = Returns false.
Proof.
  unfold known_and_using.
  intros [-> | (l & w & -> & Hw & Hu)]; [done |].
  rewrite Hw. simpl. by rewrite Hu.
Qed.

Lemma known_and_using_true sk sid l w :
  live_and_using sk sid l w → known_and_using sk sid = Returns true.
Proof.
  unfold known_and_using. intros (-> & Hw & Hu).
  rewrite Hw. simpl. by rewrite Hu.
Qed.

(** C2: every action verb answers [ErrWorkSpaceDoesNotExist], and changes
    nothing, when the sid is not in the [allState] slot or the WorkSpace
    found there has [using = false]; so does the dispatcher
    [ActOnWorkSpace] for each of the five verbs. *)
Theorem C2_verbs_reject_unknown_or_unused (be : PlotBackend) sk (sid : string) :
  absent_or_unused sk sid →
  PlotWS sid sk = Returns (sk, Some ErrWorkSpaceDoesNotExist) ∧
  MineWS sid sk = Returns (sk, Some ErrWorkSpaceDoesNotExist) ∧
  StopWS be sid sk = Returns (sk, Some ErrWorkSpaceDoesNotExist) ∧
  RemoveWS sid sk = Returns (sk, Some ErrWorkSpaceDoesNotExist) ∧
  DeleteWS be sid sk = Returns (sk, Some ErrWorkSpaceDoesNotExist) ∧
  ∀ action, action ∈ [Plot; Mine; Stop; Remove; Delete] →
    ActOnWorkSpace be sid action sk = Returns (sk, Some ErrWorkSpaceDoesNotExist).
Proof.
  intros H%known_and_using_false.
  assert (HP : PlotWS sid sk = Returns (sk, Some ErrWorkSpaceDoesNotExist))
    by (unfold PlotWS; by rewrite H).
  assert (HM : MineWS sid sk = Returns (sk, Some ErrWorkSpaceDoesNotExist))
    by (unfold MineWS; by rewrite H).
  assert (HS : StopWS be sid sk = Returns (sk, Some ErrWorkSpaceDoesNotExist))
    by (unfold StopWS; by rewrite H).
  assert (HR : RemoveWS sid sk = Returns (sk, Some ErrWorkSpaceDoesNotExist))
    by (unfold RemoveWS; by rewrite H).
  assert (HD : DeleteWS be sid sk = Returns (sk, Some ErrWorkSpaceDoesNotExist))
    by (unfold DeleteWS; by rewrite H).
  repeat split; try assumption.
  intros action Hin.
  repeat (apply elem_of_cons in Hin as [-> | Hin]; [by simpl |]).
  by apply elem_of_nil in Hin.
Qed.

(** ** Remove and Delete on a WorkSpace that is not still *)

Lemma not_still sk sid l w :
  index_wf sk → live_and_using sk sid l w →
  ws_state w = Plotting ∨ ws_state w = Mining →
  still_ws (with_queue (pq_Delete sid (queue sk)) sk) sid = None.
Proof.
  intros Hwf (Hall & Hw & _) Hst.
  unfold still_ws.
  destruct (index_Get _ (OfState Registered) sid) as [l'|] eqn:HR.
  { destruct (Hwf Registered sid l' HR) as (Hall' & w' & Hw' & Hs').
    rewrite Hall in Hall'. simplify_eq. destruct Hst; congruence. }
  destruct (index_Get _ (OfState Ready) sid) as [l'|] eqn:HY; [| done].
  destruct (Hwf Ready sid l' HY) as (Hall' & w' & Hw' & Hs').
  rewrite Hall in Hall'. simplify_eq. destruct Hst; congruence.
Qed.

Lemma pq_Delete_gone (sid : string) (q : plotterQueue) :
  sid ∉ (item_sid <$> pending (pq_Delete sid q)).
Proof.
  unfold pq_Delete. simpl. intros (it & Heq & Hin)%list_elem_of_fmap.
  apply list_elem_of_filter in Hin as [Hne _]. by apply Hne.
Qed.

Lemma pq_Delete_changes (sid : string) (q : plotterQueue) :
  sid ∈ (item_sid <$> pending q) → pq_Delete sid q ≠ q.
Proof.
  intros Hin Heq. apply (pq_Delete_gone sid q). by rewrite Heq.
Qed.

Lemma pq_Delete_keeps_others (sid : string) (q : plotterQueue) (it : queueItem) :
  item_sid it ≠ sid → it ∈ pending q → it ∈ pending (pq_Delete sid q).
Proof. intros Hne Hin. unfold pq_Delete. simpl. by apply list_elem_of_filter. Qed.

(** C10: on a live WorkSpace in use whose state is Plotting or Mining,
    [RemoveWS] and [DeleteWS] return [ErrWorkSpaceIsNotStill] after the
    deletion from the queue: the state they return is the one they got
    with [queue.Delete(sid)] applied, so the sid has no pending job left
    (and the queue differs from the one before when it had one), while
    the indexes, [workSpaceList] and the WorkSpace with its state and
    using flag are as before. *)
Theorem C10_remove_delete_not_still (be : PlotBackend) sk (sid : string)
    (l : loc) (w : WorkSpace) :
  index_wf sk → live_and_using sk sid l w →
  ws_state w = Plotting ∨ ws_state w = Mining →
  let sk' := with_queue (pq_Delete sid (queue sk)) sk in
  RemoveWS sid sk = Returns (sk', Some ErrWorkSpaceIsNotStill) ∧
  DeleteWS be sid sk = Returns (sk', Some ErrWorkSpaceIsNotStill) ∧
  (sid ∉ item_sid <$> pending (queue sk')) ∧
  (sid ∈ (item_sid <$> pending (queue sk)) → queue sk' ≠ queue sk) ∧
  workSpaceIndex sk' = workSpaceIndex sk ∧
  workSpaceList sk' = workSpaceList sk ∧
  store sk' = store sk ∧
  store sk' !! l = Some w.
Proof.
  intros Hwf Hlive Hst sk'.
  pose proof (known_and_using_true _ _ _ _ Hlive) as Hk.
  pose proof (not_still _ _ _ _ Hwf Hlive Hst) as Hn.
  split_and!.
  - unfold RemoveWS. rewrite Hk. simpl. by rewrite Hn.
  - unfold DeleteWS. rewrite Hk. simpl. by rewrite Hn.
  - apply pq_Delete_gone.
  - apply pq_Delete_changes.
  - done.
  - done.
  - done.
  - by destruct Hlive as (_ & ? & _).
Qed.
(** ** Plot *)

Lemma not_queued_or_plotting sk sid l w :
  index_wf sk → live_and_using sk sid l w →
  ws_state w = Ready ∨ ws_state w = Mining →
  index_Get sk (OfState Registered) sid = None ∧
  index_Get sk (OfState Plotting) sid = None.
Proof.
  intros Hwf (Hall & Hw & _) Hst. split.
  - destruct (index_Get _ (OfState Registered) sid) as [l'|] eqn:HR; [| done].
    destruct (Hwf Registered sid l' HR) as (Hall' & w' & Hw' & Hs').
    rewrite Hall in Hall'. simplify_eq. destruct Hst; congruence.
  - destruct (index_Get _ (OfState Plotting) sid) as [l'|] eqn:HR; [| done].
    destruct (Hwf Plotting sid l' HR) as (Hall' & w' & Hw' & Hs').
    rewrite Hall in Hall'. simplify_eq. destruct Hst; congruence.
Qed.

(** Plot on a ready or mining WorkSpace changes nothing and returns nil. *)
Lemma PlotWS_ready_mining_noop sk sid l w :
  index_wf sk → live_and_using sk sid l w →
  ws_state w = Ready ∨ ws_state w = Mining →
  PlotWS sid sk = Returns (sk, None).
Proof.
  intros Hwf Hlive Hst.
  destruct (not_queued_or_plotting _ _ _ _ Hwf Hlive Hst) as [HR HP].
  unfold PlotWS. rewrite (known_and_using_true _ _ _ _ Hlive). simpl.
  by rewrite HR, HP.
Qed.

Lemma pq_set_wouldMining_idemp (b : bool) (q : plotterQueue) :
  pq_set_wouldMining b (pq_set_wouldMining b q) = pq_set_wouldMining b q.
Proof. unfold pq_set_wouldMining. simpl. by destruct (popped q). Qed.

Lemma popped_is_set_wouldMining (b : bool) sk sid :
  popped_is (with_queue (pq_set_wouldMining b (queue sk)) sk) sid = popped_is sk sid.
Proof.
  unfold popped_is, pq_PoppedItem, pq_set_wouldMining. simpl.
  by destruct (popped (queue sk)).
Qed.

(** Off the registered slot a second Plot repeats the first: same state,
    same answer. *)
Lemma PlotWS_twice_not_registered sk sid sk1 (e : option error) :
  index_Get sk (OfState Registered) sid = None →
  PlotWS sid sk = Returns (sk1, e) →
  PlotWS sid sk1 = Returns (sk1, e).
Proof.
  intros HR. unfold PlotWS.
  destruct (known_and_using sk sid) as [ok| | |] eqn:Hk; simpl; try done.
  destruct ok; simpl.
  2:{ intros [= <- <-]. by rewrite Hk. }
  rewrite HR.
  destruct (index_Get sk (OfState Plotting) sid) as [lp|] eqn:HP.
  2:{ intros [= <- <-]. rewrite Hk. simpl. by rewrite HR, HP. }
  destruct (popped_is sk sid) as [same| | |] eqn:Hp; simpl; try done.
  destruct same; simpl.
  - intros [= <- <-].
    change (known_and_using (with_queue _ sk) sid) with (known_and_using sk sid).
    rewrite Hk. simpl.
    change (index_Get (with_queue _ sk) (OfState Registered) sid)
      with (index_Get sk (OfState Registered) sid).
    change (index_Get (with_queue _ sk) (OfState Plotting) sid)
      with (index_Get sk (OfState Plotting) sid).
    rewrite HR, HP, popped_is_set_wouldMining, Hp. simpl.
    unfold with_queue at 1. simpl. by rewrite pq_set_wouldMining_idemp.
  - intros [= <- <-]. rewrite Hk. simpl. by rewrite HR, HP, Hp.
Qed.

(** C6: on a registered WorkSpace in use every Plot sends one more job to
    [newQueuedWorkSpaceCh]: after two calls the channel holds two jobs for
    the sid and the state differs from the state after one call. *)
Theorem C6_plot_twice_registered_sends_twice sk (sid : string) (l lr : loc) (w : WorkSpace) :
  live_and_using sk sid l w →
  index_Get sk (OfState Registered) sid = Some lr →
  (length (newQueuedWorkSpaceCh sk) + 2 ≤ plotterMaxChanSize)%nat →
  let job := newQueuedWorkSpace lr false in
  let sk1 := with_chan (newQueuedWorkSpaceCh sk ++ [job]) sk in
  let sk2 := with_chan (newQueuedWorkSpaceCh sk ++ [job; job]) sk in
  PlotWS sid sk = Returns (sk1, None) ∧
  PlotWS sid sk1 = Returns (sk2, None) ∧
  sk2 ≠ sk1.
Proof.
  intros Hlive HR Hlen job sk1 sk2.
  pose proof (known_and_using_true _ _ _ _ Hlive) as Hk.
  split_and!.
  - unfold PlotWS. rewrite Hk. simpl. rewrite HR. unfold chan_send.
    case_decide; [done | lia].
  - unfold PlotWS.
    change (known_and_using sk1 sid) with (known_and_using sk sid).
    rewrite Hk. simpl.
    change (index_Get sk1 (OfState Registered) sid)
      with (index_Get sk (OfState Registered) sid).
    rewrite HR. unfold chan_send. simpl.
    case_decide as Hd.
    + unfold sk2, with_chan. simpl. by rewrite <- app_assoc.
    + rewrite length_app in Hd. simpl in Hd. lia.
  - intros Heq. apply (f_equal (λ s, length (newQueuedWorkSpaceCh s))) in Heq.
    simpl in Heq. rewrite !length_app in Heq. simpl in Heq. lia.
Qed.

(** ** Signing *)

(** C9: [SignHash] answers [ErrWorkSpaceDoesNotExist] exactly when the sid
    is not in the [allState] slot; for a sid that is there it returns what
    [wallet.SignMessage] returns for the public key of that WorkSpace,
    whatever the using flag of the WorkSpace and the started flag of the
    service are, and [IsLocked] is not consulted. *)
Theorem C9_SignHash_delegates sk (sid : string) (hash : list Byte.byte) :
  ((∃ sig, SignHash sid hash sk = Returns (sig, Some ErrWorkSpaceDoesNotExist)) ↔
     index_Get sk allState sid = None) ∧
  (∀ l w, index_Get sk allState sid = Some l → store sk !! l = Some w →
     SignHash sid hash sk =
       Returns ((SignMessage (wallet sk) (pubKey (ws_id w)) hash).1,
                foreign (SignMessage (wallet sk) (pubKey (ws_id w)) hash).2)) ∧
  (∀ b, SignHash sid hash (with_started b sk) = SignHash sid hash sk) ∧
  (∀ (l : loc) w b, store sk !! l = Some w →
     SignHash sid hash (with_store (<[l := set_using b w]> (store sk)) sk) =
     SignHash sid hash sk).
Proof.
  split_and!.
  - unfold SignHash. split.
    + intros [sig Hs]. destruct (index_Get sk allState sid) as [l|]; [| done].
      destruct (store sk !! l) as [w|]; simpl in Hs; [| done].
      destruct (SignMessage _ _ _) as [s [m|]]; simpl in Hs; by simplify_eq.
    + intros ->. by exists None.
  - intros l w Hl Hw. unfold SignHash. rewrite Hl, Hw. simpl.
    by destruct (SignMessage _ _ _).
  - done.
  - intros l w b Hw. unfold SignHash.
    change (index_Get (with_store _ sk) allState sid) with (index_Get sk allState sid).
    destruct (index_Get sk allState sid) as [l'|]; [| done].
    change (store (with_store ?v sk)) with v.
    destruct (decide (l = l')) as [<- | Hne].
    + rewrite list_lookup_insert_eq by (by eapply lookup_lt_Some).
      by rewrite Hw.
    + by rewrite list_lookup_insert_ne.
Qed.

(** ** Seeding *)

Lemma strSliceEqual_true (newDirs oldDirs : list string) :
  strSliceEqual newDirs oldDirs = true ↔
  length newDirs = length oldDirs ∧ ∀ dir, dir ∈ newDirs → dir ∈ oldDirs.
Proof.
  unfold strSliceEqual. case_decide as Hlen.
  - split; [done | intros [? _]; done].
  - rewrite forallb_forall. split.
    + intros Hall. split; [done |]. intros dir Hin.
      apply list_elem_of_In, Hall, bool_decide_eq_true in Hin. set_solver.
    + intros [_ Hall] dir Hin. apply bool_decide_eq_true.
      apply list_elem_of_In, Hall in Hin. set_solver.
Qed.

(** What [ResetDBDirs] answers once the directories are seeded and the
    service is stopped. *)
Lemma ResetDBDirs_seeded hook (newDirs : list string) sk :
  started sk = false → dbDirs sk ≠ [] →
  ResetDBDirs hook newDirs sk =
    Returns (sk, if strSliceEqual newDirs (dbDirs sk) then None
                 else Some ErrSpaceKeeperChangeDBDirs).
Proof.
  intros Hs Hd. unfold ResetDBDirs. rewrite Hs.
  case_decide as Hl.
  - destruct (dbDirs sk); [done | simpl in Hl; lia].
  - by destruct (strSliceEqual _ _).
Qed.

(** A permutation of the seeded directories is accepted. *)
Lemma ResetDBDirs_permutation hook (newDirs : list string) sk :
  started sk = false → dbDirs sk ≠ [] → newDirs ≡ₚ dbDirs sk →
  ResetDBDirs hook newDirs sk = Returns (sk, None).
Proof.
  intros Hs Hd Hp. rewrite ResetDBDirs_seeded by done.
  assert (strSliceEqual newDirs (dbDirs sk) = true) as ->; [| done].
  apply strSliceEqual_true. split; [by rewrite Hp |].
  intros dir. by rewrite Hp.
Qed.
(** ** Proof lookup *)

Lemma with_cache_same sk : with_cache (proofCache sk) sk = sk.
Proof. by destruct sk. Qed.

Lemma getWsByFlags_none (st : list WorkSpace) (ls : list loc) (flags : list WorkSpaceState) :
  Forall (λ l, ∃ w, st !! l = Some w ∧ ws_state w ∉ flags) ls →
  getWsByFlags st ls flags = Returns [].
Proof.
  induction 1 as [| l ls (w & Hw & Hs) _ IH]; [done |].
  simpl. rewrite Hw. simpl. rewrite IH. simpl. by case_decide.
Qed.

(** C7: on a started SpaceKeeper, when no WorkSpace of [workSpaceList] is
    in a state of the flags, [GetProofs] returns the empty list and a nil
    error and leaves the SpaceKeeper as it was; no job was handed to the
    pool and the counter of the wait group is 0 at [wg.Wait()], which so
    returns at once. *)
Theorem C7_GetProofs_empty_selection (be : PlotBackend) (flags : list WorkSpaceState)
    (challenge : Hash) sk :
  started sk = true →
  Forall (λ l, ∃ w, store sk !! l = Some w ∧ ws_state w ∉ flags) (workSpaceList sk) →
  GetProofs be flags challenge sk = Returns (sk, ([], None)) ∧
  fo_jobs (getProofs_at_wait ∅ challenge sk) = [] ∧
  fo_wg (getProofs_at_wait ∅ challenge sk) = 0 ∧
  waits_for_pool (getProofs_at_wait ∅ challenge sk) = false.
Proof.
  intros Hs Hsel. split_and!.
  - unfold GetProofs. rewrite Hs. simpl.
    rewrite (getWsByFlags_none _ _ _ Hsel). simpl.
    unfold getProofs, getProofs_at_wait. rewrite map_to_list_empty. simpl.
    by rewrite with_cache_same, map_to_list_empty.
  - unfold getProofs_at_wait. by rewrite map_to_list_empty.
  - unfold getProofs_at_wait. by rewrite map_to_list_empty.
  - unfold waits_for_pool, getProofs_at_wait. by rewrite map_to_list_empty.
Qed.

Lemma ccache_Get_miss (key : string) (c : CCache) :
  cache_find key (cache_entries c) = None → ccache_Get key c = (None, c).
Proof. unfold ccache_Get. by intros ->. Qed.

Lemma ccache_Get_after_Add (key : string) (v : WorkSpaceProof) (c : CCache) :
  (0 < cache_cap c)%nat →
  (ccache_Get key (ccache_Add key v c)).1 = Some v.
Proof.
  intros Hcap. unfold ccache_Get, ccache_Add. simpl.
  destruct (cache_cap c) as [| n]; [lia |]. simpl.
  by rewrite decide_True.
Qed.

(** A call of [getProof] that misses the cache. *)
Lemma getProof_miss (be : PlotBackend) (l : loc) (w : WorkSpace) (challenge : Hash) sk :
  store sk !! l = Some w →
  cache_find (cache_key (SpaceID_String (ws_id w)) challenge)
             (cache_entries (proofCache sk)) = None →
  let record := lookup_proof be l w challenge in
  getProof be l challenge sk =
    Returns (with_cache (ccache_Add (cache_key (SpaceID_String (ws_id w)) challenge)
                           record (proofCache sk)) sk, record).
Proof.
  intros Hw Hmiss record. unfold getProof. rewrite Hw. simpl.
  by rewrite (ccache_Get_miss _ _ Hmiss).
Qed.

(** A call of [getProof] that hits the cache does not ask the backend. *)
Lemma getProof_hit (be : PlotBackend) (l : loc) (w : WorkSpace) (challenge : Hash) sk
    (v : WorkSpaceProof) :
  store sk !! l = Some w →
  (ccache_Get (cache_key (SpaceID_String (ws_id w)) challenge) (proofCache sk)).1 = Some v →
  ∃ c, getProof be l challenge sk = Returns (with_cache c sk, v).
Proof.
  intros Hw Hhit. unfold getProof. rewrite Hw. simpl.
  destruct (ccache_Get _ _) as [[v'|] c]; simpl in Hhit; [| done].
  simplify_eq. by exists c.
Qed.

Lemma GetProof_known (be : PlotBackend) sk sid l w (challenge : Hash) :
  started sk = true → live_and_using sk sid l w →
  GetProof be sid challenge sk =
    let* (sk', r) := getProof be l challenge sk in Returns (sk', (Some r, None)).
Proof.
  intros Hs Hlive. unfold GetProof. rewrite Hs. simpl.
  rewrite (known_and_using_true _ _ _ _ Hlive). simpl.
  destruct Hlive as (-> & _). done.
Qed.

(** C8: on a started SpaceKeeper, for a known WorkSpace in use, when the
    lookup misses the cache and the backend fails with [msg], [GetProof]
    returns a nil error and a record whose [Error] is the backend error;
    the record is added to the cache under [sid ∥ challenge], by the same
    [Add] that stores the record of a successful lookup, and a second call
    for the same sid and challenge returns that record from the cache,
    whatever the backend would answer then. *)
Theorem C8_backend_error_is_embedded_and_cached (be : PlotBackend) sk (sid : string)
    (challenge : Hash) (l : loc) (w : WorkSpace) (p : option Proof) (msg : string) :
  started sk = true →
  live_and_using sk sid l w →
  (0 < cache_cap (proofCache sk))%nat →
  cache_find (cache_key (SpaceID_String (ws_id w)) challenge)
             (cache_entries (proofCache sk)) = None →
  db_GetProof be l challenge = (p, Some msg) →
  let key := cache_key (SpaceID_String (ws_id w)) challenge in
  let record := mkWorkSpaceProof (SpaceID_String (ws_id w)) p (pubKey (ws_id w))
                                 (ordinal (ws_id w)) (Some (ErrForeign msg)) in
  let sk1 := with_cache (ccache_Add key record (proofCache sk)) sk in
  GetProof be sid challenge sk = Returns (sk1, (Some record, None)) ∧
  (ccache_Get key (proofCache sk1)).1 = Some record ∧
  (∀ be' : PlotBackend, ∃ c,
     GetProof be' sid challenge sk1 = Returns (with_cache c sk1, (Some record, None))) ∧
  (∀ (be_ok : PlotBackend) (p' : option Proof),
     db_GetProof be_ok l challenge = (p', None) →
     let record' := mkWorkSpaceProof (SpaceID_String (ws_id w)) p' (pubKey (ws_id w))
                                     (ordinal (ws_id w)) None in
     GetProof be_ok sid challenge sk =
       Returns (with_cache (ccache_Add key record' (proofCache sk)) sk,
                (Some record', None))).
Proof.
  intros Hs Hlive Hcap Hmiss Hbe key record sk1.
  pose proof Hlive as (Hall & Hw & Hu).
  assert (Hrec : lookup_proof be l w challenge = record).
  { unfold lookup_proof. by rewrite Hbe. }
  assert (Hhit : (ccache_Get key (proofCache sk1)).1 = Some record).
  { by apply ccache_Get_after_Add. }
  split_and!.
  - rewrite (GetProof_known be sk sid l w) by done.
    rewrite (getProof_miss be l w) by done. simpl. by rewrite Hrec.
  - done.
  - intros be'.
    destruct (getProof_hit be' l w challenge sk1 record Hw Hhit) as [c Hc].
    exists c. rewrite (GetProof_known be' sk1 sid l w) by done.
    by rewrite Hc.
  - intros be_ok p' Hok record'.
    rewrite (GetProof_known be_ok sk sid l w) by done.
    rewrite (getProof_miss be_ok l w) by done. simpl.
    unfold lookup_proof. by rewrite Hok.
Qed.
(** ** The fill by size *)

Lemma wrap_id (z : Z) : in_int z → wrap z = z.
Proof.
  unfold in_int, wrap. intros Hz.
  rewrite Z.mod_small by lia. lia.
Qed.

Lemma allowedBL_descending : allowedBL = [28; 26; 24].
Proof. reflexivity. Qed.

(** One candidate of the fill, when the sizes fit. *)
Lemma fill_bucket_by_size_step (space : loc) (r : list loc) (bl : Z) (dst : list loc)
    (cur tgt : Z) :
  0 <= cur <= tgt → 0 <= BitLengthDiskSize bl → tgt + BitLengthDiskSize bl < 2 ^ 63 →
  fill_bucket_by_size (space :: r) bl dst cur tgt =
    if tgt <? cur + BitLengthDiskSize bl
    then fill_bucket_by_size r bl dst cur tgt
    else fill_bucket_by_size r bl (dst ++ [space]) (cur + BitLengthDiskSize bl) tgt.
Proof.
  intros Hc Hs Ht. simpl. unfold int_add, int_sub.
  rewrite (wrap_id (cur + _)) by (unfold in_int; lia).
  destruct (tgt <? cur + BitLengthDiskSize bl); [| done].
  rewrite wrap_id by (unfold in_int; lia).
  by replace (cur + BitLengthDiskSize bl - BitLengthDiskSize bl) with cur by lia.
Qed.

Lemma fill_bucket_by_size_greedy (spaces : list loc) (bl : Z) (dst : list loc) (cur tgt : Z) :
  0 <= cur <= tgt → 0 <= BitLengthDiskSize bl → tgt + BitLengthDiskSize bl < 2 ^ 63 →
  fill_bucket_by_size spaces bl dst cur tgt =
    greedy_bucket spaces (BitLengthDiskSize bl) dst cur tgt.
Proof.
  intros Hc Hs Ht. revert dst cur Hc.
  induction spaces as [| space r IH]; intros dst cur Hc; [done |].
  rewrite fill_bucket_by_size_step by done. simpl.
  destruct (tgt <? cur + BitLengthDiskSize bl) eqn:Hlt.
  - by apply IH.
  - apply IH. lia.
Qed.

(** What the greedy fill of one bucket adds: a sublist of the bucket, each
    member with its whole size, and never beyond the target. *)
Lemma greedy_bucket_picks (spaces : list loc) (size : Z) (dst : list loc) (cur tgt : Z) :
  0 <= size → cur <= tgt →
  ∃ picked,
    greedy_bucket spaces size dst cur tgt =
      (dst ++ picked, cur + size * Z.of_nat (length picked)) ∧
    sublist picked spaces ∧
    cur + size * Z.of_nat (length picked) <= tgt.
Proof.
  intros Hs. revert dst cur.
  induction spaces as [| space r IH]; intros dst cur Hc.
  - exists []. simpl. rewrite app_nil_r. split_and!; [f_equal; lia | done | lia].
  - simpl. destruct (tgt <? cur + size) eqn:Hlt.
    + destruct (IH dst cur Hc) as (picked & Heq & Hsub & Hle).
      exists picked. split_and!; [done | by apply sublist_cons | done].
    + destruct (IH (dst ++ [space]) (cur + size)) as (picked & Heq & Hsub & Hle); [lia |].
      exists (space :: picked). rewrite Heq. simpl length.
      split_and!.
      * rewrite <- app_assoc. simpl. f_equal. lia.
      * by apply sublist_skip.
      * lia.
Qed.

Lemma fill_buckets_by_size_greedy (bls : list Z) (srcMap : gmap Z (list loc))
    (dst : list loc) (cur tgt : Z) :
  0 <= cur <= tgt →
  Forall (λ bl, 0 <= BitLengthDiskSize bl ∧ tgt + BitLengthDiskSize bl < 2 ^ 63) bls →
  fill_buckets_by_size bls srcMap dst cur tgt = greedy_fill bls srcMap dst cur tgt.
Proof.
  intros Hc Hall. revert dst cur Hc.
  induction Hall as [| bl bls [Hs Ht] _ IH]; intros dst cur Hc; [done |].
  simpl. unfold bucket_of.
  destruct (srcMap !! bl) as [spaces|]; simpl.
  - rewrite fill_bucket_by_size_greedy by done.
    destruct (greedy_bucket_picks spaces (BitLengthDiskSize bl) dst cur tgt)
      as (picked & Heq & _ & Hle); [lia | lia |].
    rewrite Heq. apply IH. nia.
  - by apply IH.
Qed.
Lemma planner_enter_ok sk :
  started sk = false → configuring sk = 0 →
  planner_enter sk = inl (with_configured 0 (with_configuring 1 sk)).
Proof. unfold planner_enter. by intros -> ->. Qed.

(** The fill of the three buckets, when the sizes fit. *)
Lemma fillSpaceListBySize_picks (srcMap : gmap Z (list loc)) (dst : list loc) (cur tgt : Z) :
  sizes_fit cur tgt →
  ∃ (p28 p26 p24 : list loc) (fin : bool),
    let cur' := cur + BitLengthDiskSize 28 * Z.of_nat (length p28)
                    + BitLengthDiskSize 26 * Z.of_nat (length p26)
                    + BitLengthDiskSize 24 * Z.of_nat (length p24) in
    fillSpaceListBySize dst srcMap cur tgt = (dst ++ p28 ++ p26 ++ p24, cur', fin) ∧
    greedy_fill [28; 26; 24] srcMap dst cur tgt = (dst ++ p28 ++ p26 ++ p24, cur') ∧
    sublist p28 (bucket_of srcMap 28) ∧
    sublist p26 (bucket_of srcMap 26) ∧
    sublist p24 (bucket_of srcMap 24) ∧
    cur' <= tgt ∧
    (fin = true ↔ cur' = tgt ∨ tgt - cur' < MinDiskSize).
Proof.
  intros [Hc Hb].
  destruct (Hb 28) as [? ?]; [rewrite !elem_of_cons; auto |].
  destruct (Hb 26) as [? ?]; [rewrite !elem_of_cons; auto |].
  destruct (Hb 24) as [? ?]; [rewrite !elem_of_cons; auto |].
  destruct (greedy_bucket_picks (bucket_of srcMap 28) (BitLengthDiskSize 28) dst cur tgt)
    as (p28 & E28 & S28 & L28); [lia | lia |].
  destruct (greedy_bucket_picks (bucket_of srcMap 26) (BitLengthDiskSize 26) (dst ++ p28)
              (cur + BitLengthDiskSize 28 * Z.of_nat (length p28)) tgt)
    as (p26 & E26 & S26 & L26); [lia | lia |].
  destruct (greedy_bucket_picks (bucket_of srcMap 24) (BitLengthDiskSize 24)
              ((dst ++ p28) ++ p26)
              (cur + BitLengthDiskSize 28 * Z.of_nat (length p28)
                   + BitLengthDiskSize 26 * Z.of_nat (length p26)) tgt)
    as (p24 & E24 & S24 & L24); [lia | lia |].
  assert (Hg : greedy_fill [28; 26; 24] srcMap dst cur tgt =
               (dst ++ p28 ++ p26 ++ p24,
                cur + BitLengthDiskSize 28 * Z.of_nat (length p28)
                    + BitLengthDiskSize 26 * Z.of_nat (length p26)
                    + BitLengthDiskSize 24 * Z.of_nat (length p24))).
  { simpl. rewrite E28, E26, E24. by rewrite <- !app_assoc. }
  eexists p28, p26, p24, _. cbv zeta. split_and!; try done.
  - unfold fillSpaceListBySize. rewrite allowedBL_descending.
    rewrite fill_buckets_by_size_greedy; [| lia |].
    + rewrite Hg. reflexivity.
    + repeat constructor; lia.
  - unfold int_sub. rewrite wrap_id by (unfold in_int; nia).
    rewrite orb_true_iff, Z.eqb_eq, Z.ltb_lt. done.
Qed.

(** C4: past the guards of the planner, [ConfigureBySize] with a target
    below [BitLengthDiskSize[24]] returns [ErrConfigUnderSizeTarget]. Its
    fill takes the buckets in the order 28, 26, 24; when the sizes fit the
    [int] arithmetic it is the greedy fill of the specification: what it
    adds to the list is a sublist of bucket 28, then one of bucket 26, then
    one of bucket 24, each member counted with its whole size, the
    accumulated size stays at or below the target, and a candidate that
    would take it above the target is skipped with the accumulated size
    unchanged. The fill reports completion exactly when the accumulated
    size is the target or the deficit is below [MinDiskSize], and a
    completed fill is the selection of [ConfigureBySize]. *)
Theorem C4_ConfigureBySize_fill :
  (∀ (fuel : nat) (be : PlotBackend) (targetSize : Z) (password : string) sk,
     started sk = false → configuring sk = 0 →
     targetSize < BitLengthDiskSize 24 →
     ConfigureBySize fuel be targetSize password sk =
       Returns (with_configuring 0 (with_configured 0 (with_configuring 1 sk)),
                ([], Some ErrConfigUnderSizeTarget))) ∧
  allowedBL = [28; 26; 24] ∧
  (∀ (srcMap : gmap Z (list loc)) (dst : list loc) (cur tgt : Z),
     sizes_fit cur tgt →
     ∃ (p28 p26 p24 : list loc) (fin : bool),
       let cur' := cur + BitLengthDiskSize 28 * Z.of_nat (length p28)
                       + BitLengthDiskSize 26 * Z.of_nat (length p26)
                       + BitLengthDiskSize 24 * Z.of_nat (length p24) in
       fillSpaceListBySize dst srcMap cur tgt = (dst ++ p28 ++ p26 ++ p24, cur', fin) ∧
       greedy_fill [28; 26; 24] srcMap dst cur tgt = (dst ++ p28 ++ p26 ++ p24, cur') ∧
       sublist p28 (bucket_of srcMap 28) ∧
       sublist p26 (bucket_of srcMap 26) ∧
       sublist p24 (bucket_of srcMap 24) ∧
       cur' <= tgt ∧
       (fin = true ↔ cur' = tgt ∨ tgt - cur' < MinDiskSize)) ∧
  (∀ (space : loc) (r : list loc) (bl : Z) (dst : list loc) (cur tgt : Z),
     sizes_fit cur tgt → bl ∈ [28; 26; 24] →
     fill_bucket_by_size (space :: r) bl dst cur tgt =
       if tgt <? cur + BitLengthDiskSize bl
       then fill_bucket_by_size r bl dst cur tgt
       else fill_bucket_by_size r bl (dst ++ [space]) (cur + BitLengthDiskSize bl) tgt) ∧
  (∀ (fuel : nat) (be : PlotBackend) (tgt : Z) sk (srcMap : gmap Z (list loc))
      (resultList : list loc) (cur : Z),
     getIndexedWorkSpaces sk = Returns srcMap →
     fillSpaceListBySize [] srcMap 0 tgt = (resultList, cur, true) →
     select_BySize fuel be tgt sk = Returns (sk, inl resultList)).
Proof.
  split_and!.
  - intros fuel be targetSize password sk Hs Hc Hlt.
    unfold ConfigureBySize. rewrite planner_enter_ok by done. simpl.
    apply Z.ltb_lt in Hlt. by rewrite Hlt.
  - apply allowedBL_descending.
  - apply fillSpaceListBySize_picks.
  - intros space r bl dst cur tgt [Hc Hb] Hin.
    apply Hb in Hin as [? ?]. by apply fill_bucket_by_size_step.
  - intros fuel be tgt sk srcMap resultList cur Hsrc Hfill.
    unfold select_BySize. rewrite Hsrc. simpl. by rewrite Hfill.
Qed.
(** ** The planner and the empty selection *)

Lemma infos_of_length (st : list WorkSpace) (ls : list loc) (infos : list WorkSpace) :
  infos_of st ls = Returns infos → length infos = length ls.
Proof.
  revert infos. induction ls as [| l r IH]; intros infos; simpl.
  - by intros [= <-].
  - destruct (st !! l) as [w|]; simpl; [| done].
    destruct (infos_of st r) as [r'| | |]; simpl; try done.
    intros [= <-]. simpl. f_equal. by apply IH.
Qed.

(** The two closures that test [len(resultList) == 0] never hand out an
    empty list with a nil error. *)
Lemma successfullyReturn_ByBitLength_nonempty (resultList : list loc) (p m : bool) sk sk'
    (infos : list WorkSpace) :
  successfullyReturn_ByBitLength resultList p m sk = Returns (sk', (infos, None)) →
  infos ≠ [].
Proof.
  unfold successfullyReturn_ByBitLength, failureReturn.
  case_decide as Hlen; [done |].
  destruct (clear_using _ _) as [st| | |]; simpl; try done.
  destruct (requeue _ _ _) as [sk2| | |]; simpl; try done.
  destruct (infos_of _ _) as [ws| | |] eqn:Hi; simpl; try done.
  intros [= <- <-]. apply infos_of_length in Hi.
  intros ->. simpl in Hi. lia.
Qed.

Lemma successfullyReturn_BySize_nonempty (resultList : list loc) sk sk'
    (infos : list WorkSpace) :
  successfullyReturn_BySize resultList sk = Returns (sk', (infos, None)) →
  infos ≠ [].
Proof.
  unfold successfullyReturn_BySize, failureReturn.
  case_decide as Hlen; [done |].
  destruct (clear_using _ _) as [st| | |]; simpl; try done.
  destruct (requeue _ _ _) as [sk2| | |]; simpl; try done.
  destruct (infos_of _ _) as [ws| | |] eqn:Hi; simpl; try done.
  intros [= <- <-]. apply infos_of_length in Hi.
  intros ->. simpl in Hi. lia.
Qed.

Lemma ConfigureByBitLength_nonempty (fuel : nat) (be : PlotBackend) (BlCount : gmap Z Z)
    (p m : bool) sk sk' (infos : list WorkSpace) :
  ConfigureByBitLength fuel be BlCount p m sk = Returns (sk', (infos, None)) →
  infos ≠ [].
Proof.
  unfold ConfigureByBitLength.
  destruct (planner_enter sk) as [sk0 | err]; [| done].
  destruct (select_ByBitLength _ _ _ _) as [[sk1 [resultList | err]]| | |]; simpl; try done.
  destruct (successfullyReturn_ByBitLength _ _ _ _) as [[sk2 [infos' e]]| | |] eqn:Hs;
    simpl; try done.
  unfold planner_leave. simpl. intros [= <- <- ->].
  by eapply successfullyReturn_ByBitLength_nonempty.
Qed.

Lemma ConfigureBySize_nonempty (fuel : nat) (be : PlotBackend) (targetSize : Z)
    (password : string) sk sk' (infos : list WorkSpace) :
  ConfigureBySize fuel be targetSize password sk = Returns (sk', (infos, None)) →
  infos ≠ [].
Proof.
  unfold ConfigureBySize.
  destruct (planner_enter sk) as [sk0 | err]; [| done].
  simpl. destruct (targetSize <? _); [done |].
  destruct (Unlock _ _) as [w' [msg|]]; [done |].
  destruct (select_BySize _ _ _ _) as [[sk1 [resultList | err]]| | |]; simpl; try done.
  destruct (successfullyReturn_BySize _ _) as [[sk2 [infos' e]]| | |] eqn:Hs;
    simpl; try done.
  unfold planner_leave. simpl. intros [= <- <- ->].
  by eapply successfullyReturn_BySize_nonempty.
Qed.

Lemma ConfigureByFlags_error (flags : list WorkSpaceState) (p m : bool) sk sk'
    (infos : list WorkSpace) (e : option error) :
  ConfigureByFlags flags p m sk = Returns (sk', (infos, e)) →
  e = None ∨ e = Some ErrSpaceKeeperIsRunning ∨ e = Some ErrSpaceKeeperIsConfiguring.
Proof.
  unfold ConfigureByFlags, planner_enter.
  destruct (started sk); [intros [= <- <- <-]; auto |].
  destruct (negb _); [intros [= <- <- <-]; auto |].
  destruct (requeue _ _ _) as [sk2| | |]; simpl; try done.
  destruct (infos_of _ _) as [ws| | |]; simpl; try done.
  intros [= <- <- <-]. auto.
Qed.

Lemma getIndexedWorkSpaces_with_flags sk :
  getIndexedWorkSpaces (with_configured 0 (with_configuring 1 sk)) = getIndexedWorkSpaces sk.
Proof. done. Qed.

(** C3 (amended): past the guards of the planner, [ConfigureByBitLength]
    and [ConfigureBySize] return [ErrSpaceKeeperConfiguredNothing] when
    their selection is empty (in particular [ConfigureByBitLength] with an
    empty target), and never return an empty list with a nil error.
    [ConfigureByFlags] never returns that error: with an empty selection it
    returns the empty list, a nil error, and sets [configured]; so does
    [ConfigureByPubKey] for an empty target that passes the disk check. *)
Theorem C3_empty_selection (fuel : nat) (be : PlotBackend) (execPlot execMine : bool) sk :
  started sk = false → configuring sk = 0 →
  let sk0 := with_configured 0 (with_configuring 1 sk) in
  let idle := with_configuring 0
                (with_configured 1 (reset_unless (execMine || execPlot) (with_list [] sk0))) in
  (∀ (BlCount : gmap Z Z) sk1,
     select_ByBitLength fuel be BlCount sk0 = Returns (sk1, inl []) →
     ConfigureByBitLength fuel be BlCount execPlot execMine sk =
       Returns (with_configuring 0 sk1, ([], Some ErrSpaceKeeperConfiguredNothing))) ∧
  (∀ srcMap, getIndexedWorkSpaces sk = Returns srcMap →
     ConfigureByBitLength fuel be ∅ execPlot execMine sk =
       Returns (with_configuring 0 sk0, ([], Some ErrSpaceKeeperConfiguredNothing))) ∧
  (∀ (targetSize : Z) (password : string) w' sk1,
     BitLengthDiskSize 24 <= targetSize →
     Unlock (wallet sk) password = (w', None) →
     select_BySize fuel be targetSize (with_wallet w' sk0) = Returns (sk1, inl []) →
     ConfigureBySize fuel be targetSize password sk =
       Returns (with_configuring 0 sk1, ([], Some ErrSpaceKeeperConfiguredNothing))) ∧
  (∀ (BlCount : gmap Z Z) sk' infos,
     ConfigureByBitLength fuel be BlCount execPlot execMine sk = Returns (sk', (infos, None)) →
     infos ≠ []) ∧
  (∀ (targetSize : Z) (password : string) sk' infos,
     ConfigureBySize fuel be targetSize password sk = Returns (sk', (infos, None)) →
     infos ≠ []) ∧
  (∀ (flags : list WorkSpaceState), items_by_flags flags sk = [] →
     ConfigureByFlags flags execPlot execMine sk = Returns (idle, ([], None))) ∧
  (∀ (flags : list WorkSpaceState) sk' infos e,
     ConfigureByFlags flags execPlot execMine sk = Returns (sk', (infos, e)) →
     e ≠ Some ErrSpaceKeeperConfiguredNothing) ∧
  (∀ (PubKeyOrdinal : gmap PubKey Z),
     checkOSDiskSize be 0 sk = Returns None →
     ConfigureByPubKey be [] PubKeyOrdinal execPlot execMine sk = Returns (idle, ([], None))).
Proof.
  intros Hs Hc sk0 idle.
  pose proof (planner_enter_ok sk Hs Hc) as He.
  split_and!.
  - intros BlCount sk1 Hsel. unfold ConfigureByBitLength. rewrite He.
    fold sk0. by rewrite Hsel.
  - intros srcMap Hsrc. unfold ConfigureByBitLength. rewrite He. fold sk0.
    unfold select_ByBitLength. unfold sk0 at 1.
    rewrite getIndexedWorkSpaces_with_flags, Hsrc. simpl.
    unfold fillSpaceListByBitLength. by rewrite map_to_list_empty.
  - intros targetSize password w' sk1 Hge Hu Hsel.
    unfold ConfigureBySize. rewrite He. fold sk0. simpl.
    assert ((targetSize <? BitLengthDiskSize 24) = false) as -> by (apply Z.ltb_ge; lia).
    change (wallet sk0) with (wallet sk). rewrite Hu. by rewrite Hsel.
  - intros BlCount sk' infos. apply ConfigureByBitLength_nonempty.
  - intros targetSize password sk' infos. apply ConfigureBySize_nonempty.
  - intros flags Hi. unfold ConfigureByFlags. rewrite He. fold sk0.
    change (items_by_flags flags sk0) with (items_by_flags flags sk). rewrite Hi.
    simpl. by destruct (execMine || execPlot).
  - intros flags sk' infos e H.
    destruct (ConfigureByFlags_error _ _ _ _ _ _ _ H) as [-> | [-> | ->]]; done.
  - intros PubKeyOrdinal Hchk. unfold ConfigureByPubKey. rewrite He. fold sk0.
    unfold generateFillSpaceListByPubKey. simpl.
    change (checkOSDiskSize be 0 sk0) with (checkOSDiskSize be 0 sk). rewrite Hchk.
    simpl. unfold successfullyReturn_ByPubKey. simpl.
    by destruct (execMine || execPlot).
Qed.
(** ** The invariant of [workSpaceList] *)

Lemma sids_of_sid_of (st : list WorkSpace) (ls : list loc) :
  sids_of st ls = sid_of st <$> ls.
Proof. done. Qed.

Lemma sid_at_Returns (st : list WorkSpace) (l : loc) (s : string) :
  sid_at st l = Returns s ↔ sid_of st l = Some s.
Proof.
  unfold sid_at, sid_of. destruct (st !! l) as [w|]; simpl; [| done].
  split; by intros [= <-].
Qed.

Lemma list_has_sid_spec (st : list WorkSpace) (ls : list loc) (sid : string) (b : bool) :
  list_has_sid st ls sid = Returns b → (b = true ↔ Some sid ∈ sids_of st ls).
Proof.
  revert b. induction ls as [| l r IH]; intros b; simpl.
  - intros [= <-]. split; [done | by intros ?%not_elem_of_nil].
  - destruct (sid_at st l) as [s| | |] eqn:Hs; simpl; try done.
    apply sid_at_Returns in Hs. fold (sid_of st l). rewrite Hs.
    case_decide as Heq.
    + intros [= <-]. subst. split; [intros _; apply list_elem_of_here | done].
    + intros Hr. rewrite (IH b Hr). rewrite elem_of_cons.
      split; [by right | intros [[= ?] | ?]; done].
Qed.

(** With no sid twice in the list, [deleteFromSlice] removes exactly the
    entries of that sid. *)
Lemma deleteFromSlice_spec (st : list WorkSpace) (ls ls' : list loc) (sid : string) :
  deleteFromSlice st ls sid = Returns ls' →
  NoDup (sids_of st ls) →
  sublist ls' ls ∧ ∀ x, x ∈ ls' ↔ x ∈ ls ∧ sid_of st x ≠ Some sid.
Proof.
  revert ls'. induction ls as [| l r IH]; intros ls'; simpl.
  - intros [= <-] _. split; [done |]. intros x.
    split; [by intros ?%not_elem_of_nil | by intros [?%not_elem_of_nil _]].
  - destruct (sid_at st l) as [s| | |] eqn:Hs; simpl; try done.
    apply sid_at_Returns in Hs. fold (sid_of st l). rewrite Hs.
    intros Hd [Hnin Hnd]%NoDup_cons.
    case_decide as Heq.
    + injection Hd as <-. subst s. split; [by apply sublist_cons |].
      intros x. rewrite elem_of_cons. split.
      * intros Hx. split; [by right |]. intros Hsx. apply Hnin.
        rewrite sids_of_sid_of, <- Hsx. by apply list_elem_of_fmap_2.
      * intros [[-> | Hx] Hne]; [congruence | done].
    + destruct (deleteFromSlice st r sid) as [r'| | |] eqn:Hr; simpl in Hd; try done.
      injection Hd as <-. destruct (IH r' eq_refl Hnd) as [Hsub Hiff].
      split; [by apply sublist_skip |].
      intros x. rewrite !elem_of_cons, Hiff. split.
      * intros [-> | [? ?]]; [| by auto]. split; [by left |]. rewrite Hs. congruence.
      * intros [[-> | ?] ?]; auto.
Qed.

(** Writing a WorkSpace of the same identity does not change the sids. *)
Lemma sid_of_insert_same_id (st : list WorkSpace) (l : loc) (w w' : WorkSpace) (x : loc) :
  st !! l = Some w → ws_id w' = ws_id w →
  sid_of (<[l := w']> st) x = sid_of st x.
Proof.
  intros Hw Hid. unfold sid_of.
  destruct (decide (l = x)) as [<- | Hne].
  - rewrite list_lookup_insert_eq by (by eapply lookup_lt_Some).
    rewrite Hw. simpl. by rewrite Hid.
  - by rewrite list_lookup_insert_ne.
Qed.

Lemma sids_of_insert_same_id (st : list WorkSpace) (l : loc) (w w' : WorkSpace)
    (ls : list loc) :
  st !! l = Some w → ws_id w' = ws_id w →
  sids_of (<[l := w']> st) ls = sids_of st ls.
Proof.
  intros Hw Hid. rewrite !sids_of_sid_of. apply list_fmap_ext.
  intros _ x _. by eapply sid_of_insert_same_id.
Qed.

Lemma list_inv_same sk sk' :
  store sk' = store sk → workSpaceList sk' = workSpaceList sk →
  list_inv sk → list_inv sk'.
Proof.
  unfold list_inv, using_iff_listed, list_no_dup. by intros -> ->.
Qed.

Lemma list_inv_set_state sk (l : loc) (w : WorkSpace) (s : WorkSpaceState) sk' :
  store sk !! l = Some w →
  store sk' = <[l := set_state s w]> (store sk) →
  workSpaceList sk' = workSpaceList sk →
  list_inv sk → list_inv sk'.
Proof.
  intros Hw Hst Hls [Hu Hn]. unfold list_inv, using_iff_listed, list_no_dup.
  rewrite Hst, Hls. split.
  - intros x. rewrite (Hu x). destruct (decide (l = x)) as [<- | Hne].
    + rewrite list_lookup_insert_eq by (by eapply lookup_lt_Some). rewrite Hw.
      split; intros (w' & [= <-] & Hw'); eauto.
    + by rewrite list_lookup_insert_ne.
  - by rewrite (sids_of_insert_same_id _ l w).
Qed.

Lemma disuseWorkSpace_inv (l : loc) (w : WorkSpace) sk sk' :
  store sk !! l = Some w → ws_using w = true →
  disuseWorkSpace l sk = Returns sk' →
  list_inv sk → list_inv sk'.
Proof.
  intros Hw Hu. unfold disuseWorkSpace. rewrite Hw. simpl.
  destruct (deleteFromSlice _ _ _) as [lst| | |] eqn:Hd; simpl; [| done..].
  intros [= <-] [Hinv Hnd]. unfold list_no_dup in Hnd.
  assert (Hnd' : NoDup (sids_of (<[l := set_using false w]> (store sk)) (workSpaceList sk)))
    by (by rewrite (sids_of_insert_same_id _ l w)).
  destruct (deleteFromSlice_spec _ _ _ _ Hd Hnd') as [Hsub Hiff].
  assert (Hsl : sid_of (<[l := set_using false w]> (store sk)) l =
                Some (SpaceID_String (ws_id w))).
  { unfold sid_of. by rewrite list_lookup_insert_eq by (by eapply lookup_lt_Some). }
  split.
  - intros x. simpl. rewrite Hiff. destruct (decide (l = x)) as [<- | Hne].
    + rewrite list_lookup_insert_eq by (by eapply lookup_lt_Some).
      split; [by intros [_ ?] | by intros (w' & [= <-] & ?)].
    + rewrite list_lookup_insert_ne by done. rewrite (Hinv x). split; [by intros [? _] |].
      intros Hx. split; [done |]. intros Hsx.
      rewrite (sid_of_insert_same_id _ l w) in Hsx by done.
      assert (Hl : l ∈ workSpaceList sk) by (apply Hinv; eauto).
      apply Hinv in Hx.
      apply list_elem_of_lookup in Hl as [i Hi].
      apply list_elem_of_lookup in Hx as [j Hj].
      assert (i = j); [| by simplify_eq].
      eapply NoDup_lookup; [exact Hnd | |].
      * rewrite sids_of_sid_of, list_lookup_fmap, Hi. simpl. reflexivity.
      * rewrite sids_of_sid_of, list_lookup_fmap, Hj. simpl. rewrite Hsx.
        unfold sid_of. by rewrite Hw.
  - unfold list_no_dup. simpl. eapply sublist_NoDup; [exact Hnd' |].
    rewrite !sids_of_sid_of. by apply fmap_sublist.
Qed.
Lemma known_and_using_inv sk sid :
  known_and_using sk sid = Returns true → ∃ l w, live_and_using sk sid l w.
Proof.
  unfold known_and_using, live_and_using.
  destruct (index_Get sk allState sid) as [l|]; [| done].
  destruct (store sk !! l) as [w|] eqn:Hw; simpl; [| done].
  intros [= Hu]. by exists l, w.
Qed.

Lemma still_ws_live sk sid l la w :
  index_wf sk → live_and_using sk sid la w → still_ws sk sid = Some l → l = la.
Proof.
  intros Hwf (Hall & _ & _). unfold still_ws.
  destruct (index_Get sk (OfState Registered) sid) as [l'|] eqn:HR.
  - intros [= <-]. destruct (Hwf _ _ _ HR) as [Hall' _]. congruence.
  - intros HY. destruct (Hwf _ _ _ HY) as [Hall' _]. congruence.
Qed.

Lemma PlotWS_list_inv sid sk sk' e :
  list_inv sk → PlotWS sid sk = Returns (sk', e) → list_inv sk'.
Proof.
  intros Hinv. unfold PlotWS.
  destruct (known_and_using sk sid) as [[|]| | |]; simpl; try done.
  2:{ by intros [= <- <-]. }
  destruct (index_Get sk (OfState Registered) sid).
  { unfold chan_send. case_decide; simpl; [| done]. intros [= <- <-].
    by apply (list_inv_same sk). }
  destruct (index_Get sk (OfState Plotting) sid).
  2:{ by intros [= <- <-]. }
  destruct (popped_is sk sid) as [[|]| | |]; simpl; try done.
  - intros [= <- <-]. by apply (list_inv_same sk).
  - by intros [= <- <-].
Qed.

Lemma move_state_list_inv sid l from to sk sk' :
  list_inv sk → move_state sid l from to sk = Returns sk' → list_inv sk'.
Proof.
  intros Hinv. unfold move_state.
  destruct (store sk !! l) as [w|] eqn:Hw; simpl; [| done].
  intros [= <-]. by apply (list_inv_set_state sk l w to).
Qed.

Lemma MineWS_list_inv sid sk sk' e :
  list_inv sk → MineWS sid sk = Returns (sk', e) → list_inv sk'.
Proof.
  intros Hinv. unfold MineWS.
  destruct (known_and_using sk sid) as [[|]| | |]; simpl; try done.
  2:{ by intros [= <- <-]. }
  destruct (index_Get sk (OfState Registered) sid).
  { unfold chan_send. case_decide; simpl; [| done]. intros [= <- <-].
    by apply (list_inv_same sk). }
  destruct (index_Get sk (OfState Plotting) sid).
  { destruct (popped_is sk sid) as [[|]| | |]; simpl; try done.
    - intros [= <- <-]. by apply (list_inv_same sk).
    - by intros [= <- <-]. }
  destruct (index_Get sk (OfState Ready) sid) as [l|].
  2:{ by intros [= <- <-]. }
  destruct (move_state sid l Ready Mining sk) as [sk2| | |] eqn:Hm; simpl; try done.
  intros [= <- <-]. by eapply move_state_list_inv.
Qed.

Lemma StopWS_list_inv be sid sk sk' e :
  list_inv sk → StopWS be sid sk = Returns (sk', e) → list_inv sk'.
Proof.
  intros Hinv. unfold StopWS.
  destruct (known_and_using sk sid) as [[|]| | |]; simpl; try done.
  2:{ by intros [= <- <-]. }
  assert (Hinv1 : list_inv (with_queue (pq_Delete sid (queue sk)) sk))
    by (by apply (list_inv_same sk)).
  destruct (index_Get _ (OfState Plotting) sid).
  { destruct (popped_is _ sid) as [[|]| | |]; simpl; try done.
    - intros [= <- <-]. by apply (list_inv_same sk).
    - by intros [= <- <-]. }
  destruct (index_Get _ (OfState Mining) sid) as [l|].
  2:{ by intros [= <- <-]. }
  destruct (move_state sid l Mining Ready _) as [sk2| | |] eqn:Hm; simpl; try done.
  intros [= <- <-]. by eapply move_state_list_inv.
Qed.

Lemma RemoveWS_list_inv sid sk sk' e :
  index_wf sk → list_inv sk → RemoveWS sid sk = Returns (sk', e) → list_inv sk'.
Proof.
  intros Hwf Hinv. unfold RemoveWS.
  destruct (known_and_using sk sid) as [[|]| | |] eqn:Hk; simpl; try done.
  2:{ by intros [= <- <-]. }
  apply known_and_using_inv in Hk as (la & w & Hlive).
  assert (Hinv1 : list_inv (with_queue (pq_Delete sid (queue sk)) sk))
    by (by apply (list_inv_same sk)).
  destruct (still_ws _ sid) as [l|] eqn:Hst.
  2:{ by intros [= <- <-]. }
  assert (l = la) as -> by (by eapply (still_ws_live sk)).
  destruct (disuseWorkSpace la _) as [sk2| | |] eqn:Hd; simpl; try done.
  intros [= <- <-]. destruct Hlive as (_ & Hw & Hu).
  exact (disuseWorkSpace_inv la w (with_queue (pq_Delete sid (queue sk)) sk) _ Hw Hu Hd Hinv1).
Qed.

Lemma DeleteWS_list_inv be sid sk sk' e :
  index_wf sk → list_inv sk → DeleteWS be sid sk = Returns (sk', e) → list_inv sk'.
Proof.
  intros Hwf Hinv. unfold DeleteWS.
  destruct (known_and_using sk sid) as [[|]| | |] eqn:Hk; simpl; try done.
  2:{ by intros [= <- <-]. }
  apply known_and_using_inv in Hk as (la & w & Hlive).
  destruct (still_ws _ sid) as [l|] eqn:Hst.
  2:{ intros [= <- <-]. by apply (list_inv_same sk). }
  assert (l = la) as -> by (by eapply (still_ws_live sk)).
  destruct Hlive as (_ & Hw & Hu).
  change (store (with_queue (pq_Delete sid (queue sk)) sk)) with (store sk).
  rewrite Hw. simpl.
  destruct (disuseWorkSpace la _) as [sk2| | |] eqn:Hd; simpl; try done.
  intros [= <- <-].
  refine (disuseWorkSpace_inv la w
            (with_index _ (with_queue (pq_Delete sid (queue sk)) sk)) _ Hw Hu Hd _).
  by apply (list_inv_same sk).
Qed.

(** The five action verbs keep the invariant of [workSpaceList]: whenever
    one of them returns, the listed WorkSpaces are still exactly those with
    [using = true], and no sid is listed twice. *)
Lemma ActOnWorkSpace_list_inv be sid action sk sk' e :
  index_wf sk → list_inv sk →
  ActOnWorkSpace be sid action sk = Returns (sk', e) → list_inv sk'.
Proof.
  intros Hwf Hinv. unfold ActOnWorkSpace.
  destruct action; simpl.
  - by apply PlotWS_list_inv.
  - by apply MineWS_list_inv.
  - by apply StopWS_list_inv.
  - by apply RemoveWS_list_inv.
  - by apply DeleteWS_list_inv.
  - by intros [= <- <-].
Qed.
(** ** The invariant of [workSpaceList] and the planner *)

Lemma grows_refl sk : grows sk sk.
Proof. split; [done |]. exists []. by rewrite app_nil_r. Qed.

Lemma grows_trans sk1 sk2 sk3 : grows sk1 sk2 → grows sk2 sk3 → grows sk1 sk3.
Proof.
  intros [Hl1 (n1 & Hs1 & Hf1)] [Hl2 (n2 & Hs2 & Hf2)]. split; [congruence |].
  exists (n1 ++ n2). split; [by rewrite Hs2, Hs1, app_assoc | by apply Forall_app].
Qed.

Lemma grows_same sk sk1 :
  store sk1 = store sk → workSpaceList sk1 = workSpaceList sk → grows sk sk1.
Proof. intros Hs Hl. split; [done |]. exists []. by rewrite app_nil_r. Qed.

Lemma grows_list_inv sk sk1 : grows sk sk1 → list_inv sk → list_inv sk1.
Proof.
  intros [Hl (new & Hs & Hf)] [Hu Hn].
  assert (Hvalid : ∀ x, x ∈ workSpaceList sk → (store sk ++ new) !! x = store sk !! x).
  { intros x (w & Hw & _)%Hu. apply lookup_app_l. by eapply lookup_lt_Some. }
  split.
  - intros x. rewrite Hl, Hs, (Hu x). split.
    + intros (w & Hw & Huw). exists w. split; [| done]. by apply lookup_app_l_Some.
    + intros (w & Hw & Huw). apply lookup_app_Some in Hw as [Hw | [_ Hw]]; [eauto |].
      apply list_elem_of_lookup_2 in Hw. rewrite Forall_forall in Hf.
      apply Hf in Hw. congruence.
  - unfold list_no_dup. rewrite Hl, Hs.
    replace (sids_of (store sk ++ new) (workSpaceList sk))
      with (sids_of (store sk) (workSpaceList sk)); [done |].
    unfold sids_of. apply list_fmap_ext. intros i x Hx.
    apply list_elem_of_lookup_2 in Hx. by rewrite Hvalid.
Qed.

Lemma addWorkSpaceToIndex_grows l sk sk' :
  addWorkSpaceToIndex l sk = Returns sk' → grows sk sk'.
Proof.
  unfold addWorkSpaceToIndex. destruct (store sk !! l); simpl; [| done].
  destruct (index_Get _ _ _); intros [= <-]; by apply grows_same.
Qed.

Lemma NewWorkSpace_grows be ord pk bl sk sk' r :
  NewWorkSpace be ord pk bl sk = Returns (sk', r) → grows sk sk'.
Proof.
  unfold NewWorkSpace. destruct (dbDirs sk !! 0%nat); simpl; [| done].
  destruct (NewWorkSpace_err _ _ _ _ _ _); intros [= <- <-]; [by apply grows_same |].
  split; [done |]. eexists. split; [reflexivity |]. by repeat constructor.
Qed.

Lemma generateNewWorkSpace_grows be bl sk sk' r :
  generateNewWorkSpace be bl sk = Returns (sk', r) → grows sk sk'.
Proof.
  unfold generateNewWorkSpace. destruct (GenerateNewPublicKey _) as [w' [[pk ord] | msg]].
  - intros H%NewWorkSpace_grows. eapply grows_trans; [| exact H]. by apply grows_same.
  - intros [= <- <-]. by apply grows_same.
Qed.




Lemma generate_by_size_grows fuel be bl dst cur tgt sk sk' r :
  generate_by_size fuel be bl dst cur tgt sk = Returns (sk', r) → grows sk sk'.
Proof.
  revert dst cur sk. induction fuel as [| fuel IH]; intros dst cur sk; simpl.
  - destruct (_ <? _); [| done]. intros [= <- <-]. apply grows_refl.
  - destruct (_ <? _); [intros [= <- <-]; apply grows_refl |].
    destruct (generateNewWorkSpace be bl sk) as [[sk1 [newWS | err]]| | |] eqn:Hg;
      simpl; try done.
    + apply generateNewWorkSpace_grows in Hg.
      destruct (addWorkSpaceToIndex newWS sk1) as [sk2| | |] eqn:Ha; simpl; try done.
      apply addWorkSpaceToIndex_grows in Ha. intros H%IH.
      eauto using grows_trans.
    + intros [= <- <-]. by eapply generateNewWorkSpace_grows.
Qed.

Lemma generate_by_size_all_grows fuel be bls dst cur tgt sk sk' r :
  generate_by_size_all fuel be bls dst cur tgt sk = Returns (sk', r) → grows sk sk'.
Proof.
  revert dst cur sk. induction bls as [| bl rest IH]; intros dst cur sk; simpl.
  - intros [= <- <-]. apply grows_refl.
  - destruct (generate_by_size _ _ _ _ _ _ _) as [[sk1 [[dst' cur'] | err]]| | |] eqn:Hg;
      simpl; try done.
    + apply generate_by_size_grows in Hg. intros H%IH. eauto using grows_trans.
    + intros [= <- <-]. by eapply generate_by_size_grows.
Qed.

Lemma select_BySize_grows fuel be tgt sk sk' r :
  select_BySize fuel be tgt sk = Returns (sk', r) → grows sk sk'.
Proof.
  unfold select_BySize.
  destruct (getIndexedWorkSpaces sk) as [srcMap| | |]; simpl; try done.
  destruct (fillSpaceListBySize _ _ _ _) as [[resultList cur] [|]].
  - intros [= <- <-]. apply grows_refl.
  - unfold generateFillSpaceListBySize.
    destruct (negb _); [intros [= <- <-]; apply grows_refl |].
    destruct (checkOSDiskSize _ _ _) as [[err|]| | |]; simpl; try done.
    + intros [= <- <-]. apply grows_refl.
    + apply (generate_by_size_all_grows fuel be allowedBL).
Qed.
Lemma clear_using_spec (ls : list loc) (st st' : list WorkSpace) :
  clear_using ls st = Returns st' →
  ∀ x w', st' !! x = Some w' →
    (∃ w, st !! x = Some w ∧ w' = w ∧ x ∉ ls) ∨ ws_using w' = false.
Proof.
  revert st. induction ls as [| l r IH]; intros st; simpl.
  - intros [= <-] x w' Hx. left. exists w'. split_and!; [done | done | apply not_elem_of_nil].
  - destruct (st !! l) as [w|] eqn:Hw; simpl; [| done].
    intros Hc x w' Hx.
    destruct (IH _ Hc x w' Hx) as [(w1 & Hw1 & -> & Hnr) | Hf]; [| by right].
    destruct (decide (l = x)) as [<- | Hne].
    + rewrite list_lookup_insert_eq in Hw1 by (by eapply lookup_lt_Some).
      injection Hw1 as <-. by right.
    + rewrite list_lookup_insert_ne in Hw1 by done.
      left. exists w1. split_and!; [done | done |].
      rewrite not_elem_of_cons. by split.
Qed.

(** After the loop that clears the flags of the listed WorkSpaces and with
    an empty list, the invariant holds. *)
Lemma clear_using_list_inv sk sk' (st : list WorkSpace) :
  using_iff_listed sk →
  clear_using (workSpaceList sk) (store sk) = Returns st →
  store sk' = st → workSpaceList sk' = [] →
  list_inv sk'.
Proof.
  intros Hu Hc Hst Hls. split.
  - intros x. rewrite Hls, Hst. split; [by intros ?%not_elem_of_nil |].
    intros (w' & Hx & Huw).
    destruct (clear_using_spec _ _ _ Hc x w' Hx) as [(w & Hw & -> & Hn) | Hf];
      [| congruence].
    exfalso. apply Hn, Hu. eauto.
  - unfold list_no_dup. rewrite Hls. simpl. apply NoDup_nil_2.
Qed.

Lemma useWorkSpace_list_inv (l : loc) sk sk' :
  list_inv sk → useWorkSpace l sk = Returns sk' → list_inv sk'.
Proof.
  intros [Hu Hn]. unfold useWorkSpace.
  destruct (sid_at (store sk) l) as [sid| | |] eqn:Hs; simpl; try done.
  destruct (list_has_sid _ _ sid) as [found| | |] eqn:Hf; simpl; try done.
  destruct found; [by intros [= <-] |].
  apply list_has_sid_spec in Hf.
  apply sid_at_Returns in Hs. unfold sid_of in Hs.
  destruct (store sk !! l) as [w|] eqn:Hw; simpl in *; [| done].
  injection Hs as <-. intros [= <-]. split.
  - intros x. simpl. rewrite elem_of_app, list_elem_of_singleton, (Hu x).
    destruct (decide (l = x)) as [<- | Hne].
    + rewrite list_lookup_insert_eq by (by eapply lookup_lt_Some).
      split; [intros _ | by right]. by eexists.
    + rewrite list_lookup_insert_ne by done.
      split; [intros [? | ->]; done | by left].
  - unfold list_no_dup. simpl.
    rewrite (sids_of_insert_same_id _ l w) by done.
    unfold sids_of. rewrite fmap_app. simpl. rewrite Hw. simpl.
    apply NoDup_app. split_and!; [done | | apply NoDup_singleton].
    intros s Hin ->%list_elem_of_singleton.
    assert (false = true); [| done]. by apply Hf.
Qed.

Lemma drain_into_list_inv (qs : list queuedWorkSpace) sk sk' :
  list_inv sk → drain_into qs sk = Returns sk' → list_inv sk'.
Proof.
  revert sk. induction qs as [| qws r IH]; intros sk Hinv; simpl.
  - by intros [= <-].
  - destruct (queue_item _ _) as [it| | |]; simpl; try done.
    destruct (useWorkSpace _ _) as [sk1| | |] eqn:Hu; simpl; try done.
    apply IH. eapply useWorkSpace_list_inv; [| exact Hu]. by apply (list_inv_same sk).
Qed.

Lemma requeue_list_inv (wm : bool) (resultList : list loc) sk sk' :
  list_inv sk → requeue wm resultList sk = Returns sk' → list_inv sk'.
Proof.
  intros Hinv. unfold requeue.
  destruct (push_all _ _ _ _) as [q| | |]; simpl; try done.
  by apply drain_into_list_inv.
Qed.



Lemma successfullyReturn_BySize_list_inv resultList sk sk' r :
  list_inv sk →
  successfullyReturn_BySize resultList sk = Returns (sk', r) → list_inv sk'.
Proof.
  intros Hinv. unfold successfullyReturn_BySize, failureReturn.
  case_decide; [by intros [= <- <-] |].
  destruct (clear_using _ _) as [st| | |] eqn:Hc; simpl; try done.
  destruct (requeue _ _ _) as [sk2| | |] eqn:Hr; simpl; try done.
  destruct (infos_of _ _) as [ws| | |]; simpl; try done.
  intros [= <- <-].
  apply (list_inv_same sk2); [done | done |].
  eapply requeue_list_inv; [| exact Hr].
  by apply (clear_using_list_inv sk _ st (proj1 Hinv) Hc).
Qed.


(** [ConfigureBySize] keeps the invariant of [workSpaceList]. *)
Lemma ConfigureBySize_list_inv fuel be targetSize password sk sk' r :
  list_inv sk →
  ConfigureBySize fuel be targetSize password sk = Returns (sk', r) → list_inv sk'.
Proof.
  intros Hinv. unfold ConfigureBySize, planner_enter.
  destruct (started sk); [by intros [= <- <-] |].
  destruct (negb _); [by intros [= <- <-] |].
  simpl. destruct (_ <? _); [intros [= <- <-]; by apply (list_inv_same sk) |].
  destruct (Unlock _ _) as [w' [msg|]].
  { intros [= <- <-]. by apply (list_inv_same sk). }
  destruct (select_BySize _ _ _ _) as [[sk1 sel]| | |] eqn:Hsel; simpl; try done.
  assert (Hinv1 : list_inv sk1).
  { apply select_BySize_grows in Hsel. eapply grows_list_inv; [exact Hsel |].
    by apply (list_inv_same sk). }
  destruct sel as [resultList | err]; simpl.
  - destruct (successfullyReturn_BySize _ _) as [[sk2 r2]| | |] eqn:Hs; simpl; try done.
    intros [= <- <-]. apply (list_inv_same sk2); [done | done |].
    by eapply successfullyReturn_BySize_list_inv.
  - intros [= <- <-]. by apply (list_inv_same sk1).
Qed.
End Properties.

(** * The properties on the concrete instance *)

Section Examples.
#[local] Existing Instance demo_params.
#[local] Existing Instance demo_wallet.

Lemma demo_sk_lookup_all (sid : string) (l : loc) :
  index_Get demo_sk allState sid = Some l →
  (sid = demo_sidA ∧ l = 0%nat) ∨ (sid = demo_sidB ∧ l = 1%nat).
Proof.
  unfold index_Get. simpl. intros H.
  apply lookup_insert_Some in H as [[<- <-] | [_ H]]; [by left |].
  apply lookup_singleton_Some in H as [<- <-]. by right.
Qed.

Lemma demo_sk_live_A : live_and_using demo_sk demo_sidA 0%nat demo_wsA.
Proof. split_and!; [by vm_compute | done | done]. Qed.

Lemma demo_sk_unused_B : absent_or_unused demo_sk demo_sidB.
Proof. right. exists 1%nat, demo_wsB. split_and!; [by vm_compute | done | done]. Qed.

Lemma demo_mining_wf : index_wf demo_mining.
Proof.
  intros s sid l. unfold index_Get. destruct s; simpl; try by rewrite lookup_empty.
  intros [<- <-]%lookup_singleton_Some. split; [by vm_compute |].
  by exists demo_wsM.
Qed.

Lemma demo_mining_live : live_and_using demo_mining demo_sidM 0%nat demo_wsM.
Proof. split_and!; [by vm_compute | done | done]. Qed.

(** C2 on the concrete instance: B is indexed and not in use, and "Z-9-24"
    is not indexed. *)
Lemma C2_witness :
  absent_or_unused demo_sk demo_sidB ∧
  absent_or_unused demo_sk "Z-9-24" ∧
  DeleteWS demo_backend demo_sidB demo_sk = Returns (demo_sk, Some ErrWorkSpaceDoesNotExist) ∧
  PlotWS "Z-9-24" demo_sk = Returns (demo_sk, Some ErrWorkSpaceDoesNotExist).
Proof.
  assert (HB : absent_or_unused demo_sk demo_sidB) by exact demo_sk_unused_B.
  assert (HZ : absent_or_unused demo_sk "Z-9-24") by (left; vm_compute; reflexivity).
  split_and!; [exact HB | exact HZ | |].
  - exact (proj1 (proj2 (proj2 (proj2 (proj2
             (C2_verbs_reject_unknown_or_unused demo_backend demo_sk demo_sidB HB)))))).
  - exact (proj1 (C2_verbs_reject_unknown_or_unused demo_backend demo_sk "Z-9-24" HZ)).
Defined.

(** C10 on the concrete instance: the pending job of M is gone after the
    refused Remove. *)
Lemma C10_witness :
  RemoveWS demo_sidM demo_mining =
    Returns (with_queue (pq_Delete demo_sidM (queue demo_mining)) demo_mining,
             Some ErrWorkSpaceIsNotStill) ∧
  pending (pq_Delete demo_sidM (queue demo_mining)) = [] ∧
  pq_Delete demo_sidM (queue demo_mining) ≠ queue demo_mining.
Proof.
  pose proof (C10_remove_delete_not_still demo_backend demo_mining demo_sidM 0%nat demo_wsM
                demo_mining_wf demo_mining_live (or_intror eq_refl)) as H.
  cbv zeta in H. destruct H as (HR & _ & _ & Hq & _).
  split_and!; [exact HR | by vm_compute |].
  apply Hq. vm_compute. apply list_elem_of_here.
Defined.

(** C6 on the concrete instance: A is registered and in use. *)
Lemma C6_witness :
  ∃ sk1 sk2,
    PlotWS demo_sidA demo_sk = Returns (sk1, None) ∧
    PlotWS demo_sidA sk1 = Returns (sk2, None) ∧
    newQueuedWorkSpaceCh sk1 = [mkQueued 0%nat false] ∧
    newQueuedWorkSpaceCh sk2 = [mkQueued 0%nat false; mkQueued 0%nat false] ∧
    sk2 ≠ sk1.
Proof.
  assert (HR : index_Get demo_sk (OfState Registered) demo_sidA = Some 0%nat)
    by (vm_compute; reflexivity).
  assert (Hlen : (length (newQueuedWorkSpaceCh demo_sk) + 2 ≤ plotterMaxChanSize)%nat)
    by (vm_compute; lia).
  pose proof (C6_plot_twice_registered_sends_twice demo_sk demo_sidA 0%nat 0%nat demo_wsA
                demo_sk_live_A HR Hlen) as H.
  cbv zeta in H. destruct H as (H1 & H2 & H3).
  eexists _, _. split_and!; [exact H1 | exact H2 | reflexivity | reflexivity | exact H3].
Defined.

(** C7 on the concrete instance: no listed WorkSpace is plotting. *)
Lemma C7_witness :
  GetProofs demo_backend [Plotting] [] demo_started = Returns (demo_started, ([], None)).
Proof.
  refine (proj1 (C7_GetProofs_empty_selection demo_backend [Plotting] [] demo_started
                   eq_refl _)).
  repeat constructor. exists demo_wsA. split; [done |].
  simpl. rewrite list_elem_of_singleton. done.
Defined.

(** C8 on the concrete instance: the backend finds no proof for A. *)
Lemma C8_witness :
  ∃ sk1 record,
    GetProof demo_backend demo_sidA [] demo_started = Returns (sk1, (Some record, None)) ∧
    wp_Error record = Some (ErrForeign "miss") ∧
    ∃ c, GetProof demo_backend demo_sidA [] sk1 =
           Returns (with_cache c sk1, (Some record, None)).
Proof.
  assert (Hlive : live_and_using demo_started demo_sidA 0%nat demo_wsA)
    by (split_and!; [by vm_compute | done | done]).
  assert (Hcap : (0 < cache_cap (proofCache demo_started))%nat) by (vm_compute; lia).
  pose proof (C8_backend_error_is_embedded_and_cached demo_backend demo_started demo_sidA []
                0%nat demo_wsA None "miss" eq_refl Hlive Hcap eq_refl eq_refl) as H.
  cbv zeta in H. destruct H as (H1 & _ & H3 & _).
  eexists _, _. split_and!; [exact H1 | reflexivity | exact (H3 demo_backend)].
Defined.

(** C9 on the concrete instance: the wallet signs with the key of A. *)
Lemma C9_witness :
  SignHash demo_sidA [] demo_sk = Returns (Some "signed:A", None) ∧
  SignHash demo_sidB [] demo_started = Returns (Some "signed:B", None).
Proof.
  split.
  - refine (proj1 (proj2 (C9_SignHash_delegates demo_sk demo_sidA [])) 0%nat demo_wsA _ eq_refl).
    vm_compute. reflexivity.
  - refine (proj1 (proj2 (C9_SignHash_delegates demo_started demo_sidB [])) 1%nat demo_wsB
              _ eq_refl).
    vm_compute. reflexivity.
Defined.
Lemma demo_sk_using_iff_listed : using_iff_listed demo_sk.
Proof.
  intros l. simpl. rewrite list_elem_of_singleton.
  destruct l as [| [| l]]; simpl.
  - split; [by exists demo_wsA | done].
  - split; [done | by intros (w & [= <-] & ?)].
  - split; [done | by intros (w & [=] & ?)].
Qed.

Lemma demo_sk_list_no_dup : list_no_dup demo_sk.
Proof. unfold list_no_dup. simpl. apply NoDup_singleton. Qed.

(** C1: [demo_sk] satisfies the invariant ([using] exactly for the listed
    WorkSpaces, no sid twice in the list). [ConfigureByPubKey] for the key
    of B alone rebuilds [workSpaceList] as [B] and never clears the using
    flag of A: A stays indexed with [using = true] and is not in
    [workSpaceList], so the invariant no longer holds. [ConfigureByFlags]
    for the state of B does the same. *)
Theorem C1_planner_leaves_stale_using_flag :
  using_iff_listed demo_sk ∧ list_no_dup demo_sk ∧
  ConfigureByPubKey demo_backend [("B", 24)] {[ "B" := 1 ]} false false demo_sk =
    Returns (demo_after_pubKey, ([set_using true demo_wsB], None)) ∧
  ConfigureByFlags [Ready] false false demo_sk =
    Returns (with_configured 0 demo_after_pubKey, ([set_using true demo_wsB], None)) ∧
  index_Get demo_after_pubKey allState demo_sidA = Some 0%nat ∧
  store demo_after_pubKey !! 0%nat = Some demo_wsA ∧
  ws_using demo_wsA = true ∧
  (0%nat ∉ workSpaceList demo_after_pubKey) ∧
  ¬ using_iff_listed demo_after_pubKey ∧
  ¬ using_iff_listed (with_configured 0 demo_after_pubKey).
Proof.
  assert (Hall : index_Get demo_after_pubKey allState demo_sidA = Some 0%nat)
    by (vm_compute; reflexivity).
  assert (Hnot : 0%nat ∉ workSpaceList demo_after_pubKey)
    by (simpl; by intros [=]%list_elem_of_singleton).
  split_and!.
  - exact demo_sk_using_iff_listed.
  - exact demo_sk_list_no_dup.
  - vm_compute. reflexivity.
  - vm_compute. reflexivity.
  - exact Hall.
  - reflexivity.
  - reflexivity.
  - exact Hnot.
  - intros Hinv. apply Hnot, Hinv. by exists demo_wsA.
  - intros Hinv. apply Hnot, Hinv. by exists demo_wsA.
Qed.

(** The sibling planner [ConfigureByBitLength] clears the flag of the
    WorkSpace it drops: asked for one plot of bit length 26 it generates
    one, and A is left with [using = false]. *)
Lemma ConfigureByBitLength_clears_using :
  match ConfigureByBitLength 10 demo_backend {[ 26 := 1 ]} false false demo_sk with
  | Returns (sk', (_, err)) =>
      err = None ∧ workSpaceList sk' = [2%nat] ∧
      store sk' !! 0%nat = Some (set_using false demo_wsA) ∧
      (ws_using <$> store sk' !! 2%nat) = Some true
  | _ => False
  end.
Proof. vm_compute. by split_and!. Qed.

(** C5: the directories are seeded with /data/a and /data/b and the
    service is stopped; [ResetDBDirs] with /data/a twice returns nil,
    although the new list is no permutation of the seeded one (it has no
    /data/b). *)
Theorem C5_ResetDBDirs_accepts_repeated_directory
    (hook : SpaceKeeper nat → outcome (SpaceKeeper nat * option error)) :
  started demo_sk = false ∧
  dbDirs demo_sk = ["/data/a"; "/data/b"] ∧
  ResetDBDirs hook ["/data/a"; "/data/a"] demo_sk = Returns (demo_sk, None) ∧
  ¬ (["/data/a"; "/data/a"] ≡ₚ dbDirs demo_sk) ∧
  "/data/b" ∉ ["/data/a"; "/data/a"].
Proof.
  assert (Hb : "/data/b" ∉ ["/data/a"; "/data/a"]).
  { intros H. repeat (apply elem_of_cons in H as [[=] | H]). by apply elem_of_nil in H. }
  split_and!; [done | done | by vm_compute | | exact Hb].
  intros Hp. apply Hb. rewrite Hp. simpl. apply list_elem_of_further, list_elem_of_here.
Qed.

(** C3, the claim as it stands, fails for [ConfigureByFlags]: no indexed
    WorkSpace of [demo_sk] is plotting, the selection is empty, and the call
    returns the empty list with a nil error and [configured] set. *)
Lemma C3_counterexample_ConfigureByFlags :
  items_by_flags [Plotting] demo_sk = [] ∧
  ConfigureByFlags [Plotting] false false demo_sk =
    Returns (with_list [] demo_sk, ([], None)) ∧
  configured (with_list [] demo_sk) = 1 ∧
  ConfigureByFlags [Plotting] false false demo_sk ≠
    Returns (with_list [] demo_sk, ([], Some ErrSpaceKeeperConfiguredNothing)).
Proof.
  assert (H : ConfigureByFlags [Plotting] false false demo_sk =
              Returns (with_list [] demo_sk, ([], None))) by (vm_compute; reflexivity).
  split_and!; [by vm_compute | exact H | done |].
  rewrite H. discriminate.
Qed.

(** C3 on the concrete instance: an empty target by bit length is refused,
    an empty selection by flags is not. *)
Lemma C3_witness :
  ConfigureByBitLength 0 demo_backend ∅ false false demo_sk =
    Returns (with_configuring 0 (with_configured 0 (with_configuring 1 demo_sk)),
             ([], Some ErrSpaceKeeperConfiguredNothing)) ∧
  ConfigureByFlags [Plotting] false false demo_sk =
    Returns (with_configuring 0
               (with_configured 1
                  (reset_unless (false || false)
                     (with_list [] (with_configured 0 (with_configuring 1 demo_sk))))),
             ([], None)).
Proof.
  pose proof (C3_empty_selection 0 demo_backend false false demo_sk eq_refl eq_refl) as H.
  cbv zeta in H. destruct H as (_ & H2 & _ & _ & _ & H6 & _).
  split.
  - apply (H2 {[ 24 := [0%nat; 1%nat] ]}). vm_compute. reflexivity.
  - apply H6. vm_compute. reflexivity.
Defined.

Lemma demo_sizes_fit : sizes_fit 0 (2 ^ 27).
Proof.
  split; [lia |]. intros bl Hin.
  repeat (apply elem_of_cons in Hin as [-> | Hin]); [| | | by apply elem_of_nil in Hin];
    vm_compute; split; congruence.
Qed.

(** C4 on the concrete instance: a target of 5 bytes is under the size of
    a plot of bit length 24; a target of one such plot is filled from the
    bucket of A and B with the first of them. *)
Lemma C4_witness :
  ConfigureBySize 0 demo_backend 5 "pw" demo_sk =
    Returns (with_configuring 0 (with_configured 0 (with_configuring 1 demo_sk)),
             ([], Some ErrConfigUnderSizeTarget)) ∧
  ∃ (p28 p26 p24 : list loc) (fin : bool),
    fillSpaceListBySize [] {[ 24 := [0%nat; 1%nat] ]} 0 (2 ^ 27) =
      ([] ++ p28 ++ p26 ++ p24,
       0 + BitLengthDiskSize 28 * Z.of_nat (length p28)
         + BitLengthDiskSize 26 * Z.of_nat (length p26)
         + BitLengthDiskSize 24 * Z.of_nat (length p24), fin) ∧
    sublist p24 [0%nat; 1%nat].
Proof.
  destruct C4_ConfigureBySize_fill as (H1 & _ & H3 & _).
  split.
  - apply H1; [reflexivity | reflexivity | by vm_compute].
  - destruct (H3 {[ 24 := [0%nat; 1%nat] ]} [] 0 (2 ^ 27) demo_sizes_fit)
      as (p28 & p26 & p24 & fin & Hf & _ & _ & _ & S24 & _).
    exists p28, p26, p24, fin. split; [exact Hf | exact S24].
Defined.
End Examples.

(** * More properties of the code *)

Section IndexInvariant.
Context {W : Type} {wallet_ops : PoCWallet W} {params : PoCParams}.
Implicit Type sk : SpaceKeeper W.

Lemma index_at_upd (ix : WorkSpaceIndex) (b b' : bucket)
    (f : gmap string loc → gmap string loc) :
  index_at (index_upd ix b f) b' =
    if decide (b = b') then f (index_at ix b) else index_at ix b'.
Proof.
  destruct b as [[]|], b' as [[]|]; reflexivity.
Qed.

Lemma same_id_state_refl (st : list WorkSpace) : same_id_state st st.
Proof. done. Qed.

Lemma same_id_state_trans (st1 st2 st3 : list WorkSpace) :
  same_id_state st1 st2 → same_id_state st2 st3 → same_id_state st1 st3.
Proof. intros H1 H2 x. by rewrite H2, H1. Qed.

Lemma same_id_state_set_using (st : list WorkSpace) (l : loc) (w : WorkSpace) (b : bool) :
  st !! l = Some w → same_id_state st (<[l := set_using b w]> st).
Proof.
  intros Hw x. destruct (decide (l = x)) as [<- | Hne].
  - rewrite list_lookup_insert_eq by (by eapply lookup_lt_Some). by rewrite Hw.
  - by rewrite list_lookup_insert_ne.
Qed.

Lemma same_id_state_lookup (st st' : list WorkSpace) (x : loc) (w : WorkSpace) :
  same_id_state st st' → st !! x = Some w →
  ∃ w', st' !! x = Some w' ∧ ws_id w' = ws_id w ∧ ws_state w' = ws_state w.
Proof.
  intros H Hw. specialize (H x). rewrite Hw in H.
  destruct (st' !! x) as [w'|]; simpl in H; [| done].
  injection H as Hi Hs. by exists w'.
Qed.

Lemma same_id_state_sid_of (st st' : list WorkSpace) (x : loc) :
  same_id_state st st' → sid_of st' x = sid_of st x.
Proof.
  intros H. specialize (H x). unfold sid_of.
  destruct (st' !! x) as [w'|], (st !! x) as [w|]; simpl in *; try done.
  injection H as Hi Hs. by rewrite Hi.
Qed.

(** The invariant of the indexes only reads identities and states. *)
Lemma index_inv_same_id_state sk sk' :
  workSpaceIndex sk' = workSpaceIndex sk → same_id_state (store sk) (store sk') →
  index_inv sk → index_inv sk'.
Proof.
  intros Hix Hst (Hwf & Hco & Hk).
  assert (HG : ∀ b sid, index_Get sk' b sid = index_Get sk b sid)
    by (intros; unfold index_Get; by rewrite Hix).
  split_and!.
  - intros s sid l. rewrite !HG. intros (Hall & w & Hw & Hs)%Hwf. split; [done |].
    destruct (same_id_state_lookup _ _ _ _ Hst Hw) as (w' & Hw' & _ & Hs').
    exists w'. split; [done | congruence].
  - intros sid l. rewrite HG. intros (w & Hw & Hb)%Hco.
    destruct (same_id_state_lookup _ _ _ _ Hst Hw) as (w' & Hw' & _ & Hs').
    exists w'. split; [done |]. by rewrite HG, Hs'.
  - intros b sid l. rewrite HG. intros H%Hk. by rewrite (same_id_state_sid_of _ _ _ Hst).
Qed.

(** Under the invariant a sid is in the slot of one state only. *)
Lemma index_inv_one_slot sk (s s' : WorkSpaceState) (sid : string) (l l' : loc) :
  index_wf sk →
  index_Get sk (OfState s) sid = Some l → index_Get sk (OfState s') sid = Some l' →
  s = s' ∧ l = l'.
Proof.
  intros Hwf (Ha & w & Hw & Hs)%Hwf (Ha' & w' & Hw' & Hs')%Hwf.
  rewrite Ha in Ha'. injection Ha' as <-. rewrite Hw in Hw'. injection Hw' as <-.
  split; congruence.
Qed.

Lemma move_state_Returns (sid : string) (l : loc) (from to : WorkSpaceState) sk sk' :
  move_state sid l from to sk = Returns sk' →
  ∃ w, store sk !! l = Some w ∧
       sk' = with_store (<[l := set_state to w]> (store sk))
               (with_index
                  (index_upd (index_upd (workSpaceIndex sk) (OfState from) (delete sid))
                     (OfState to) (insert sid l)) sk).
Proof.
  unfold move_state. destruct (store sk !! l) as [w|]; [| done].
  intros H. exists w. split; [done |]. by injection H as <-.
Qed.

Lemma move_state_lookup (sid : string) (l : loc) (from to : WorkSpaceState) sk sk'
    (b : bucket) (sid' : string) :
  from ≠ to → move_state sid l from to sk = Returns sk' →
  index_Get sk' b sid' =
    if decide (b = OfState to) then
      (if decide (sid = sid') then Some l else index_Get sk b sid')
    else if decide (b = OfState from) then
      (if decide (sid = sid') then None else index_Get sk b sid')
    else index_Get sk b sid'.
Proof.
  intros Hne (w & _ & ->)%move_state_Returns.
  unfold index_Get.
  change (workSpaceIndex (with_store _ (with_index ?ix _))) with ix.
  rewrite !index_at_upd.
  destruct (decide (b = OfState to)) as [-> | Hb].
  - rewrite (decide_True (P := OfState to = OfState to)) by done.
    rewrite (decide_False (P := OfState from = OfState to)) by congruence.
    rewrite lookup_insert. by case_decide.
  - rewrite (decide_False (P := OfState to = b)) by congruence.
    destruct (decide (b = OfState from)) as [-> | Hb'].
    + rewrite (decide_True (P := OfState from = OfState from)) by done.
      rewrite lookup_delete. by case_decide.
    + by rewrite (decide_False (P := OfState from = b)) by congruence.
Qed.

Lemma move_state_store (sid : string) (l : loc) (from to : WorkSpaceState) sk sk' :
  move_state sid l from to sk = Returns sk' →
  ∃ w, store sk !! l = Some w ∧ store sk' = <[l := set_state to w]> (store sk) ∧
       workSpaceList sk' = workSpaceList sk ∧ queue sk' = queue sk.
Proof.
  unfold move_state. destruct (store sk !! l) as [w|]; simpl; [| done].
  intros [= <-]. by exists w.
Qed.

(** Moving an indexed WorkSpace to another state keeps the invariant. *)
Lemma move_state_index_inv (sid : string) (l : loc) (from to : WorkSpaceState) sk sk' :
  index_inv sk → index_Get sk (OfState from) sid = Some l → from ≠ to →
  move_state sid l from to sk = Returns sk' → index_inv sk'.
Proof.
  intros (Hwf & Hco & Hk) Hfrom Hne Hm.
  destruct (Hwf _ _ _ Hfrom) as (Hall & w & Hw & Hs).
  pose proof (Hk _ _ _ Hfrom) as Hsid.
  destruct (move_state_store _ _ _ _ _ _ Hm) as (w0 & Hw0 & Hst & _).
  rewrite Hw in Hw0. injection Hw0 as <-.
  assert (HL : ∀ b sid', index_Get sk' b sid' = _) by (intros; by eapply move_state_lookup).
  assert (Hsl : ∀ x, store sk' !! x =
                     if decide (l = x) then Some (set_state to w) else store sk !! x).
  { intros x. rewrite Hst. case_decide as Hx.
    - subst x. by rewrite list_lookup_insert_eq by (by eapply lookup_lt_Some).
    - by rewrite list_lookup_insert_ne. }
  assert (Hso : ∀ x, sid_of (store sk') x = sid_of (store sk) x).
  { intros x. unfold sid_of. rewrite Hsl. case_decide; [subst x; by rewrite Hw | done]. }
  assert (Hall' : ∀ sid', index_Get sk' allState sid' = index_Get sk allState sid').
  { intros sid'. rewrite HL. by rewrite !decide_False by done. }
  split_and!.
  - intros s sid' l'. rewrite HL, Hall', Hsl.
    destruct (decide (OfState s = OfState to)) as [[= ->] | Hto].
    + destruct (decide (sid = sid')) as [<- | Hsid'].
      * intros [= <-]. split; [done |]. rewrite decide_True by done. by eexists.
      * intros (Ha & w' & Hw' & Hs')%Hwf. split; [done |].
        rewrite decide_False; [by eexists |]. intros <-. congruence.
    + destruct (decide (OfState s = OfState from)) as [[= ->] | Hfr].
      * destruct (decide (sid = sid')) as [<- | Hsid']; [done |].
        intros H. pose proof (Hk _ _ _ H) as Hk'.
        apply Hwf in H as (Ha & w' & Hw' & Hs'). split; [done |].
        rewrite decide_False; [by eexists |]. intros <-. congruence.
      * intros (Ha & w' & Hw' & Hs')%Hwf. split; [done |].
        rewrite decide_False; [by eexists |]. intros <-. congruence.
  - intros sid' l'. rewrite Hall', Hsl. intros Ha.
    destruct (decide (l = l')) as [<- | Hl].
    + pose proof (Hk _ _ _ Ha) as Hk'. rewrite Hsid in Hk'. injection Hk' as <-.
      eexists. split; [done |]. simpl. rewrite HL.
      by rewrite !decide_True by done.
    + destruct (Hco _ _ Ha) as (w' & Hw' & Hb). exists w'. split; [done |].
      assert (sid ≠ sid') by (intros <-; congruence).
      rewrite HL. repeat case_decide; done.
  - intros b sid' l'. rewrite HL, Hso. repeat case_decide; try done.
    + intros [= <-]. by subst.
    + apply Hk.
    + apply Hk.
    + apply Hk.
Qed.
Lemma index_inv_same sk sk' :
  workSpaceIndex sk' = workSpaceIndex sk → store sk' = store sk →
  index_inv sk → index_inv sk'.
Proof.
  intros Hix Hst. apply index_inv_same_id_state; [done |]. rewrite Hst.
  apply same_id_state_refl.
Qed.

Lemma disuseWorkSpace_Returns (l : loc) sk sk' :
  disuseWorkSpace l sk = Returns sk' →
  ∃ w lst, store sk !! l = Some w ∧
    sk' = with_list lst (with_store (<[l := set_using false w]> (store sk)) sk).
Proof.
  unfold disuseWorkSpace. destruct (store sk !! l) as [w|]; [| done].
  cbn [obind must]. destruct (deleteFromSlice _ _ _) as [lst| | |]; [| done..].
  intros H. exists w, lst. split; [done |]. by injection H as <-.
Qed.

Lemma disuseWorkSpace_index_inv (l : loc) sk sk' :
  index_inv sk → disuseWorkSpace l sk = Returns sk' → index_inv sk'.
Proof.
  intros Hinv (w & lst & Hw & ->)%disuseWorkSpace_Returns.
  apply (index_inv_same_id_state sk); [done | | done].
  by apply same_id_state_set_using.
Qed.

(** Taking a sid out of the slot of its state and out of [allState] keeps
    the invariant. *)
Lemma unindex_index_inv (sid : string) (l : loc) (s : WorkSpaceState) sk :
  index_inv sk → index_Get sk (OfState s) sid = Some l →
  index_inv (with_index
               (index_upd (index_upd (workSpaceIndex sk) (OfState s) (delete sid))
                  allState (delete sid)) sk).
Proof.
  intros (Hwf & Hco & Hk) Hs.
  set (sk' := with_index _ sk).
  assert (HL : ∀ b sid', index_Get sk' b sid' =
                 if decide (b = allState ∨ b = OfState s) then
                   (if decide (sid = sid') then None else index_Get sk b sid')
                 else index_Get sk b sid').
  { intros b sid'. unfold index_Get, sk'.
    change (workSpaceIndex (with_index ?ix _)) with ix. rewrite !index_at_upd.
    destruct (decide (b = allState)) as [-> | Hb].
    - rewrite (decide_True (P := allState = allState)) by done.
      rewrite (decide_False (P := OfState s = allState)) by done.
      rewrite decide_True by auto. rewrite lookup_delete. by case_decide.
    - rewrite (decide_False (P := allState = b)) by congruence.
      destruct (decide (b = OfState s)) as [-> | Hb'].
      + rewrite (decide_True (P := OfState s = OfState s)) by done.
        rewrite decide_True by auto. rewrite lookup_delete. by case_decide.
      + rewrite (decide_False (P := OfState s = b)) by congruence.
        rewrite decide_False; [done |]. by intros [? | ?]. }
  assert (Hold : ∀ b sid' l', index_Get sk' b sid' = Some l' →
                   index_Get sk b sid' = Some l').
  { intros b sid' l'. rewrite HL. by repeat case_decide. }
  assert (Hne : ∀ b sid' l', index_Get sk' b sid' = Some l' → sid ≠ sid').
  { intros b sid' l' Hb <-. pose proof (Hold _ _ _ Hb) as Hb'.
    rewrite HL in Hb. case_decide as Hd; [by rewrite decide_True in Hb |].
    destruct b as [s0 |]; [| by destruct Hd; left].
    destruct (index_inv_one_slot sk s0 s sid l' l Hwf Hb' Hs) as [-> _].
    destruct Hd. by right. }
  split_and!.
  - intros s0 sid' l' Hb. pose proof (Hne _ _ _ Hb) as Hn.
    apply Hold, Hwf in Hb as (Ha & Hw). split; [| done].
    rewrite HL. rewrite decide_True by auto. by rewrite decide_False.
  - intros sid' l' Ha. pose proof (Hne _ _ _ Ha) as Hn.
    apply Hold, Hco in Ha as (w & Hw & Hb). exists w. split; [done |].
    rewrite HL. case_decide; [by rewrite decide_False | done].
  - intros b sid' l' Hb. by apply Hold, Hk in Hb.
Qed.

Lemma known_live sk sid :
  known_and_using sk sid = Returns true → ∃ l w, live_and_using sk sid l w.
Proof.
  unfold known_and_using, live_and_using.
  destruct (index_Get sk allState sid) as [l|]; [| done].
  destruct (store sk !! l) as [w|] eqn:Hw; simpl; [| done].
  intros [= Hu]. by exists l, w.
Qed.

Lemma PlotWS_frame sid sk sk' e :
  PlotWS sid sk = Returns (sk', e) →
  workSpaceIndex sk' = workSpaceIndex sk ∧ store sk' = store sk ∧
  workSpaceList sk' = workSpaceList sk.
Proof.
  unfold PlotWS.
  destruct (known_and_using sk sid) as [[|]| | |]; simpl; try done.
  2:{ by intros [= <- <-]. }
  destruct (index_Get sk (OfState Registered) sid).
  { unfold chan_send. case_decide; simpl; [| done]. by intros [= <- <-]. }
  destruct (index_Get sk (OfState Plotting) sid).
  2:{ by intros [= <- <-]. }
  destruct (popped_is sk sid) as [[|]| | |]; simpl; try done; by intros [= <- <-].
Qed.

Lemma MineWS_index_inv sid sk sk' e :
  index_inv sk → MineWS sid sk = Returns (sk', e) → index_inv sk'.
Proof.
  intros Hinv. unfold MineWS.
  destruct (known_and_using sk sid) as [[|]| | |]; simpl; try done.
  2:{ by intros [= <- <-]. }
  destruct (index_Get sk (OfState Registered) sid).
  { unfold chan_send. case_decide; simpl; [| done]. intros [= <- <-].
    by apply (index_inv_same sk). }
  destruct (index_Get sk (OfState Plotting) sid).
  { destruct (popped_is sk sid) as [[|]| | |]; simpl; try done.
    - intros [= <- <-]. by apply (index_inv_same sk).
    - by intros [= <- <-]. }
  destruct (index_Get sk (OfState Ready) sid) as [l|] eqn:HR.
  2:{ by intros [= <- <-]. }
  destruct (move_state sid l Ready Mining sk) as [sk2| | |] eqn:Hm; simpl; try done.
  intros [= <- <-]. by eapply (move_state_index_inv sid l Ready Mining sk).
Qed.

Lemma StopWS_index_inv be sid sk sk' e :
  index_inv sk → StopWS be sid sk = Returns (sk', e) → index_inv sk'.
Proof.
  intros Hinv. unfold StopWS.
  destruct (known_and_using sk sid) as [[|]| | |]; simpl; try done.
  2:{ by intros [= <- <-]. }
  set (sk1 := with_queue (pq_Delete sid (queue sk)) sk).
  assert (Hinv1 : index_inv sk1) by (by apply (index_inv_same sk)).
  destruct (index_Get sk1 (OfState Plotting) sid).
  { destruct (popped_is sk1 sid) as [[|]| | |]; simpl; try done.
    - intros [= <- <-]. by apply (index_inv_same sk).
    - by intros [= <- <-]. }
  destruct (index_Get sk1 (OfState Mining) sid) as [l|] eqn:HM.
  2:{ by intros [= <- <-]. }
  destruct (move_state sid l Mining Ready sk1) as [sk2| | |] eqn:Hm; simpl; try done.
  intros [= <- <-]. by eapply (move_state_index_inv sid l Mining Ready sk1).
Qed.

Lemma RemoveWS_index_inv sid sk sk' e :
  index_inv sk → RemoveWS sid sk = Returns (sk', e) → index_inv sk'.
Proof.
  intros Hinv. unfold RemoveWS.
  destruct (known_and_using sk sid) as [[|]| | |]; simpl; try done.
  2:{ by intros [= <- <-]. }
  set (sk1 := with_queue (pq_Delete sid (queue sk)) sk).
  assert (Hinv1 : index_inv sk1) by (by apply (index_inv_same sk)).
  destruct (still_ws sk1 sid) as [l|].
  2:{ by intros [= <- <-]. }
  destruct (disuseWorkSpace l sk1) as [sk2| | |] eqn:Hd; simpl; try done.
  intros [= <- <-]. by eapply disuseWorkSpace_index_inv.
Qed.

Lemma still_ws_slot sk sid l :
  still_ws sk sid = Some l →
  index_Get sk (OfState Registered) sid = Some l ∨ index_Get sk (OfState Ready) sid = Some l.
Proof.
  unfold still_ws. destruct (index_Get sk (OfState Registered) sid); [| by right].
  intros [= <-]. by left.
Qed.

Lemma DeleteWS_index_inv be sid sk sk' e :
  index_inv sk → DeleteWS be sid sk = Returns (sk', e) → index_inv sk'.
Proof.
  intros Hinv. unfold DeleteWS.
  destruct (known_and_using sk sid) as [[|]| | |]; simpl; try done.
  2:{ by intros [= <- <-]. }
  set (sk1 := with_queue (pq_Delete sid (queue sk)) sk).
  assert (Hinv1 : index_inv sk1) by (by apply (index_inv_same sk)).
  destruct (still_ws sk1 sid) as [l|] eqn:Hst.
  2:{ by intros [= <- <-]. }
  destruct (store sk !! l) as [w|] eqn:Hw; simpl; [| done].
  assert (Hslot : index_Get sk1 (OfState (ws_state w)) sid = Some l).
  { destruct Hinv1 as (Hwf & _ & _).
    apply still_ws_slot in Hst as [H | H];
      destruct (Hwf _ _ _ H) as (_ & w' & Hw' & Hs');
      change (store sk1) with (store sk) in Hw'; rewrite Hw in Hw';
      injection Hw' as <-; by rewrite Hs'. }
  pose proof (unindex_index_inv sid l (ws_state w) sk1 Hinv1 Hslot) as Hinv2.
  destruct (disuseWorkSpace l _) as [sk2| | |] eqn:Hd; simpl; try done.
  intros [= <- <-]. by eapply disuseWorkSpace_index_inv.
Qed.

Lemma ActOnWorkSpace_index_inv be sid action sk sk' e :
  index_inv sk → ActOnWorkSpace be sid action sk = Returns (sk', e) → index_inv sk'.
Proof.
  intros Hix. unfold ActOnWorkSpace. destruct action; simpl.
  - intros (Hi & Hs & _)%PlotWS_frame. by apply (index_inv_same sk).
  - by apply MineWS_index_inv.
  - by apply StopWS_index_inv.
  - by apply RemoveWS_index_inv.
  - by apply DeleteWS_index_inv.
  - by intros [= <- <-].
Qed.

Lemma move_state_ids (sid : string) (l : loc) (from to : WorkSpaceState) sk sk' :
  move_state sid l from to sk = Returns sk' →
  ∀ x, sid_of (store sk') x = sid_of (store sk) x.
Proof.
  intros (w & Hw & -> & _)%move_state_store x.
  by apply (sid_of_insert_same_id _ l w).
Qed.

Lemma disuseWorkSpace_ids (l : loc) sk sk' :
  disuseWorkSpace l sk = Returns sk' →
  ∀ x, sid_of (store sk') x = sid_of (store sk) x.
Proof.
  intros (w & lst & Hw & ->)%disuseWorkSpace_Returns x. simpl.
  by apply (sid_of_insert_same_id _ l w).
Qed.

(** No verb changes the identity of a WorkSpace. *)
Lemma ActOnWorkSpace_ids be sid action sk sk' e :
  ActOnWorkSpace be sid action sk = Returns (sk', e) →
  ∀ x, sid_of (store sk') x = sid_of (store sk) x.
Proof.
  unfold ActOnWorkSpace. destruct action; simpl; try by intros [= <- <-].
  - intros (_ & -> & _)%PlotWS_frame. done.
  - unfold MineWS. destruct (known_and_using sk sid) as [[|]| | |]; simpl; try done;
      [| by intros [= <- <-]].
    destruct (index_Get sk (OfState Registered) sid).
    { unfold chan_send. case_decide; simpl; [| done]. by intros [= <- <-]. }
    destruct (index_Get sk (OfState Plotting) sid).
    { destruct (popped_is sk sid) as [[|]| | |]; simpl; try done; by intros [= <- <-]. }
    destruct (index_Get sk (OfState Ready) sid); [| by intros [= <- <-]].
    destruct (move_state _ _ _ _ _) as [sk1| | |] eqn:Hm; simpl; try done.
    intros [= <- <-] x. by rewrite (move_state_ids _ _ _ _ _ _ Hm x).
  - unfold StopWS. destruct (known_and_using sk sid) as [[|]| | |]; simpl; try done;
      [| by intros [= <- <-]].
    destruct (index_Get _ (OfState Plotting) sid).
    { destruct (popped_is _ sid) as [[|]| | |]; simpl; try done; by intros [= <- <-]. }
    destruct (index_Get _ (OfState Mining) sid); [| by intros [= <- <-]].
    destruct (move_state _ _ _ _ _) as [sk1| | |] eqn:Hm; simpl; try done.
    intros [= <- <-] x. by rewrite (move_state_ids _ _ _ _ _ _ Hm x).
  - unfold RemoveWS. destruct (known_and_using sk sid) as [[|]| | |]; simpl; try done;
      [| by intros [= <- <-]].
    destruct (still_ws _ sid); [| by intros [= <- <-]].
    destruct (disuseWorkSpace _ _) as [sk1| | |] eqn:Hd; simpl; try done.
    intros [= <- <-] x. by rewrite (disuseWorkSpace_ids _ _ _ Hd x).
  - unfold DeleteWS. destruct (known_and_using sk sid) as [[|]| | |]; simpl; try done;
      [| by intros [= <- <-]].
    destruct (still_ws _ sid); [| by intros [= <- <-]].
    destruct (store sk !! _); simpl; [| done].
    destruct (disuseWorkSpace _ _) as [sk1| | |] eqn:Hd; simpl; try done.
    intros [= <- <-] x. by rewrite (disuseWorkSpace_ids _ _ _ Hd x).
Qed.

(** X1: whenever an action verb returns, the invariants hold again: every
    indexed WorkSpace is in the slot of its state, in no other state slot
    and in [allState], under its own sid; the listed WorkSpaces are exactly
    those in use, and no sid is listed twice. No verb changes the identity
    of a WorkSpace. *)
Theorem X1_verbs_keep_the_invariants (be : PlotBackend) (sid : string)
    (action : ActionType) sk sk' (e : option error) :
  index_inv sk → list_inv sk →
  ActOnWorkSpace be sid action sk = Returns (sk', e) →
  index_inv sk' ∧ list_inv sk' ∧
  ∀ x, sid_of (store sk') x = sid_of (store sk) x.
Proof.
  intros Hix Hls Hact. split_and!.
  - by eapply ActOnWorkSpace_index_inv.
  - destruct Hix as (Hwf & _ & _). by eapply ActOnWorkSpace_list_inv.
  - by eapply ActOnWorkSpace_ids.
Qed.
End IndexInvariant.

Section Lifecycle.
Context {W : Type} {wallet_ops : PoCWallet W} {params : PoCParams}.
Implicit Type sk : SpaceKeeper W.

Lemma pq_Delete_idemp (sid : string) (q : plotterQueue) :
  pq_Delete sid (pq_Delete sid q) = pq_Delete sid q.
Proof.
  unfold pq_Delete. simpl. f_equal.
  induction (pending q) as [| it r IH]; [done |].
  rewrite filter_cons. case_decide as Hd; [| done].
  rewrite filter_cons, decide_True by done. by rewrite IH.
Qed.

Lemma with_queue_twice (q q' : plotterQueue) sk :
  with_queue q (with_queue q' sk) = with_queue q sk.
Proof. done. Qed.

(** Under the invariant the slot lookups of a WorkSpace follow from its
    state. *)
Lemma slots_of_state sk sid l w :
  index_inv sk → index_Get sk allState sid = Some l → store sk !! l = Some w →
  ∀ s, index_Get sk (OfState s) sid = if decide (s = ws_state w) then Some l else None.
Proof.
  intros (Hwf & Hco & _) Hall Hw s.
  destruct (Hco _ _ Hall) as (w' & Hw' & Hb). rewrite Hw in Hw'. injection Hw' as <-.
  case_decide as Hs; [by subst |].
  destruct (index_Get sk (OfState s) sid) as [l'|] eqn:Hl'; [| done].
  by destruct (index_inv_one_slot sk _ _ _ _ _ Hwf Hl' Hb).
Qed.

Lemma set_state_back (w : WorkSpace) (s : WorkSpaceState) :
  set_state (ws_state w) (set_state s w) = w.
Proof. by destruct w. Qed.

(** X2: on a ready WorkSpace in use, Mine moves it to the mining slot with
    state Mining, and a Stop after it brings the SpaceKeeper back to where
    it was, with the pending jobs of the sid dropped from the queue. *)
Theorem X2_mine_then_stop_returns_to_ready (be : PlotBackend) sk (sid : string)
    (l : loc) (w : WorkSpace) :
  index_inv sk → live_and_using sk sid l w → ws_state w = Ready →
  ∃ sk1,
    MineWS sid sk = Returns (sk1, None) ∧
    index_Get sk1 (OfState Mining) sid = Some l ∧
    index_Get sk1 (OfState Ready) sid = None ∧
    store sk1 !! l = Some (set_state Mining w) ∧
    StopWS be sid sk1 = Returns (with_queue (pq_Delete sid (queue sk)) sk, None).
Proof.
  intros Hinv Hlive Hst. pose proof Hlive as (Hall & Hw & Hu).
  pose proof (slots_of_state sk sid l w Hinv Hall Hw) as Hslot. rewrite Hst in Hslot.
  pose proof (known_and_using_true _ _ _ _ Hlive) as Hk.
  set (sk1 := with_store (<[l := set_state Mining w]> (store sk))
                (with_index
                   (index_upd (index_upd (workSpaceIndex sk) (OfState Ready) (delete sid))
                      (OfState Mining) (insert sid l)) sk)).
  assert (Hm : move_state sid l Ready Mining sk = Returns sk1).
  { unfold move_state. by rewrite Hw. }
  assert (HL : ∀ b sid', index_Get sk1 b sid' = _)
    by (intros; by apply (move_state_lookup sid l Ready Mining sk)).
  assert (Hl1 : store sk1 !! l = Some (set_state Mining w)).
  { unfold sk1. simpl. by rewrite list_lookup_insert_eq by (by eapply lookup_lt_Some). }
  exists sk1. split_and!.
  - unfold MineWS. rewrite Hk. simpl.
    rewrite (Hslot Registered), (Hslot Plotting), (Hslot Ready). simpl.
    fold (move_state sid l Ready Mining sk). by rewrite Hm.
  - rewrite HL. simpl. by rewrite decide_True.
  - rewrite HL. simpl. by rewrite decide_True.
  - done.
  - assert (Hk1 : known_and_using sk1 sid = Returns true).
    { apply (known_and_using_true _ _ l (set_state Mining w)). split_and!; [| done | done].
      rewrite HL. by simpl. }
    unfold StopWS. rewrite Hk1. cbn [obind negb].
    set (sk2 := with_queue (pq_Delete sid (queue sk1)) sk1).
    change (index_Get sk2 ?b ?s) with (index_Get sk1 b s).
    rewrite (HL (OfState Plotting)), (HL (OfState Mining)). simpl.
    rewrite decide_True by done. rewrite (Hslot Plotting). simpl.
    unfold move_state. change (store sk2) with (store sk1). rewrite Hl1. simpl.
    do 2 f_equal. unfold sk2, sk1.
    destruct sk as [st cg cd ag dd dt wa sto ix ls q ch pc]. simpl in *.
    unfold with_store, with_index, with_queue. simpl. f_equal.
    + rewrite list_insert_insert_eq. rewrite <- Hst at 1. rewrite set_state_back.
      by apply list_insert_id.
    + destruct ix as [iR iP iY iM iA]. unfold index_Get in Hslot. simpl in *.
      f_equal.
      * apply insert_delete_id. by apply (Hslot Ready).
      * apply delete_insert_id. by apply (Hslot Mining).
Qed.

Lemma move_state_using (sid : string) (l : loc) (from to : WorkSpaceState) sk sk' :
  from ≠ to → move_state sid l from to sk = Returns sk' →
  known_and_using sk' sid = known_and_using sk sid.
Proof.
  intros Hne Hm. unfold known_and_using.
  rewrite (move_state_lookup sid l from to sk sk' allState sid Hne Hm). simpl.
  apply move_state_Returns in Hm as (w & Hw & ->).
  destruct (index_Get sk allState sid) as [la|]; [| done].
  change (store (with_store ?s _)) with s.
  destruct (decide (l = la)) as [<- | Hla].
  - rewrite list_lookup_insert_eq by (by eapply lookup_lt_Some). by rewrite Hw.
  - by rewrite list_lookup_insert_ne.
Qed.

(** X3: a Stop on a WorkSpace that is not plotting is idempotent: a second
    Stop returns the same answer and leaves the state of the first. *)
Theorem X3_second_stop_changes_nothing (be : PlotBackend) sk sk1 (sid : string)
    (e : option error) :
  index_Get sk (OfState Plotting) sid = None →
  StopWS be sid sk = Returns (sk1, e) →
  StopWS be sid sk1 = Returns (sk1, e).
Proof.
  intros HP. unfold StopWS at 1.
  destruct (known_and_using sk sid) as [[|]| | |] eqn:Hk; simpl; try done.
  2:{ intros [= <- <-]. unfold StopWS. by rewrite Hk. }
  set (sk0 := with_queue (pq_Delete sid (queue sk)) sk).
  change (index_Get sk0 ?b ?s) with (index_Get sk b s). rewrite HP.
  destruct (index_Get sk (OfState Mining) sid) as [l|] eqn:HM.
  - destruct (move_state sid l Mining Ready sk0) as [sk2| | |] eqn:Hm; simpl; try done.
    intros [= <- <-].
    assert (Hne : Mining ≠ Ready) by done.
    pose proof (move_state_using _ _ _ _ _ _ Hne Hm) as Hk2.
    change (known_and_using sk0 sid) with (known_and_using sk sid) in Hk2.
    pose proof (move_state_lookup sid l Mining Ready sk0 sk2 (OfState Plotting) sid Hne Hm)
      as HP2.
    pose proof (move_state_lookup sid l Mining Ready sk0 sk2 (OfState Mining) sid Hne Hm)
      as HM2.
    simpl in HP2, HM2. rewrite decide_True in HM2 by done.
    change (index_Get sk0 ?b ?s) with (index_Get sk b s) in HP2. rewrite HP in HP2.
    unfold StopWS. rewrite Hk2, Hk. simpl.
    change (index_Get (with_queue ?q sk2) ?b ?s) with (index_Get sk2 b s).
    rewrite HP2, HM2. do 2 f_equal.
    apply move_state_Returns in Hm as (w & Hw & ->). unfold sk0.
    change (queue (with_store _ (with_index _ (with_queue ?q sk)))) with q.
    rewrite pq_Delete_idemp. by destruct sk.
  - intros [= <- <-]. unfold StopWS.
    change (known_and_using sk0 sid) with (known_and_using sk sid). rewrite Hk. simpl.
    change (index_Get (with_queue ?q sk0) ?b ?s) with (index_Get sk b s).
    rewrite HP, HM. do 2 f_equal. unfold sk0.
    change (queue (with_queue ?q sk)) with q. by rewrite pq_Delete_idemp.
Qed.
Lemma listed_all_live sk : using_iff_listed sk → all_live (store sk) (workSpaceList sk).
Proof.
  intros Hu. apply Forall_forall. intros x (w & Hw & _)%Hu. by eexists.
Qed.






End Lifecycle.

Section PlannerSteps.
Context {W : Type} {wallet_ops : PoCWallet W} {params : PoCParams}.
Implicit Type sk : SpaceKeeper W.

Lemma keeps_refl sk : keeps sk sk.
Proof. split; [by repeat split | done]. Qed.

Lemma keeps_trans sk1 sk2 sk3 : keeps sk1 sk2 → keeps sk2 sk3 → keeps sk1 sk3.
Proof.
  intros [[(?&?&?&?&?&?) [? ?]] Hi1] [[(?&?&?&?&?&?) [? ?]] Hi2].
  split; [| by auto]. repeat split; congruence.
Qed.

(** A step that changes neither the index nor identities and states. *)
Lemma keeps_same_id_state sk sk' :
  planner_step sk sk' → workSpaceIndex sk' = workSpaceIndex sk →
  same_id_state (store sk) (store sk') → keeps sk sk'.
Proof. intros Hs Hix Hst. split; [done |]. by apply index_inv_same_id_state. Qed.

Lemma same_id_state_app (st new : list WorkSpace) :
  ∀ x w, st !! x = Some w → (st ++ new) !! x = Some w.
Proof. intros x w Hw. by apply lookup_app_l_Some. Qed.

(** The invariant of the indexes only reads live addresses: it stands when
    the store grows. *)
Lemma index_inv_app sk sk' (new : list WorkSpace) :
  workSpaceIndex sk' = workSpaceIndex sk → store sk' = store sk ++ new →
  index_inv sk → index_inv sk'.
Proof.
  intros Hix Hst (Hwf & Hco & Hk).
  assert (HG : ∀ b sid, index_Get sk' b sid = index_Get sk b sid)
    by (intros; unfold index_Get; by rewrite Hix).
  split_and!.
  - intros s sid l. rewrite !HG. intros (Hall & w & Hw & Hs)%Hwf. split; [done |].
    exists w. rewrite Hst. split; [by apply lookup_app_l_Some | done].
  - intros sid l. rewrite HG. intros (w & Hw & Hb)%Hco.
    exists w. rewrite Hst, HG. split; [by apply lookup_app_l_Some | done].
  - intros b sid l. rewrite HG. intros H%Hk. unfold sid_of in *. rewrite Hst.
    destruct (store sk !! l) as [w|] eqn:Hw; [| done].
    by rewrite (lookup_app_l_Some _ _ _ _ Hw).
Qed.

Lemma addWorkSpaceToIndex_Returns (l : loc) sk sk' :
  addWorkSpaceToIndex l sk = Returns sk' →
  ∃ w, store sk !! l = Some w ∧
    match index_Get sk allState (SpaceID_String (ws_id w)) with
    | Some _ => sk' = sk
    | None =>
        sk' = with_index
                (index_upd
                   (index_upd (workSpaceIndex sk) allState
                      (insert (SpaceID_String (ws_id w)) l))
                   (OfState (ws_state w)) (insert (SpaceID_String (ws_id w)) l)) sk
    end.
Proof.
  unfold addWorkSpaceToIndex. destruct (store sk !! l) as [w|] eqn:Hw; [| done].
  cbn [obind must]. intros H. exists w. split; [done |].
  destruct (index_Get sk allState _); by injection H as <-.
Qed.

Lemma addWorkSpaceToIndex_keeps (l : loc) sk sk' :
  addWorkSpaceToIndex l sk = Returns sk' → keeps sk sk'.
Proof.
  intros (w & Hw & H)%addWorkSpaceToIndex_Returns.
  set (sid := SpaceID_String (ws_id w)) in *.
  destruct (index_Get sk allState sid) as [l0|] eqn:Hall.
  { subst sk'. apply keeps_refl. }
  split; [subst sk'; by repeat split |].
  intros (Hwf & Hco & Hk).
  assert (HL : ∀ b sid', index_Get sk' b sid' =
                 if decide (b = allState ∨ b = OfState (ws_state w)) then
                   (if decide (sid = sid') then Some l else index_Get sk b sid')
                 else index_Get sk b sid').
  { intros b sid'. unfold index_Get. rewrite H.
    change (workSpaceIndex (with_index ?ix _)) with ix. rewrite !index_at_upd.
    destruct (decide (b = OfState (ws_state w))) as [-> | Hb].
    - rewrite (decide_True (P := OfState _ = OfState _)) by done.
      rewrite (decide_False (P := allState = OfState _)) by done.
      rewrite decide_True by auto. rewrite lookup_insert. by case_decide.
    - rewrite (decide_False (P := OfState _ = b)) by congruence.
      destruct (decide (b = allState)) as [-> | Hb'].
      + rewrite (decide_True (P := allState = allState)) by done.
        rewrite decide_True by auto. rewrite lookup_insert. by case_decide.
      + rewrite (decide_False (P := allState = b)) by congruence.
        rewrite decide_False; [done |]. by intros [? | ?]. }
  assert (Hfresh : ∀ b l', index_Get sk b sid = Some l' → False).
  { intros [s |] l' Hb; [| congruence].
    destruct (Hwf _ _ _ Hb) as [Ha _]. congruence. }
  assert (Hst : store sk' = store sk) by (by rewrite H).
  unfold index_inv, index_wf, index_complete, index_keys. rewrite Hst.
  split_and!.
  - intros s sid' l'. rewrite !HL. rewrite (decide_True (P := allState = allState ∨ _)) by auto.
    destruct (decide (sid = sid')) as [<- | Hne].
    + case_decide as Hd.
      * intros [= <-]. split; [done |]. exists w. split; [done |].
        destruct Hd as [? | [= ->]]; done.
      * intros Hb. by destruct (Hfresh _ _ Hb).
    + intros Hb. assert (Hb' : index_Get sk (OfState s) sid' = Some l')
        by (by case_decide).
      by apply Hwf in Hb'.
  - intros sid' l'. rewrite HL. rewrite decide_True by auto.
    destruct (decide (sid = sid')) as [<- | Hne].
    + intros [= <-]. exists w. split; [done |]. rewrite HL.
      rewrite decide_True by auto. by rewrite decide_True.
    + intros (w' & Hw' & Hb)%Hco. exists w'. split; [done |].
      rewrite HL. case_decide; [by rewrite decide_False | done].
  - intros b sid' l'. rewrite HL. case_decide; [| apply Hk].
    case_decide; [| apply Hk]. intros [= <-]. subst sid'. unfold sid_of. by rewrite Hw.
Qed.

Lemma NewWorkSpace_keeps be ord pk bl sk sk' r :
  NewWorkSpace be ord pk bl sk = Returns (sk', r) → keeps sk sk'.
Proof.
  unfold NewWorkSpace. destruct (dbDirs sk !! 0%nat); [| done]. cbn [obind must].
  destruct (NewWorkSpace_err _ _ _ _ _ _); intros [= <- <-]; [apply keeps_refl |].
  split; [by repeat split |].
  by apply index_inv_app with (new := [mkWorkSpace (NewSpaceID ord pk bl) Registered false]).
Qed.

Lemma generateNewWorkSpace_keeps be bl sk sk' r :
  generateNewWorkSpace be bl sk = Returns (sk', r) → keeps sk sk'.
Proof.
  unfold generateNewWorkSpace. destruct (GenerateNewPublicKey _) as [w' [[pk ord] | msg]].
  - intros H%NewWorkSpace_keeps. eapply keeps_trans; [| exact H].
    split; [by repeat split |]. by apply index_inv_same.
  - intros [= <- <-]. split; [by repeat split |]. by apply index_inv_same.
Qed.




Lemma generate_by_size_keeps fuel be bl dst cur tgt sk sk' r :
  generate_by_size fuel be bl dst cur tgt sk = Returns (sk', r) → keeps sk sk'.
Proof.
  revert dst cur sk. induction fuel as [| fuel IH]; intros dst cur sk; simpl.
  - destruct (_ <? _); [| done]. intros [= <- <-]. apply keeps_refl.
  - destruct (_ <? _); [intros [= <- <-]; apply keeps_refl |].
    destruct (generateNewWorkSpace be bl sk) as [[sk1 [newWS | err]]| | |] eqn:Hg;
      simpl; try done.
    + apply generateNewWorkSpace_keeps in Hg.
      destruct (addWorkSpaceToIndex newWS sk1) as [sk2| | |] eqn:Ha; simpl; try done.
      apply addWorkSpaceToIndex_keeps in Ha. intros H%IH.
      eauto using keeps_trans.
    + intros [= <- <-]. by eapply generateNewWorkSpace_keeps.
Qed.

Lemma generate_by_size_all_keeps fuel be bls dst cur tgt sk sk' r :
  generate_by_size_all fuel be bls dst cur tgt sk = Returns (sk', r) → keeps sk sk'.
Proof.
  revert dst cur sk. induction bls as [| bl rest IH]; intros dst cur sk; simpl.
  - intros [= <- <-]. apply keeps_refl.
  - destruct (generate_by_size _ _ _ _ _ _ _) as [[sk1 [[dst' cur'] | err]]| | |] eqn:Hg;
      simpl; try done.
    + apply generate_by_size_keeps in Hg. intros H%IH. eauto using keeps_trans.
    + intros [= <- <-]. by eapply generate_by_size_keeps.
Qed.

Lemma select_BySize_keeps fuel be tgt sk sk' r :
  select_BySize fuel be tgt sk = Returns (sk', r) → keeps sk sk'.
Proof.
  unfold select_BySize.
  destruct (getIndexedWorkSpaces sk) as [srcMap| | |]; simpl; try done.
  destruct (fillSpaceListBySize _ _ _ _) as [[resultList cur] [|]].
  - intros [= <- <-]. apply keeps_refl.
  - unfold generateFillSpaceListBySize.
    destruct (negb _); [intros [= <- <-]; apply keeps_refl |].
    destruct (checkOSDiskSize _ _ _) as [[err|]| | |]; simpl; try done.
    + intros [= <- <-]. apply keeps_refl.
    + apply (generate_by_size_all_keeps fuel be allowedBL).
Qed.
Lemma clear_using_same_id_state (ls : list loc) (st st' : list WorkSpace) :
  clear_using ls st = Returns st' → same_id_state st st'.
Proof.
  revert st. induction ls as [| l r IH]; intros st; simpl.
  - intros [= <-]. apply same_id_state_refl.
  - destruct (st !! l) as [w|] eqn:Hw; simpl; [| done].
    intros H%IH. eapply same_id_state_trans; [| exact H].
    by apply same_id_state_set_using.
Qed.

Lemma useWorkSpace_keeps (l : loc) sk sk' :
  useWorkSpace l sk = Returns sk' → keeps sk sk'.
Proof.
  unfold useWorkSpace.
  destruct (sid_at (store sk) l) as [sid| | |]; simpl; try done.
  destruct (list_has_sid _ _ sid) as [[|]| | |]; simpl; try done.
  { intros [= <-]. apply keeps_refl. }
  destruct (store sk !! l) as [w|] eqn:Hw; simpl; [| done].
  intros [= <-]. apply keeps_same_id_state; [by repeat split | done |].
  by apply same_id_state_set_using.
Qed.

Lemma keeps_fields sk sk' :
  planner_step sk sk' → workSpaceIndex sk' = workSpaceIndex sk → store sk' = store sk →
  keeps sk sk'.
Proof. intros Hs Hix Hst. split; [done |]. by apply index_inv_same. Qed.

Lemma drain_into_keeps (qs : list queuedWorkSpace) sk sk' :
  drain_into qs sk = Returns sk' → keeps sk sk'.
Proof.
  revert sk. induction qs as [| qws r IH]; intros sk; simpl.
  - intros [= <-]. apply keeps_refl.
  - destruct (queue_item _ _) as [it| | |]; simpl; try done.
    destruct (useWorkSpace _ _) as [sk1| | |] eqn:Hu; simpl; try done.
    intros H%IH. apply useWorkSpace_keeps in Hu.
    eapply keeps_trans; [| exact H]. eapply keeps_trans; [| exact Hu].
    apply keeps_fields; [by repeat split | done | done].
Qed.

Lemma requeue_keeps (wm : bool) (resultList : list loc) sk sk' :
  requeue wm resultList sk = Returns sk' → keeps sk sk'.
Proof.
  unfold requeue. destruct (push_all _ _ _ _) as [q| | |]; simpl; try done.
  apply drain_into_keeps.
Qed.







(** The rebuild of [workSpaceList] and of the queue that ends a planner
    call, from a store with the using flags rewritten. *)
Lemma rebuild_keeps (wm : bool) (resultList : list loc) (st : list WorkSpace)
    (q : plotterQueue) sk sk2 :
  same_id_state (store sk) st →
  requeue wm resultList (with_list [] (with_store st (with_queue q sk))) = Returns sk2 →
  keeps sk sk2.
Proof.
  intros Hst H%requeue_keeps. eapply keeps_trans; [| exact H].
  apply keeps_same_id_state; [by repeat split | done | done].
Qed.

Lemma with_queue_same sk : with_queue (queue sk) sk = sk.
Proof. by destruct sk. Qed.

Lemma with_store_same sk : with_store (store sk) sk = sk.
Proof. by destruct sk. Qed.
Lemma planner_enter_inl sk sk0 :
  planner_enter sk = inl sk0 →
  started sk = false ∧ configuring sk = 0 ∧ sk0 = with_configured 0 (with_configuring 1 sk).
Proof.
  unfold planner_enter. destruct (started sk); [done |].
  destruct (configuring sk =? 0) eqn:Hc; simpl; [| done].
  intros [= <-]. apply Z.eqb_eq in Hc. done.
Qed.

Lemma planner_enter_inr sk err :
  planner_enter sk = inr err →
  (started sk = true ∧ err = ErrSpaceKeeperIsRunning) ∨
  (started sk = false ∧ configuring sk ≠ 0 ∧ err = ErrSpaceKeeperIsConfiguring).
Proof.
  unfold planner_enter. destruct (started sk); [intros [= <-]; by left |].
  destruct (configuring sk =? 0) eqn:Hc; simpl; [done |].
  intros [= <-]. apply Z.eqb_neq in Hc. by right.
Qed.

Lemma planner_post_intro sk sk0 sk2 (e : option error) (idle : bool) (v : Z) :
  sk0 = with_configured 0 (with_configuring 1 sk) →
  keeps sk0 sk2 →
  v = (if e is None then 1 else 0) →
  (e ≠ None → v = 0) →
  (e = None → idle = true → pending (queue sk2) = []) →
  planner_post sk (with_configuring 0 (with_configured v sk2)) e idle.
Proof.
  intros -> [[(?&?&?&?&?&?) [? ?]] Hi] -> _ Hq. split_and!; try done.
Qed.

Lemma with_configured_same sk : with_configured (configured sk) sk = sk.
Proof. by destruct sk. Qed.


Lemma ConfigureBySize_post fuel be targetSize password sk sk' infos e :
  started sk = false → configuring sk = 0 →
  ConfigureBySize fuel be targetSize password sk = Returns (sk', (infos, e)) →
  planner_post sk sk' e true.
Proof.
  intros Hs Hc. unfold ConfigureBySize. rewrite (planner_enter_ok sk Hs Hc).
  set (sk0 := with_configured 0 (with_configuring 1 sk)). simpl.
  destruct (_ <? _).
  { simpl. intros [= <- <- <-].
    change (with_configuring 0 sk0) with (with_configuring 0 (with_configured 0 sk0)).
    by apply (planner_post_intro sk sk0 sk0 _ _ _ eq_refl (keeps_refl sk0)). }
  assert (Hw : ∀ w', keeps sk0 (with_wallet w' sk0))
    by (intros; apply keeps_fields; [by repeat split | done | done]).
  destruct (Unlock _ _) as [w' [msg|]].
  { simpl. intros [= <- <- <-].
    change (with_configuring 0 (with_wallet w' sk0))
      with (with_configuring 0 (with_configured 0 (with_wallet w' sk0))).
    by apply (planner_post_intro sk sk0 _ _ _ _ eq_refl (Hw w')). }
  destruct (select_BySize _ _ _ _) as [[sk1 sel]| | |] eqn:Hsel; simpl; try done.
  apply select_BySize_keeps in Hsel.
  assert (Hk1 : keeps sk0 sk1) by (by eapply keeps_trans).
  assert (Hcd1 : configured sk1 = 0) by (by destruct Hk1 as [[_ [_ ->]] _]).
  destruct sel as [resultList | err]; simpl.
  2:{ intros [= <- <- <-]. rewrite <- (with_configured_same sk1) at 1. rewrite Hcd1.
      by apply (planner_post_intro sk sk0 sk1 _ _ _ eq_refl Hk1). }
  unfold successfullyReturn_BySize, failureReturn. case_decide.
  { simpl. intros [= <- <- <-]. rewrite <- (with_configured_same sk1) at 1. rewrite Hcd1.
    by apply (planner_post_intro sk sk0 sk1 _ _ _ eq_refl Hk1). }
  destruct (clear_using _ _) as [st| | |] eqn:Hcl; simpl; try done.
  apply clear_using_same_id_state in Hcl.
  destruct (requeue _ _ _) as [sk2| | |] eqn:Hr; simpl; try done.
  apply requeue_keeps in Hr.
  destruct (infos_of _ _) as [ws| | |]; simpl; try done.
  intros [= <- <- <-].
  assert (Hk : keeps sk0 (with_queue (pq_Reset (queue sk2)) sk2)).
  { eapply keeps_trans; [exact Hk1 |].
    eapply keeps_trans;
      [| apply (keeps_fields sk2); [by repeat split | done | done]].
    eapply keeps_trans; [| exact Hr].
    apply keeps_same_id_state; [by repeat split | done | done]. }
  by apply (planner_post_intro sk sk0 _ _ _ _ eq_refl Hk).
Qed.

End PlannerSteps.

(** ** What a planner call leaves behind *)

Section PlannerCalls.
Context {W : Type} {wallet_ops : PoCWallet W} {params : PoCParams}.
Implicit Type sk : SpaceKeeper W.

Lemma Configured_spec sk (e : option error) :
  configured sk = (if e is None then 1 else 0) → (Configured sk = true ↔ e = None).
Proof. unfold Configured. intros ->. by destruct e. Qed.



Lemma ConfigureBySize_failure fuel be targetSize password sk sk' infos err :
  ConfigureBySize fuel be targetSize password sk = Returns (sk', (infos, Some err)) →
  infos = [].
Proof.
  unfold ConfigureBySize. destruct (planner_enter sk); [| by intros [= <- <- <-]].
  simpl. destruct (_ <? _); [by intros [= <- <- <-] |].
  destruct (Unlock _ _) as [w' [msg|]]; [by intros [= <- <- <-] |].
  destruct (select_BySize _ _ _ _) as [[sk1 sel]| | |]; simpl; try done.
  destruct sel as [resultList | err']; simpl; [| by intros [= <- <- <-]].
  unfold successfullyReturn_BySize, failureReturn. case_decide.
  { simpl. by intros [= <- <- <-]. }
  destruct (clear_using _ _) as [st| | |]; simpl; try done.
  destruct (requeue _ _ _) as [sk2| | |]; simpl; try done.
  destruct (infos_of _ _) as [ws| | |]; simpl; done.
Qed.

(** X7: a call of ConfigureBySize that passed the entry guards and returns
    leaves the service flags, directories, cache and job channel alone,
    ends with configuring = 0, reports Configured() exactly when its error
    is nil, returns a non-empty list exactly when its error is nil, keeps
    both invariants, and on success leaves the plotter queue without a
    pending job: the planner by size never starts a plot. *)
Theorem X7_ConfigureBySize_outcome (fuel : nat) (be : PlotBackend) (targetSize : Z)
    (password : string) sk sk' (infos : list WorkSpace) (e : option error) :
  started sk = false → configuring sk = 0 →
  ConfigureBySize fuel be targetSize password sk = Returns (sk', (infos, e)) →
  planner_frame sk sk' ∧
  configuring sk' = 0 ∧
  (Configured sk' = true ↔ e = None) ∧
  (infos ≠ [] ↔ e = None) ∧
  (index_inv sk → index_inv sk') ∧
  (list_inv sk → list_inv sk') ∧
  (e = None → pending (queue sk') = []).
Proof.
  intros Hs Hc Hrun.
  destruct (ConfigureBySize_post _ _ _ _ _ _ _ _ Hs Hc Hrun)
    as (Hframe & Hcg & Hcd & Hix & Hq).
  split_and!; [done | done | by apply Configured_spec | | done | |].
  - destruct e as [err|].
    + apply ConfigureBySize_failure in Hrun as ->. split; done.
    + split; [done | intros _]. by eapply ConfigureBySize_nonempty.
  - intros Hinv. by eapply ConfigureBySize_list_inv.
  - intros He. by apply Hq.
Qed.

Lemma same_plots_refl sk : same_plots sk sk.
Proof. split_and!; [done | done | apply same_id_state_refl]. Qed.

Lemma same_plots_trans sk1 sk2 sk3 : same_plots sk1 sk2 → same_plots sk2 sk3 → same_plots sk1 sk3.
Proof.
  intros (?&?&?) (?&?&?). split_and!; [congruence | congruence |].
  by eapply same_id_state_trans.
Qed.

Lemma useWorkSpace_same_plots (l : loc) sk sk' :
  useWorkSpace l sk = Returns sk' → same_plots sk sk'.
Proof.
  unfold useWorkSpace.
  destruct (sid_at (store sk) l) as [sid| | |]; simpl; try done.
  destruct (list_has_sid _ _ sid) as [[|]| | |]; simpl; try done.
  { intros [= <-]. apply same_plots_refl. }
  destruct (store sk !! l) as [w|] eqn:Hw; simpl; [| done].
  intros [= <-]. split_and!; [done | done |]. by apply same_id_state_set_using.
Qed.

Lemma useWorkSpace_used (l : loc) sk sk' :
  listed_are_used sk ∧ list_no_dup sk → useWorkSpace l sk = Returns sk' →
  listed_are_used sk' ∧ list_no_dup sk'.
Proof.
  intros [Hu Hn]. unfold useWorkSpace.
  destruct (sid_at (store sk) l) as [sid| | |] eqn:Hs; simpl; try done.
  destruct (list_has_sid _ _ sid) as [found| | |] eqn:Hf; simpl; try done.
  destruct found; [by intros [= <-] |].
  apply list_has_sid_spec in Hf.
  apply sid_at_Returns in Hs. unfold sid_of in Hs.
  destruct (store sk !! l) as [w|] eqn:Hw; simpl in *; [| done].
  injection Hs as <-. intros [= <-]. split.
  - intros x. simpl. rewrite elem_of_app, list_elem_of_singleton.
    destruct (decide (l = x)) as [<- | Hne].
    + rewrite list_lookup_insert_eq by (by eapply lookup_lt_Some).
      intros _. by eexists.
    + rewrite list_lookup_insert_ne by done.
      intros [Hx | ->]; [by apply Hu | done].
  - unfold list_no_dup. simpl.
    rewrite (sids_of_insert_same_id _ l w) by done.
    unfold sids_of. rewrite fmap_app. simpl. rewrite Hw. simpl.
    apply NoDup_app. split_and!; [done | | apply NoDup_singleton].
    intros s Hin ->%list_elem_of_singleton.
    assert (false = true); [| done]. by apply Hf.
Qed.

Lemma drain_into_rebuild (qs : list queuedWorkSpace) sk sk' :
  drain_into qs sk = Returns sk' →
  same_plots sk sk' ∧
  (listed_are_used sk ∧ list_no_dup sk → listed_are_used sk' ∧ list_no_dup sk').
Proof.
  revert sk. induction qs as [| qws r IH]; intros sk; simpl.
  - intros [= <-]. split; [apply same_plots_refl | done].
  - destruct (queue_item _ _) as [it| | |]; simpl; try done.
    destruct (useWorkSpace _ _) as [sk1| | |] eqn:Hu; simpl; try done.
    intros [Hp Hi]%IH. split.
    + eapply same_plots_trans; [| exact Hp].
      by apply useWorkSpace_same_plots in Hu.
    + intros Hinv. apply Hi. eapply useWorkSpace_used; [| exact Hu]. done.
Qed.

Lemma requeue_rebuild (wm : bool) (resultList : list loc) sk sk' :
  requeue wm resultList sk = Returns sk' →
  same_plots sk sk' ∧
  (listed_are_used sk ∧ list_no_dup sk → listed_are_used sk' ∧ list_no_dup sk').
Proof.
  unfold requeue. destruct (push_all _ _ _ _) as [q| | |]; simpl; try done.
  apply drain_into_rebuild.
Qed.


Lemma generate_by_pubKey_grows be targets ords dst sk sk' r :
  generate_by_pubKey be targets ords dst sk = Returns (sk', r) →
  grows sk sk' ∧ wallet sk' = wallet sk.
Proof.
  revert dst sk. induction targets as [| [pk bl] rest IH]; intros dst sk; simpl.
  - intros [= <- <-]. split; [apply grows_refl | done].
  - destruct (index_Get sk allState _) as [l|]; [apply IH |].
    unfold generateNewWorkSpaceByPubKey.
    destruct (NewWorkSpace _ _ _ _ _) as [[sk1 [newWS | err]]| | |] eqn:Hn; simpl; try done.
    + assert (Hw1 : wallet sk1 = wallet sk).
      { revert Hn. unfold NewWorkSpace. destruct (dbDirs sk !! 0%nat); [| done].
        cbn [obind must]. destruct (NewWorkSpace_err _ _ _ _ _ _); by intros [= <- <-]. }
      apply NewWorkSpace_grows in Hn.
      destruct (addWorkSpaceToIndex newWS sk1) as [sk2| | |] eqn:Ha; simpl; try done.
      assert (Hw2 : wallet sk2 = wallet sk1).
      { apply addWorkSpaceToIndex_Returns in Ha as (w & _ & Ha).
        destruct (index_Get sk1 allState _); by rewrite Ha. }
      apply addWorkSpaceToIndex_grows in Ha. intros [Hg Hw]%IH.
      split; [eauto using grows_trans | congruence].
    + intros [= <- <-]. split; [by eapply NewWorkSpace_grows |].
      revert Hn. unfold NewWorkSpace. destruct (dbDirs sk !! 0%nat); [| done].
      cbn [obind must]. destruct (NewWorkSpace_err _ _ _ _ _ _); by intros [= <- <-].
Qed.



(** X9: a call of ConfigureByFlags that passed the entry guards and
    returns never reports an error. It leaves the service flags,
    directories, cache, job channel, wallet and indexes alone and changes
    no identity or state of a WorkSpace; the list it returns is the
    snapshot of the rebuilt workSpaceList, in which every WorkSpace is in
    use and no sid occurs twice. It ends with configuring = 0, and
    Configured() holds afterwards exactly when the returned list is
    empty. No job is pending when neither execPlot nor execMine is set. *)
Theorem X9_ConfigureByFlags_outcome (flags : list WorkSpaceState)
    (execPlot execMine : bool) sk sk' (infos : list WorkSpace) (e : option error) :
  started sk = false → configuring sk = 0 →
  ConfigureByFlags flags execPlot execMine sk = Returns (sk', (infos, e)) →
  e = None ∧
  planner_frame sk sk' ∧ same_plots sk sk' ∧
  configuring sk' = 0 ∧
  (Configured sk' = true ↔ infos = []) ∧
  infos_of (store sk') (workSpaceList sk') = Returns infos ∧
  (index_inv sk → index_inv sk') ∧
  listed_are_used sk' ∧ list_no_dup sk' ∧
  (execPlot = false → execMine = false → pending (queue sk') = []).
Proof.
  intros Hs Hc. unfold ConfigureByFlags. rewrite (planner_enter_ok sk Hs Hc).
  set (sk0 := with_configured 0 (with_configuring 1 sk)).
  destruct (requeue _ _ _) as [sk2| | |] eqn:Hr; simpl; try done.
  destruct (requeue_keeps _ _ _ _ Hr) as [[(?&?&?&?&?&?) [Hcg2 Hcd2]] Hi2].
  apply requeue_rebuild in Hr as [(Hix2 & Hw2 & Hst2) Hu2].
  assert (Hu : listed_are_used sk2 ∧ list_no_dup sk2).
  { apply Hu2. split; [by intros l ?%elem_of_nil | apply NoDup_nil_2]. }
  set (sk3 := reset_unless (execMine || execPlot) sk2).
  assert (Hsk3 : store sk3 = store sk2 ∧ workSpaceList sk3 = workSpaceList sk2 ∧
               workSpaceIndex sk3 = workSpaceIndex sk2 ∧ wallet sk3 = wallet sk2 ∧
               configured sk3 = 0 ∧ planner_frame sk2 sk3)
    by (unfold sk3, reset_unless; destruct (negb _); by repeat split).
  destruct Hsk3 as (Hst3 & Hl3 & Hix3 & Hw3 & Hcd3 & Hf3).
  destruct (infos_of _ _) as [ws| | |] eqn:Hi; simpl; try done.
  intros [= <- <- <-].
  assert (Hflag : ∀ v, list_no_dup (with_configuring 0 (with_configured v sk3)) ∧
                       listed_are_used (with_configuring 0 (with_configured v sk3))).
  { intros v. unfold list_no_dup, listed_are_used. simpl. rewrite Hst3, Hl3. by destruct Hu. }
  assert (Hinv : index_inv sk → index_inv sk3).
  { intros Hinv. apply (index_inv_same sk2); [done | done |]. apply Hi2.
    by apply (index_inv_same sk). }
  assert (Hq : execPlot = false → execMine = false → pending (queue sk3) = []).
  { intros -> ->. done. }
  assert (Hfr : planner_frame sk sk3 ∧ same_plots sk sk3).
  { destruct Hf3 as (?&?&?&?&?&?). unfold sk0 in *. simpl in *.
    split; [repeat split; congruence |].
    split_and!; [congruence | congruence |]. by rewrite Hst3. }
  destruct Hfr as [Hfr Hsp].
  case_decide as Hlen.
  - apply length_zero_iff_nil in Hlen as ->.
    split_and!; try done; apply Hflag.
  - assert (ws ≠ []) by (by intros ->).
    split_and!; try done; try apply (Hflag 0).
    unfold Configured. simpl. rewrite Hcd3. done.
Qed.
End PlannerCalls.

(** ** Queries, the verbs over a selection, proof lookup *)

Section QueriesProps.
Context {W : Type} {wallet_ops : PoCWallet W} {params : PoCParams}.
Implicit Type sk : SpaceKeeper W.

Lemma getWsByFlags_spec (st : list WorkSpace) (ls r : list loc) (flags : list WorkSpaceState) :
  getWsByFlags st ls flags = Returns r →
  sublist r ls ∧
  ∀ l, l ∈ r ↔ l ∈ ls ∧ ∃ w, st !! l = Some w ∧ ws_state w ∈ flags.
Proof.
  revert r. induction ls as [| l ls IH]; intros r; simpl.
  - intros [= <-]. split; [done |]. intros l. split; [by intros ?%elem_of_nil |].
    by intros [?%elem_of_nil _].
  - destruct (st !! l) as [w|] eqn:Hw; simpl; [| done].
    destruct (getWsByFlags st ls flags) as [r'| | |]; simpl; try done.
    destruct (IH r' eq_refl) as [Hsub Hin]. intros [= <-].
    case_decide as Hf.
    + split; [by apply sublist_skip |]. intros x. rewrite !elem_of_cons, Hin.
      split.
      * intros [-> | [? ?]]; [| by auto]. split; [by left | by exists w].
      * intros [[-> | ?] ?]; [by left | by right].
    + split; [by apply sublist_cons |]. intros x. rewrite elem_of_cons, Hin.
      split; [intros [? ?]; by auto |].
      intros [[-> | ?] (w' & Hw' & ?)]; [| split; [done | by exists w']].
      assert (w' = w) as -> by congruence. done.
Qed.

Lemma getWsByFlags_total (st : list WorkSpace) (ls : list loc) (flags : list WorkSpaceState) :
  all_live st ls → ∃ r, getWsByFlags st ls flags = Returns r.
Proof.
  induction 1 as [| l ls [w Hw] _ [r IH]]; simpl; [by eexists |].
  rewrite Hw, IH. simpl. by eexists.
Qed.

Lemma all_live_sublist (st : list WorkSpace) (r ls : list loc) :
  sublist r ls → all_live st ls → all_live st r.
Proof.
  intros Hsub. unfold all_live. rewrite !Forall_forall.
  intros H l Hl. apply H. by eapply elem_of_sublist.
Qed.

Lemma ids_of_spec (st : list WorkSpace) (ls : list loc) :
  all_live st ls →
  ∃ ids, ids_of st ls = Returns ids ∧ Some <$> ids = sids_of st ls.
Proof.
  induction 1 as [| l ls [w Hw] _ (ids & IH & Hids)]; simpl; [by eexists |].
  unfold sid_at. rewrite Hw. simpl. rewrite IH. simpl.
  eexists. split; [done |]. by rewrite fmap_cons, Hids.
Qed.

Lemma infos_of_spec (st : list WorkSpace) (ls : list loc) :
  all_live st ls →
  ∃ infos, infos_of st ls = Returns infos ∧ Some <$> infos = (st !!.) <$> ls.
Proof.
  induction 1 as [| l ls [w Hw] _ (infos & IH & Hi)]; simpl; [by eexists |].
  rewrite Hw. simpl. rewrite IH. simpl.
  eexists. split; [done |]. by rewrite fmap_cons, Hi.
Qed.

(** The two queries over a selection of live WorkSpaces: the sids are
    those of the snapshots, without repetition when the selection has
    none. *)
Lemma ids_infos_of (st : list WorkSpace) (ls : list loc) :
  all_live st ls →
  ∃ ids infos,
    ids_of st ls = Returns ids ∧ infos_of st ls = Returns infos ∧
    ids = (λ w, SpaceID_String (ws_id w)) <$> infos ∧
    Some <$> infos = (st !!.) <$> ls ∧
    (NoDup (sids_of st ls) → NoDup ids).
Proof.
  intros Hlive.
  destruct (ids_of_spec st ls Hlive) as (ids & Hids & Hs).
  destruct (infos_of_spec st ls Hlive) as (infos & Hinfos & Hi).
  exists ids, infos. split_and!; [done | done | | done |].
  - apply (inj (fmap Some)). rewrite Hs. unfold sids_of.
    rewrite <- list_fmap_compose.
    transitivity ((fmap (λ w, SpaceID_String (ws_id w))) <$> ((st !!.) <$> ls)).
    { by rewrite <- list_fmap_compose. }
    rewrite <- Hi. rewrite <- !list_fmap_compose. done.
  - rewrite <- Hs. intros Hn. by apply (NoDup_fmap_1 Some).
Qed.

(** X10: on a SpaceKeeper that satisfies the invariant of workSpaceList,
    WorkSpaceIDs and WorkSpaceInfos return (they never fail) and agree:
    the sids are those of the snapshots, in the same order; no sid is
    returned twice; every snapshot is of a WorkSpace in use, in one of
    the states that the flags name unless the flags contain SFAll; and
    every listed WorkSpace that the flags select is returned. *)
Theorem X10_WorkSpaceIDs_and_Infos_agree (flags : WorkSpaceStateFlags) sk :
  list_inv sk →
  ∃ ids infos,
    WorkSpaceIDs flags sk = Returns (ids, None) ∧
    WorkSpaceInfos flags sk = Returns (infos, None) ∧
    ids = (λ w, SpaceID_String (ws_id w)) <$> infos ∧
    NoDup ids ∧
    Forall (λ w, ws_using w = true ∧
                 (flags_ContainsAll flags = false → ws_state w ∈ flags_States flags)) infos ∧
    (∀ l w, l ∈ workSpaceList sk → store sk !! l = Some w →
       flags_ContainsAll flags = true ∨ ws_state w ∈ flags_States flags →
       w ∈ infos).
Proof.
  intros [Hu Hn].
  pose proof (listed_all_live sk Hu) as Hlive.
  unfold WorkSpaceIDs, WorkSpaceInfos.
  assert (Hsel : ∃ sel,
    sublist sel (workSpaceList sk) ∧
    (∀ l, l ∈ sel ↔ l ∈ workSpaceList sk ∧
        (flags_ContainsAll flags = true ∨
         ∃ w, store sk !! l = Some w ∧ ws_state w ∈ flags_States flags)) ∧
    (if flags_ContainsAll flags then sel = workSpaceList sk
     else getWsByFlags (store sk) (workSpaceList sk) (flags_States flags) = Returns sel)).
  { destruct (flags_ContainsAll flags).
    - exists (workSpaceList sk). split_and!; [done | | done].
      intros l. split; [by auto | by intros [? _]].
    - destruct (getWsByFlags_total (store sk) (workSpaceList sk) (flags_States flags) Hlive)
        as [sel Hsel].
      exists sel. destruct (getWsByFlags_spec _ _ _ _ Hsel) as [Hsub Hin].
      split_and!; [done | | done].
      intros l. rewrite Hin. split; [intros [? ?]; by auto |].
      by intros [? [? | ?]]. }
  destruct Hsel as (sel & Hsub & Hin & Hget).
  destruct (ids_infos_of (store sk) sel (all_live_sublist _ _ _ Hsub Hlive))
    as (ids & infos & Hids & Hinfos & Heq & Hlook & Hnd).
  exists ids, infos.
  assert (Hmem : ∀ w, w ∈ infos ↔ ∃ l, l ∈ sel ∧ store sk !! l = Some w).
  { intros w. rewrite <- (list_elem_of_fmap_inj Some), Hlook, list_elem_of_fmap.
    split; intros (l & ? & ?); by exists l. }
  split_and!.
  - destruct (flags_ContainsAll flags).
    + subst sel. by rewrite Hids.
    + rewrite Hget. simpl. by rewrite Hids.
  - destruct (flags_ContainsAll flags).
    + subst sel. by rewrite Hinfos.
    + rewrite Hget. simpl. by rewrite Hinfos.
  - done.
  - apply Hnd. unfold list_no_dup in Hn. eapply sublist_NoDup; [exact Hn |].
    unfold sids_of. by apply fmap_sublist.
  - apply Forall_forall. intros w (l & Hl & Hw)%Hmem.
    apply Hin in Hl as [Hl Hf]. split.
    + apply Hu in Hl as (w' & Hw' & ?). congruence.
    + intros Hall. destruct Hf as [? | (w' & Hw' & ?)]; congruence.
  - intros l w Hl Hw Hf. apply Hmem. exists l. split; [| done].
    apply Hin. split; [done |]. destruct Hf; [by left | right; by exists w].
Qed.

(** *** The verbs over a selection *)

Lemma multi_loop_spec (be : PlotBackend) (action : ActionType)
    (verb : string → SpaceKeeper W → outcome (SpaceKeeper W * option error))
    (sel : list loc) (result : gmap string (option error)) sk sk'
    (errs : gmap string (option error)) :
  (∀ sid sk, verb sid sk = ActOnWorkSpace be sid action sk) →
  index_inv sk → list_inv sk →
  multi_loop verb sel result sk = Returns (sk', errs) →
  index_inv sk' ∧ list_inv sk' ∧
  (∀ x, sid_of (store sk') x = sid_of (store sk) x) ∧
  ∀ sid, is_Some (errs !! sid) ↔
         is_Some (result !! sid) ∨ Some sid ∈ sids_of (store sk) sel.
Proof.
  intros Hverb. revert result sk.
  induction sel as [| l sel IH]; intros result sk Hix Hl; simpl.
  - intros [= <- <-]. split_and!; [done | done | done |].
    intros sid. split; [by left | intros [? | ?%elem_of_nil]; done].
  - destruct (sid_at (store sk) l) as [s| | |] eqn:Hs; simpl; try done.
    rewrite Hverb.
    destruct (ActOnWorkSpace be s action sk) as [[sk1 err]| | |] eqn:Hact; simpl; try done.
    pose proof (ActOnWorkSpace_ids _ _ _ _ _ _ Hact) as Hids.
    pose proof (ActOnWorkSpace_index_inv _ _ _ _ _ _ Hix Hact) as Hix1.
    pose proof (ActOnWorkSpace_list_inv _ _ _ _ _ _ (proj1 Hix) Hl Hact) as Hl1.
    intros (Hix' & Hl' & Hids' & Hdom)%IH; [| done | done].
    split_and!; [done | done | intros x; by rewrite Hids', Hids |].
    intros sid. rewrite Hdom, lookup_insert_is_Some.
    apply sid_at_Returns in Hs.
    assert (Hsame : sids_of (store sk1) sel = sids_of (store sk) sel).
    { unfold sids_of. apply list_fmap_ext. intros ? x _. apply Hids. }
    rewrite Hsame. unfold sids_of at 2. simpl. fold (sid_of (store sk) l).
    fold (sids_of (store sk) sel). rewrite Hs, elem_of_cons.
    destruct (decide (s = sid)) as [-> | Hne].
    + split; [intros _; right; by left | intros _; left; by left].
    + split.
      * intros [[? | [_ ?]] | ?]; [done | by left | right; by right].
      * intros [? | [[= ?] | ?]]; [left; by right | done | by right].
Qed.

Lemma multi_selection (be : PlotBackend) (action : ActionType)
    (verb : string → SpaceKeeper W → outcome (SpaceKeeper W * option error))
    (flags : list WorkSpaceState) sk sk' (errs : gmap string (option error)) :
  (∀ sid sk, verb sid sk = ActOnWorkSpace be sid action sk) →
  index_inv sk → list_inv sk →
  (let* sel := getWsByFlags (store sk) (workSpaceList sk) flags in
   multi_loop verb sel ∅ sk) = Returns (sk', errs) →
  index_inv sk' ∧ list_inv sk' ∧
  (∀ x, sid_of (store sk') x = sid_of (store sk) x) ∧
  ∀ sid, is_Some (errs !! sid) ↔
    ∃ l w, l ∈ workSpaceList sk ∧ store sk !! l = Some w ∧ ws_state w ∈ flags ∧
           SpaceID_String (ws_id w) = sid.
Proof.
  intros Hverb Hix Hl.
  destruct (getWsByFlags _ _ _) as [sel| | |] eqn:Hsel; simpl; try done.
  apply getWsByFlags_spec in Hsel as [_ Hin].
  intros (? & ? & ? & Hdom)%(multi_loop_spec be action); [| done..].
  split_and!; [done.. |]. intros sid. rewrite Hdom, lookup_empty.
  unfold sids_of. rewrite list_elem_of_fmap. split.
  - intros [[? [=]] | (l & Hs & (Hl' & w & Hw & Hf)%Hin)].
    exists l, w. rewrite Hw in Hs. simpl in Hs. injection Hs as ->. done.
  - intros (l & w & Hl' & Hw & Hf & <-). right. exists l. rewrite Hw. split; [done |].
    apply Hin. split; [done |]. by exists w.
Qed.

(** X11: ActOnWorkSpaces with an invalid action returns InvalidAction
    with no result map and changes nothing. With one of the five verbs it
    returns a nil error, the result map has an entry exactly for the sids
    of the listed WorkSpaces that were in one of the given states when the
    call started, no WorkSpace changes its identity, and the invariants of
    the indexes and of workSpaceList hold again afterwards. *)
Theorem X11_ActOnWorkSpaces_reports_on_the_selection (be : PlotBackend)
    (flags : list WorkSpaceState) (action : ActionType) sk sk'
    (errs : gmap string (option error)) (e : option error) :
  index_inv sk → list_inv sk →
  ActOnWorkSpaces be flags action sk = Returns (sk', (errs, e)) →
  index_inv sk' ∧ list_inv sk' ∧
  (∀ x, sid_of (store sk') x = sid_of (store sk) x) ∧
  (e = None ↔ action_IsValid action = true) ∧
  (e ≠ None → e = Some ErrInvalidAction ∧ errs = ∅ ∧ sk' = sk) ∧
  (e = None → ∀ sid, is_Some (errs !! sid) ↔
     ∃ l w, l ∈ workSpaceList sk ∧ store sk !! l = Some w ∧ ws_state w ∈ flags ∧
            SpaceID_String (ws_id w) = sid).
Proof.
  intros Hix Hl. unfold ActOnWorkSpaces.
  destruct (verb_of (W := W) be action) as [verb|] eqn:Hverb.
  - assert (Hv : ∀ sid sk, verb sid sk = ActOnWorkSpace be sid action sk)
      by (destruct action; simpl in Hverb; [injection Hverb as <-; done.. | discriminate]).
    assert (Hrun : ∀ r,
      (let* (sk', errs) :=
         (let* sel := getWsByFlags (store sk) (workSpaceList sk) flags in
          multi_loop verb sel ∅ sk) in Returns (sk', (errs, None))) = Returns (sk', (errs, e)) →
      r = action_IsValid action → r = true →
      index_inv sk' ∧ list_inv sk' ∧
      (∀ x, sid_of (store sk') x = sid_of (store sk) x) ∧
      (e = None ↔ r = true) ∧
      (e ≠ None → e = Some ErrInvalidAction ∧ errs = ∅ ∧ sk' = sk) ∧
      (e = None → ∀ sid, is_Some (errs !! sid) ↔
         ∃ l w, l ∈ workSpaceList sk ∧ store sk !! l = Some w ∧ ws_state w ∈ flags ∧
                SpaceID_String (ws_id w) = sid)).
    { intros r Hrun _ ->. revert Hrun.
      destruct (obind (getWsByFlags _ _ _) _) as [[sk1 errs1]| | |] eqn:Hm; simpl; try done.
      intros [= <- <- <-].
      destruct (multi_selection be action verb flags sk sk1 errs1 Hv Hix Hl Hm)
        as (? & ? & ? & ?).
      split_and!; done. }
    destruct action; simpl in Hverb; try done; injection Hverb as <-; simpl; intros Hr;
      by apply (Hrun true Hr).
  - destruct action; try done. simpl. intros [= <- <- <-].
    split_and!; try done.
Qed.

(** *** Proof lookup *)

Lemma ccache_Get_cap (key : string) (c : CCache) :
  cache_cap (ccache_Get key c).2 = cache_cap c.
Proof. unfold ccache_Get. by destruct (cache_find _ _). Qed.

Lemma getProof_frame (be : PlotBackend) (l : loc) (challenge : Hash) sk sk' r :
  getProof be l challenge sk = Returns (sk', r) →
  ∃ c, sk' = with_cache c sk ∧ cache_cap c = cache_cap (proofCache sk).
Proof.
  unfold getProof. destruct (store sk !! l) as [w|]; simpl; [| done].
  pose proof (ccache_Get_cap (cache_key (SpaceID_String (ws_id w)) challenge) (proofCache sk))
    as Hcap.
  destruct (ccache_Get _ _) as [[v|] c]; intros [= <- <-]; eexists; split; done.
Qed.

(** X12: GetProof changes nothing in the SpaceKeeper but the content of
    the proof cache (its capacity stays). It returns
    SpaceKeeperIsNotRunning exactly when the service is not started,
    WorkSpaceDoesNotExist only when the service runs and the sid is not
    indexed or not in use, and with an error it returns no proof and
    leaves the cache alone too; with a nil error it returns a proof
    record. *)
Theorem X12_GetProof_touches_only_the_cache (be : PlotBackend) (sid : string)
    (challenge : Hash) sk sk' (r : option WorkSpaceProof) (e : option error) :
  GetProof be sid challenge sk = Returns (sk', (r, e)) →
  (∃ c, sk' = with_cache c sk ∧ cache_cap c = cache_cap (proofCache sk)) ∧
  (e = Some ErrSpaceKeeperIsNotRunning ↔ started sk = false) ∧
  (e = Some ErrWorkSpaceDoesNotExist ↔
     started sk = true ∧ known_and_using sk sid = Returns false) ∧
  (e = None ↔ is_Some r) ∧
  (e ≠ None → sk' = sk) ∧
  (e = None ∨ e = Some ErrSpaceKeeperIsNotRunning ∨ e = Some ErrWorkSpaceDoesNotExist).
Proof.
  unfold GetProof. destruct (started sk) eqn:Hs; simpl.
  - destruct (known_and_using sk sid) as [[|]| | |] eqn:Hk; simpl; try done.
    + destruct (index_Get sk allState sid) as [l|]; simpl; [| done].
      destruct (getProof be l challenge sk) as [[sk1 r1]| | |] eqn:Hg; simpl; try done.
      intros [= <- <- <-]. apply getProof_frame in Hg.
      split_and!; try done; [split; [done | by intros [? [=]]] | by left].
    + intros [= <- <- <-].
      split_and!; try done; try (by intros [? ?]); try (by auto).
      exists (proofCache sk). by rewrite with_cache_same.
  - intros [= <- <- <-].
    split_and!; try done; try (by intros [? ?]); try (by auto);
      try (split; [done | by intros [? ?]]).
    exists (proofCache sk). by rewrite with_cache_same.
Qed.
End QueriesProps.

(** ** The list helpers, seeding and the index *)

Section SliceAndIndex.
Context {W : Type} {wallet_ops : PoCWallet W} {params : PoCParams}.
Implicit Type sk : SpaceKeeper W.

Lemma sids_of_cons (st : list WorkSpace) (l : loc) (ls : list loc) :
  sids_of st (l :: ls) = sid_of st l :: sids_of st ls.
Proof. done. Qed.

Lemma sid_at_live (st : list WorkSpace) (l : loc) (w : WorkSpace) :
  st !! l = Some w → sid_at st l = Returns (SpaceID_String (ws_id w)).
Proof. unfold sid_at. by intros ->. Qed.

Lemma getWsByID_none (st : list WorkSpace) (ls : list loc) (sid : string) :
  all_live st ls → (getWsByID st ls sid = Returns None ↔ Some sid ∉ sids_of st ls).
Proof.
  induction 1 as [| l ls [w Hw] _ IH].
  { split; [intros _; apply not_elem_of_nil | done]. }
  cbn [getWsByID]. rewrite (sid_at_live _ _ _ Hw), sids_of_cons. cbn [obind].
  unfold sid_of at 1. rewrite Hw. cbn [fmap option_fmap option_map].
  rewrite not_elem_of_cons, <- IH. case_decide as Hsid.
  - split; [done | intros [? _]; congruence].
  - split; [intros ?; split; [congruence | done] | by intros [_ ?]].
Qed.

(** X13: deleteFromSlice over live WorkSpaces always returns. When no
    WorkSpace of the list has the sid it returns the list as it is;
    otherwise it drops the first WorkSpace with that sid, the one that
    getWsByID finds, and nothing else. A later WorkSpace with the same sid
    stays: getWsByID finds none afterwards only if the sid was listed at
    most once. *)
Theorem X13_deleteFromSlice_drops_the_first (st : list WorkSpace) (ls : list loc)
    (sid : string) :
  all_live st ls →
  ∃ r, deleteFromSlice st ls sid = Returns r ∧
    (((Some sid ∉ sids_of st ls) ∧ r = ls ∧ getWsByID st ls sid = Returns None) ∨
     (∃ pre l post,
        ls = pre ++ l :: post ∧ r = pre ++ post ∧
        sid_of st l = Some sid ∧ (Some sid ∉ sids_of st pre) ∧
        getWsByID st ls sid = Returns (Some l) ∧
        (getWsByID st r sid = Returns None ↔ Some sid ∉ sids_of st post))).
Proof.
  induction 1 as [| l ls [w Hw] Hlive IH].
  { exists []. split; [done |]. left. split_and!; [apply not_elem_of_nil | done | done]. }
  cbn [deleteFromSlice getWsByID]. rewrite (sid_at_live _ _ _ Hw). cbn [obind].
  assert (Hl : sid_of st l = Some (SpaceID_String (ws_id w)))
    by (unfold sid_of; by rewrite Hw).
  case_decide as Hsid.
  - exists ls. split; [done |]. right. exists [], l, ls.
    split_and!; [done | done | by rewrite Hl, Hsid | apply not_elem_of_nil | done |].
    by apply getWsByID_none.
  - destruct IH as (r & -> & IH). cbn [obind]. exists (l :: r). split; [done |].
    destruct IH as [(Hnot & -> & Hnone) | (pre & x & post & -> & -> & Hx & Hpre & Hfind & Hafter)].
    + left. split_and!; [| done | done].
      rewrite sids_of_cons, Hl. apply not_elem_of_cons. split; [congruence | done].
    + right. exists (l :: pre), x, post. split_and!; [done | done | done | | done |].
      * rewrite sids_of_cons, Hl. apply not_elem_of_cons. split; [congruence | done].
      * rewrite <- Hafter. cbn [app getWsByID]. rewrite (sid_at_live _ _ _ Hw). cbn [obind].
        by rewrite decide_False by done.
Qed.

(** *** Seeding *)

(** X14: ResetDBDirs never changes the directories of a seeded
    SpaceKeeper. For a list of new directories without repetition the
    test is exact: it returns nil exactly when the new list is a
    permutation of the seeded one, and SpaceKeeperChangeDBDirs
    otherwise. While the service runs it returns SpaceKeeperIsRunning and
    changes nothing, and on an unseeded SpaceKeeper it stores the new list
    and hands over to the initial indexing. *)
Theorem X14_ResetDBDirs_exact_without_repetition
    (hook : SpaceKeeper W → outcome (SpaceKeeper W * option error))
    (newDirs : list string) sk :
  NoDup newDirs →
  (started sk = true →
     ResetDBDirs hook newDirs sk = Returns (sk, Some ErrSpaceKeeperIsRunning)) ∧
  (started sk = false → dbDirs sk = [] →
     ResetDBDirs hook newDirs sk = hook (with_dbDirs newDirs sk)) ∧
  (started sk = false → dbDirs sk ≠ [] →
     ∃ e, ResetDBDirs hook newDirs sk = Returns (sk, e) ∧
          (e = None ↔ newDirs ≡ₚ dbDirs sk) ∧
          (e = None ∨ e = Some ErrSpaceKeeperChangeDBDirs)).
Proof.
  intros Hnd. split_and!.
  - intros Hs. unfold ResetDBDirs. by rewrite Hs.
  - intros Hs Hd. unfold ResetDBDirs. rewrite Hs, Hd. done.
  - intros Hs Hd. rewrite (ResetDBDirs_seeded hook newDirs sk Hs Hd).
    eexists. split; [done |].
    destruct (strSliceEqual newDirs (dbDirs sk)) eqn:Heq.
    + split; [| by left]. split; [intros _ | done].
      apply strSliceEqual_true in Heq as [Hlen Hin].
      apply submseteq_length_Permutation; [| lia].
      by apply NoDup_submseteq.
    + split; [| by right]. split; [done |]. intros Hp.
      assert (strSliceEqual newDirs (dbDirs sk) = true); [| congruence].
      apply strSliceEqual_true. split; [by rewrite Hp |].
      intros dir. by rewrite Hp.
Qed.

(** *** The index *)

Lemma addWorkSpaceToIndex_lookup (l : loc) (w : WorkSpace) sk (b : bucket) (sid' : string) :
  index_Get sk allState (SpaceID_String (ws_id w)) = None →
  index_Get
    (with_index
       (index_upd
          (index_upd (workSpaceIndex sk) allState (insert (SpaceID_String (ws_id w)) l))
          (OfState (ws_state w)) (insert (SpaceID_String (ws_id w)) l)) sk) b sid' =
  if decide ((b = allState ∨ b = OfState (ws_state w)) ∧ sid' = SpaceID_String (ws_id w))
  then Some l else index_Get sk b sid'.
Proof.
  intros Hnone. unfold index_Get.
  change (workSpaceIndex (with_index ?ix _)) with ix. rewrite !index_at_upd.
  destruct (decide (OfState (ws_state w) = b)) as [<- | Hb].
  - rewrite decide_False by done. rewrite lookup_insert.
    destruct (decide (SpaceID_String (ws_id w) = sid')) as [<- | Hne].
    + rewrite decide_True; [done |]. split; [by right | done].
    + rewrite decide_False; [done |]. intros [_ ?]. congruence.
  - destruct (decide (allState = b)) as [<- | Hb'].
    + rewrite lookup_insert.
      destruct (decide (SpaceID_String (ws_id w) = sid')) as [<- | Hne].
      * rewrite decide_True; [done |]. split; [by left | done].
      * rewrite decide_False; [done |]. intros [_ ?]. congruence.
    + rewrite decide_False; [done |]. intros [[? | ?] _]; congruence.
Qed.

(** X15: addWorkSpaceToIndex of a live WorkSpace returns and never moves
    or drops an entry of a well-formed index: every lookup that found a
    WorkSpace finds the same one afterwards. A sid that was not indexed
    is afterwards indexed at the new WorkSpace, in the allState slot and
    in the slot of its state and in no other; a sid that was indexed
    keeps its WorkSpace and the call changes nothing. The call touches
    only the indexes, adding it a second time changes nothing, and the
    invariant of the indexes is kept. *)
Theorem X15_addWorkSpaceToIndex_never_overwrites (l : loc) (w : WorkSpace) sk :
  index_wf sk → store sk !! l = Some w →
  ∃ sk',
    addWorkSpaceToIndex l sk = Returns sk' ∧
    sk' = with_index (workSpaceIndex sk') sk ∧
    (∀ b sid' l', index_Get sk b sid' = Some l' → index_Get sk' b sid' = Some l') ∧
    (is_Some (index_Get sk allState (SpaceID_String (ws_id w))) → sk' = sk) ∧
    (index_Get sk allState (SpaceID_String (ws_id w)) = None →
       ∀ b, index_Get sk' b (SpaceID_String (ws_id w)) =
            if decide (b = allState ∨ b = OfState (ws_state w)) then Some l else None) ∧
    addWorkSpaceToIndex l sk' = Returns sk' ∧
    (index_inv sk → index_inv sk').
Proof.
  intros Hwf Hw.
  destruct (addWorkSpaceToIndex l sk) as [sk'| | |] eqn:Hadd;
    try (revert Hadd; unfold addWorkSpaceToIndex; rewrite Hw; simpl;
         by destruct (index_Get sk allState _)).
  exists sk'. pose proof (addWorkSpaceToIndex_keeps _ _ _ Hadd) as [_ Hinv].
  apply addWorkSpaceToIndex_Returns in Hadd as (w' & Hw' & Hadd).
  assert (w' = w) as -> by congruence.
  destruct (index_Get sk allState (SpaceID_String (ws_id w))) as [l0|] eqn:Hall.
  - subst sk'. split_and!; try done.
    + by destruct sk.
    + unfold addWorkSpaceToIndex. rewrite Hw. simpl. by rewrite Hall.
  - subst sk'. split_and!; try done.
    + intros b sid' l' Hget. rewrite addWorkSpaceToIndex_lookup by done.
      case_decide as Hc; [| done]. destruct Hc as [Hb ->].
      destruct Hb as [-> | ->]; [congruence |].
      destruct (Hwf _ _ _ Hget) as [Hget' _]. congruence.
    + intros _ b. rewrite addWorkSpaceToIndex_lookup by done.
      destruct (decide (b = allState ∨ b = OfState (ws_state w))) as [Hb | Hb].
      * by rewrite decide_True.
      * rewrite decide_False by (by intros [? _]).
        destruct b as [s|]; [| by destruct Hb; left].
        destruct (index_Get sk (OfState s) _) as [l'|] eqn:Hget; [| done].
        destruct (Hwf _ _ _ Hget) as [Hget' _]. congruence.
    + unfold addWorkSpaceToIndex. change (store (with_index _ sk)) with (store sk).
      rewrite Hw. cbn [obind must].
      rewrite addWorkSpaceToIndex_lookup by done.
      rewrite decide_True; [done |]. split; [by left | done].
Qed.
End SliceAndIndex.

(** ** The generation of plots *)

Section Generation.
Context {W : Type} {wallet_ops : PoCWallet W} {params : PoCParams}.
Implicit Type sk : SpaceKeeper W.

Lemma fresh_plot_grows sk sk' (bl : Z) (l : loc) :
  grows sk sk' → fresh_plot sk bl l → fresh_plot sk' bl l.
Proof.
  intros [_ (new & Hst & _)] (w & Hw & ?). exists w. split; [| done].
  rewrite Hst. by apply lookup_app_l_Some.
Qed.

Lemma NewWorkSpace_total be ord pk bl sk :
  dbDirs sk ≠ [] →
  ∃ sk1 r, NewWorkSpace be ord pk bl sk = Returns (sk1, r) ∧
    match r with
    | inl l => fresh_plot sk1 bl l
    | inr err => ∃ msg, err = ErrForeign msg
    end.
Proof.
  intros Hd. unfold NewWorkSpace.
  destruct (dbDirs sk) as [| dir dirs] eqn:Hdirs; [congruence |]. cbn [lookup list_lookup must obind].
  destruct (NewWorkSpace_err _ _ _ _ _ _) as [msg|].
  - eexists _, _. split; [done |]. by exists msg.
  - eexists _, _. split; [done |]. eexists. split.
    { cbn [store with_store]. rewrite lookup_app_r by lia. by rewrite Nat.sub_diag. }
    done.
Qed.

Lemma generateNewWorkSpace_total be bl sk :
  dbDirs sk ≠ [] →
  ∃ sk1 r, generateNewWorkSpace be bl sk = Returns (sk1, r) ∧
    match r with
    | inl l => fresh_plot sk1 bl l
    | inr err => ∃ msg, err = ErrForeign msg
    end.
Proof.
  intros Hd. unfold generateNewWorkSpace.
  destruct (GenerateNewPublicKey (wallet sk)) as [w' [[pk ord] | msg]].
  - by apply NewWorkSpace_total.
  - eexists _, _. split; [done |]. by exists msg.
Qed.

Lemma keeps_dbDirs sk sk' : keeps sk sk' → dbDirs sk' = dbDirs sk.
Proof. by intros [[(_ & ? & _) _] _]. Qed.

Lemma div_step (d size : Z) :
  0 < size → size <= d → (d - size) / size = d / size - 1.
Proof.
  intros Hs Hd. replace (d - size) with (d + (-1) * size) by lia.
  rewrite Z.div_add by lia. lia.
Qed.

Lemma div_zero_small (d size : Z) :
  0 < size → 0 <= d → d / size <= 0 → d < size.
Proof.
  intros Hs Hd Hq. destruct (decide (d < size)) as [| Hge]; [done |].
  assert (1 <= d / size) by (apply Z.div_le_lower_bound; lia). lia.
Qed.

(** The generation loop of one bit length ends when it has the fuel for
    the plots that fit in the deficit. *)
Lemma generate_by_size_total (fuel : nat) (be : PlotBackend) (bl : Z) (dst : list loc)
    (cur tgt : Z) sk :
  dbDirs sk ≠ [] → 0 < BitLengthDiskSize bl → 0 <= cur <= tgt → tgt < 2 ^ 63 →
  (tgt - cur) / BitLengthDiskSize bl <= Z.of_nat fuel →
  ∃ sk' r, generate_by_size fuel be bl dst cur tgt sk = Returns (sk', r) ∧
    grows sk sk' ∧ dbDirs sk' = dbDirs sk ∧
    match r with
    | inl (dst', cur') =>
        ∃ new, dst' = dst ++ new ∧
          cur' = cur + BitLengthDiskSize bl * Z.of_nat (length new) ∧
          cur' <= tgt ∧ tgt - cur' < BitLengthDiskSize bl ∧
          Forall (fresh_plot sk' bl) new
    | inr err => ∃ msg, err = ErrForeign msg
    end.
Proof.
  intros Hd Hsize. revert dst cur sk Hd.
  induction fuel as [| fuel IH]; intros dst cur sk Hd Hcur Htgt Hfuel.
  - cbn [generate_by_size]. unfold int_sub. rewrite wrap_id by (unfold in_int; lia).
    assert (tgt - cur < BitLengthDiskSize bl) as Hlt
      by (apply div_zero_small; lia).
    rewrite (proj2 (Z.ltb_lt _ _) Hlt).
    exists sk, (inl (dst, cur)). split_and!; [done | apply grows_refl | done |].
    exists []. rewrite app_nil_r. split_and!; [done | simpl; lia | lia | lia | done].
  - cbn [generate_by_size]. unfold int_sub. rewrite wrap_id by (unfold in_int; lia).
    destruct (tgt - cur <? BitLengthDiskSize bl) eqn:Hlt.
    { exists sk, (inl (dst, cur)). split_and!; [done | apply grows_refl | done |].
      apply Z.ltb_lt in Hlt.
      exists []. rewrite app_nil_r. split_and!; [done | simpl; lia | lia | lia | done]. }
    apply Z.ltb_ge in Hlt.
    destruct (generateNewWorkSpace_total be bl sk Hd) as (sk1 & r & Hgen & Hr).
    rewrite Hgen. cbn [obind].
    pose proof (generateNewWorkSpace_keeps _ _ _ _ _ Hgen) as Hk1.
    pose proof (generateNewWorkSpace_grows _ _ _ _ _ Hgen) as Hg1.
    destruct r as [newWS | err].
    2:{ exists sk1, (inr err). split_and!; [done | done | by apply keeps_dbDirs | done]. }
    destruct Hr as (w & Hw & Hbl & Hst & Hu).
    destruct (addWorkSpaceToIndex newWS sk1) as [sk2| | |] eqn:Hadd;
      try (revert Hadd; unfold addWorkSpaceToIndex; rewrite Hw; cbn [must obind];
           by destruct (index_Get sk1 allState _)).
    cbn [obind].
    pose proof (addWorkSpaceToIndex_keeps _ _ _ Hadd) as Hk2.
    pose proof (addWorkSpaceToIndex_grows _ _ _ Hadd) as Hg2.
    assert (Hd2 : dbDirs sk2 = dbDirs sk)
      by (rewrite (keeps_dbDirs _ _ Hk2); by apply keeps_dbDirs).
    unfold int_add. rewrite wrap_id by (unfold in_int; lia).
    destruct (IH (dst ++ [newWS]) (cur + BitLengthDiskSize bl) sk2)
      as (sk' & r & Hrun & Hg & Hd' & Hr); [by rewrite Hd2 | lia | lia | |].
    { replace (tgt - (cur + BitLengthDiskSize bl)) with (tgt - cur - BitLengthDiskSize bl)
        by lia.
      rewrite div_step by lia. lia. }
    exists sk', r. split_and!; [done | eauto using grows_trans | congruence |].
    destruct r as [[dst' cur'] | err]; [| done].
    destruct Hr as (new & -> & -> & Hle & Hlt' & Hfresh).
    exists (newWS :: new). split_and!; [by rewrite <- app_assoc | | done | done |].
    + rewrite length_cons. lia.
    + constructor; [| done]. apply (fresh_plot_grows sk2); [done |].
      apply (fresh_plot_grows sk1); [done |]. by exists w.
Qed.

Lemma Forall_fresh_grows sk sk' (bl : Z) (ls : list loc) :
  grows sk sk' → Forall (fresh_plot sk bl) ls → Forall (fresh_plot sk' bl) ls.
Proof. intros Hg H. eapply Forall_impl; [exact H |]. intros l. by apply fresh_plot_grows. Qed.

Lemma checkOSDiskSize_total be (required : Z) sk :
  dbDirs sk ≠ [] → 0 <= required →
  ∃ chk, checkOSDiskSize be required sk = Returns chk ∧
    (chk = None ∨ chk = Some ErrOSDiskSizeNotEnough ∨ ∃ msg, chk = Some (ErrForeign msg)).
Proof.
  intros Hd Hr. unfold checkOSDiskSize.
  destruct (required <? 0) eqn:Hneg; [apply Z.ltb_lt in Hneg; lia |].
  destruct (dbDirs sk) as [| dir dirs] eqn:Hdirs; [congruence |]. cbn [lookup list_lookup must obind].
  destruct (disk_Usage be dir) as [free | msg].
  - destruct (free <=? required); eexists; split; eauto.
  - eexists. split; [done |]. right. right. by exists msg.
Qed.

(** X16: the generation of ConfigureBySize ends. On a SpaceKeeper that
    may generate and has a directory, with a deficit that is not negative,
    plot sizes that are positive, and fuel for as many loop turns as
    plots of each bit length fit in the deficit,
    generateFillSpaceListBySize returns: either an error of the disk
    check, of the wallet or of the plot backend, or the given list
    followed by new WorkSpaces of bit length 28, then 26, then 24, each
    registered and not in use, whose sizes fill the deficit up to less
    than one plot of bit length 24 and never exceed it. *)
Theorem X16_generateFillSpaceListBySize_ends (fuel : nat) (be : PlotBackend)
    (dst : list loc) (cur tgt : Z) sk :
  allowGenerateNewSpace sk = true → dbDirs sk ≠ [] →
  0 <= cur <= tgt → tgt < 2 ^ 63 →
  (∀ bl, bl ∈ [28; 26; 24] →
     0 < BitLengthDiskSize bl ∧ (tgt - cur) / BitLengthDiskSize bl <= Z.of_nat fuel) →
  ∃ sk' r,
    generateFillSpaceListBySize fuel be dst cur tgt sk = Returns (sk', r) ∧
    match r with
    | inl dst' =>
        ∃ new28 new26 new24,
          dst' = dst ++ new28 ++ new26 ++ new24 ∧
          Forall (fresh_plot sk' 28) new28 ∧
          Forall (fresh_plot sk' 26) new26 ∧
          Forall (fresh_plot sk' 24) new24 ∧
          let generated := BitLengthDiskSize 28 * Z.of_nat (length new28)
                           + BitLengthDiskSize 26 * Z.of_nat (length new26)
                           + BitLengthDiskSize 24 * Z.of_nat (length new24) in
          cur + generated <= tgt ∧ tgt - (cur + generated) < BitLengthDiskSize 24
    | inr err =>
        err = ErrOSDiskSizeNotEnough ∨ ∃ msg, err = ErrForeign msg
    end.
Proof.
  intros Hallow Hd Hcur Htgt Hbl.
  assert (H28 := Hbl 28 ltac:(rewrite !elem_of_cons; auto)).
  assert (H26 := Hbl 26 ltac:(rewrite !elem_of_cons; auto)).
  assert (H24 := Hbl 24 ltac:(rewrite !elem_of_cons; auto)).
  destruct H28 as [Hs28 Hf28], H26 as [Hs26 Hf26], H24 as [Hs24 Hf24].
  unfold generateFillSpaceListBySize. rewrite Hallow. cbn [negb].
  unfold int_sub. rewrite wrap_id by (unfold in_int; lia).
  destruct (checkOSDiskSize_total be (tgt - cur) sk Hd ltac:(lia)) as (chk & -> & Hchk).
  cbn [obind].
  destruct Hchk as [-> | [-> | [msg ->]]];
    [| eexists _, _; split; [done |]; by left
     | eexists _, _; split; [done |]; right; by exists msg].
  rewrite allowedBL_descending. cbn [generate_by_size_all].
  destruct (generate_by_size_total fuel be 28 dst cur tgt sk Hd Hs28 Hcur Htgt Hf28)
    as (sk1 & r1 & -> & Hg1 & Hd1 & Hr1). cbn [obind].
  destruct r1 as [[dst1 cur1] | err]; [| eexists _, _; split; [done |]; by right].
  destruct Hr1 as (new28 & -> & -> & Hle1 & Hlt1 & Hfresh28).
  set (cur1 := cur + BitLengthDiskSize 28 * Z.of_nat (length new28)) in *.
  assert (Hmono : ∀ c size, cur <= c → c <= tgt → 0 < size →
            (tgt - cur) / size <= Z.of_nat fuel → (tgt - c) / size <= Z.of_nat fuel).
  { intros c size ? ? ? Hf. etransitivity; [| exact Hf]. apply Z.div_le_mono; lia. }
  assert (Hc1 : cur <= cur1) by (unfold cur1; nia).
  destruct (generate_by_size_total fuel be 26 (dst ++ new28) cur1 tgt sk1)
    as (sk2 & r2 & -> & Hg2 & Hd2 & Hr2); [congruence | done | lia | done | by apply Hmono |].
  cbn [obind].
  destruct r2 as [[dst2 cur2'] | err]; [| eexists _, _; split; [done |]; by right].
  destruct Hr2 as (new26 & -> & -> & Hle2 & Hlt2 & Hfresh26).
  set (cur2 := cur1 + BitLengthDiskSize 26 * Z.of_nat (length new26)) in *.
  assert (Hc2 : cur1 <= cur2) by (unfold cur2; nia).
  destruct (generate_by_size_total fuel be 24 ((dst ++ new28) ++ new26) cur2 tgt sk2)
    as (sk3 & r3 & -> & Hg3 & Hd3 & Hr3);
    [congruence | done | lia | done | apply Hmono; lia |].
  cbn [obind].
  destruct r3 as [[dst3 cur3] | err]; [| eexists _, _; split; [done |]; by right].
  destruct Hr3 as (new24 & -> & -> & Hle3 & Hlt3 & Hfresh24).
  eexists _, _. split; [done |]. exists new28, new26, new24.
  split_and!.
  - by rewrite <- !app_assoc.
  - eapply Forall_fresh_grows; [exact Hg3 |]. by eapply Forall_fresh_grows.
  - by eapply Forall_fresh_grows.
  - done.
  - unfold cur2, cur1 in *. lia.
  - unfold cur2, cur1 in *. lia.
Qed.
End Generation.

(** ** The indexed WorkSpaces by bit length *)

Section Grouping.
Context {W : Type} {wallet_ops : PoCWallet W} {params : PoCParams}.
Implicit Type sk : SpaceKeeper W.

Lemma insert_item_perm (it : queueItem) (l : list queueItem) :
  insert_item it l ≡ₚ it :: l.
Proof.
  induction l as [| x r IH]; [done |]. cbn [insert_item].
  destruct (prio_leb _ _); [| done]. rewrite IH. apply perm_swap.
Qed.

Lemma ws_in_Push (it : queueItem) (q : plotterQueue) :
  ws_in (pq_Push it q) ≡ₚ qws_ws (item_qws it) :: ws_in q.
Proof. unfold ws_in, pq_Push. cbn [pending]. by rewrite insert_item_perm. Qed.

Lemma pop_all_items (items : list queueItem) (p : option queuedWorkSpace) :
  pop_all (length items) (mkQueue items p) =
    Returns ((λ it, qws_ws (item_qws it)) <$> items).
Proof.
  revert p. induction items as [| x r IH]; intros p; [done |].
  cbn [length pop_all]. unfold pq_PopItem. cbn [pending must obind].
  rewrite IH. done.
Qed.

Lemma pop_all_spec (q : plotterQueue) : pop_all (pq_Size q) q = Returns (ws_in q).
Proof. destruct q as [items p]. apply pop_all_items. Qed.

Lemma pop_queues_spec (qs : list (Z * plotterQueue)) (rm : gmap Z (list loc)) :
  NoDup qs.*1 →
  ∃ rm', pop_queues qs rm = Returns rm' ∧
    ∀ bl, rm' !! bl =
      match (list_to_map qs : gmap Z plotterQueue) !! bl with
      | Some q => Some (ws_in q)
      | None => rm !! bl
      end.
Proof.
  revert rm. induction qs as [| [b q] r IH]; intros rm Hnd.
  { exists rm. split; [done |]. intros bl.
    change (list_to_map [] : gmap Z plotterQueue) with (∅ : gmap Z plotterQueue).
    by rewrite lookup_empty. }
  cbn [pop_queues]. rewrite pop_all_spec. cbn [obind].
  rewrite fmap_cons in Hnd. apply NoDup_cons in Hnd as [Hb Hnd].
  destruct (IH (<[b := ws_in q]> rm) Hnd) as (rm' & -> & Hrm).
  exists rm'. split; [done |]. intros bl. rewrite Hrm. cbn [list_to_map foldr].
  change (foldr _ ∅ r) with (list_to_map r : gmap Z plotterQueue). cbn [fst snd] in *.
  destruct (decide (b = bl)) as [<- | Hne].
  - rewrite (not_elem_of_list_to_map_1 (M := gmap Z) r b Hb). by rewrite !lookup_insert_eq.
  - by rewrite !lookup_insert_ne by done.
Qed.

Lemma push_by_bitLength_spec (st : list WorkSpace) (entries : list (string * loc))
    (qm : gmap Z plotterQueue) :
  all_live st entries.*2 →
  ∃ qm', push_by_bitLength st entries qm = Returns qm' ∧
    (∀ bl, ws_in (default newPlotterQueue (qm' !! bl)) ≡ₚ
           ws_in (default newPlotterQueue (qm !! bl)) ++ of_bitLength st bl entries.*2) ∧
    ((∀ b q, qm !! b = Some q → pending q ≠ []) →
     ∀ b q, qm' !! b = Some q → pending q ≠ []).
Proof.
  revert qm. induction entries as [| [sid l] r IH]; intros qm Hlive.
  { exists qm. split_and!; [done | | done]. intros bl. by rewrite app_nil_r. }
  rewrite fmap_cons in Hlive. apply Forall_cons in Hlive as [[w Hw] Hlive].
  cbn [push_by_bitLength]. cbn [snd] in Hw. rewrite Hw. cbn [must obind].
  unfold queue_item. cbn [qws_ws newQueuedWorkSpace]. rewrite Hw. cbn [must obind].
  set (it := mkItem (SpaceID_String (ws_id w)) (priority w) (newQueuedWorkSpace l false)).
  destruct (IH (<[bitLength (ws_id w) :=
                   pq_Push it (default newPlotterQueue (qm !! bitLength (ws_id w)))]> qm)
              Hlive) as (qm' & -> & Hqm & Hne).
  exists qm'. split_and!; [done | |].
  - intros bl. rewrite Hqm.
    assert (Hl : bl_of st l = Some (bitLength (ws_id w))) by (unfold bl_of; by rewrite Hw).
    unfold of_bitLength. rewrite fmap_cons, filter_cons. cbn [snd]. rewrite Hl.
    destruct (decide (bitLength (ws_id w) = bl)) as [<- | Hbl].
    + rewrite lookup_insert_eq. unfold default at 1. cbn [from_option id]. rewrite ws_in_Push.
      rewrite decide_True by done. unfold it. cbn [item_qws qws_ws newQueuedWorkSpace].
      rewrite <- app_comm_cons. apply Permutation_middle.
    + rewrite lookup_insert_ne by done. rewrite decide_False by congruence. done.
  - intros H0. apply Hne. intros b q.
    destruct (decide (bitLength (ws_id w) = b)) as [<- | Hb].
    + rewrite lookup_insert_eq. intros [= <-]. unfold pq_Push. cbn [pending].
      intros Hnil.
      pose proof (insert_item_perm it
        (pending (default newPlotterQueue (qm !! bitLength (ws_id w))))) as Hp.
      rewrite Hnil in Hp. by apply Permutation_nil_cons in Hp.
    + rewrite lookup_insert_ne by done. apply H0.
Qed.

(** The buckets of [getIndexedWorkSpaces] hold the indexed WorkSpaces of
    their bit length. *)
Lemma getIndexedWorkSpaces_perm sk :
  all_live (store sk) (map_to_list (index_at (workSpaceIndex sk) allState)).*2 →
  ∃ m, getIndexedWorkSpaces sk = Returns m ∧
    (∀ bl, bucket_of m bl ≡ₚ
           of_bitLength (store sk) bl
             (map_to_list (index_at (workSpaceIndex sk) allState)).*2) ∧
    (∀ bl spaces, m !! bl = Some spaces → spaces ≠ []).
Proof.
  intros Hlive. unfold getIndexedWorkSpaces.
  destruct (push_by_bitLength_spec _ _ ∅ Hlive) as (qm & -> & Hqm & Hne). cbn [obind].
  destruct (pop_queues_spec (map_to_list qm) ∅) as (m & -> & Hm).
  { apply NoDup_fst_map_to_list. }
  exists m. split_and!; [done | |].
  - intros bl. unfold bucket_of. rewrite Hm.
    rewrite list_to_map_to_list. specialize (Hqm bl). rewrite lookup_empty in Hqm.
    rewrite lookup_empty. by destruct (qm !! bl) as [q|].
  - intros bl spaces. rewrite Hm, list_to_map_to_list, lookup_empty.
    destruct (qm !! bl) as [q|] eqn:Hq; [| done]. intros [= <-].
    unfold ws_in. intros Hnil%fmap_nil_inv. revert Hnil. eapply Hne; [| exact Hq].
    intros b q0. by rewrite lookup_empty.
Qed.

Lemma index_live sk :
  index_complete sk →
  all_live (store sk) (map_to_list (index_at (workSpaceIndex sk) allState)).*2.
Proof.
  intros Hc. apply Forall_forall. intros l ([sid l'] & -> & Hin)%list_elem_of_fmap.
  apply elem_of_map_to_list in Hin. destruct (Hc sid l' Hin) as (w & Hw & _).
  by exists w.
Qed.

Lemma of_bitLength_elem (st : list WorkSpace) (bl : Z) (ls : list loc) (l : loc) :
  l ∈ of_bitLength st bl ls ↔ l ∈ ls ∧ bl_of st l = Some bl.
Proof. unfold of_bitLength. rewrite list_elem_of_filter. tauto. Qed.

(** X18: on a SpaceKeeper whose every indexed WorkSpace is in the store,
    getIndexedWorkSpaces returns, and the list it gives for a bit length
    holds exactly the WorkSpaces of the allState slot that have this bit
    length, each once for every sid it is indexed under; a bit length
    without such a WorkSpace has no entry. *)
Theorem X18_getIndexedWorkSpaces_groups_the_index sk :
  index_complete sk →
  ∃ m, getIndexedWorkSpaces sk = Returns m ∧
    (∀ bl l, l ∈ bucket_of m bl ↔
       ∃ sid w, index_Get sk allState sid = Some l ∧ store sk !! l = Some w ∧
                bitLength (ws_id w) = bl) ∧
    (∀ bl, bucket_of m bl ≡ₚ
           of_bitLength (store sk) bl
             (map_to_list (index_at (workSpaceIndex sk) allState)).*2) ∧
    (∀ bl spaces, m !! bl = Some spaces → spaces ≠ []).
Proof.
  intros Hc.
  destruct (getIndexedWorkSpaces_perm sk (index_live sk Hc)) as (m & Hm & Hperm & Hne).
  exists m. split_and!; [done | | done | done].
  intros bl l. rewrite Hperm, of_bitLength_elem. unfold bl_of, index_Get.
  rewrite list_elem_of_fmap. split.
  - intros [([sid l'] & -> & Hin) Hbl]. apply elem_of_map_to_list in Hin.
    cbn [snd] in *. destruct (store sk !! l') as [w|]; [| done].
    exists sid, w. split_and!; [done | done |]. by injection Hbl.
  - intros (sid & w & Hin & Hw & <-). rewrite Hw. split; [| done].
    exists (sid, l). split; [done |]. by apply elem_of_map_to_list.
Qed.
End Grouping.

(** ** The planner by bit-length count meets its target *)

Section ByBitLength.
Context {W : Type} {wallet_ops : PoCWallet W} {params : PoCParams}.
Implicit Type sk : SpaceKeeper W.

Lemma count_at_insert (cc : gmap Z Z) (bl b : Z) (v : Z) :
  count_at (<[bl := v]> cc) b = if decide (bl = b) then v else count_at cc b.
Proof.
  unfold count_at. case_decide as Hb.
  - subst. by rewrite lookup_insert_eq.
  - by rewrite lookup_insert_ne.
Qed.

Lemma of_bitLength_app (st : list WorkSpace) (bl : Z) (l1 l2 : list loc) :
  of_bitLength st bl (l1 ++ l2) = of_bitLength st bl l1 ++ of_bitLength st bl l2.
Proof. unfold of_bitLength. apply filter_app. Qed.

Lemma of_bitLength_one (st : list WorkSpace) (bl b : Z) (l : loc) :
  bl_of st l = Some bl →
  length (of_bitLength st b [l]) = if decide (bl = b) then 1%nat else 0%nat.
Proof.
  intros Hl. unfold of_bitLength. rewrite filter_cons, filter_nil, Hl.
  destruct (decide (bl = b)) as [-> | Hne].
  - by rewrite decide_True.
  - rewrite decide_False; [done | congruence].
Qed.

Lemma counted_nonneg (st : list WorkSpace) (dst : list loc) (cc : gmap Z Z) (bl : Z) :
  counted st dst cc → 0 <= count_at cc bl.
Proof. intros [_ H]. rewrite <- H. lia. Qed.

(** One more WorkSpace of bit length [bl], counted. *)
Lemma counted_step (st : list WorkSpace) (dst : list loc) (cc : gmap Z Z) (bl : Z)
    (l : loc) (count : Z) :
  counted st dst cc → bl_of st l = Some bl →
  count_at cc bl < count → count < 2 ^ 63 →
  counted st (dst ++ [l]) (<[bl := int_add (count_at cc bl) 1]> cc) ∧
  int_add (count_at cc bl) 1 = count_at cc bl + 1.
Proof.
  intros Hc Hl Hlt Hcount. pose proof (counted_nonneg _ _ _ bl Hc) as H0.
  assert (Hadd : int_add (count_at cc bl) 1 = count_at cc bl + 1).
  { unfold int_add. apply wrap_id. unfold in_int. lia. }
  split; [| done]. destruct Hc as [Hlive Hc]. split.
  - apply Forall_app. split; [done |]. constructor; [| done].
    unfold bl_of in Hl. destruct (st !! l); [done | done].
  - intros b. rewrite of_bitLength_app, length_app, (of_bitLength_one st bl b l Hl).
    rewrite count_at_insert, Hadd, Nat2Z.inj_add, Hc.
    destruct (decide (bl = b)) as [-> | Hne]; lia.
Qed.

Lemma fill_bucket_by_count_counted (st : list WorkSpace) (spaces : list loc) (bl count : Z)
    (dst : list loc) (cc : gmap Z Z) (dst' : list loc) (cc' : gmap Z Z) :
  Forall (λ l, bl_of st l = Some bl) spaces →
  counted st dst cc → count_at cc bl <= count → count < 2 ^ 63 →
  fill_bucket_by_count spaces bl count dst cc = (dst', cc') →
  counted st dst' cc' ∧ count_at cc bl <= count_at cc' bl <= count ∧
  ∀ b, b ≠ bl → count_at cc' b = count_at cc b.
Proof.
  intros Hsp. revert dst cc.
  induction Hsp as [| l spaces Hl _ IH]; intros dst cc Hc Hle Hcount; cbn [fill_bucket_by_count].
  { intros [= <- <-]. split_and!; [done | lia | lia | done]. }
  destruct (count_at cc bl =? count) eqn:Heq.
  { intros [= <- <-]. split_and!; [done | lia | lia | done]. }
  apply Z.eqb_neq in Heq.
  destruct (counted_step st dst cc bl l count Hc Hl ltac:(lia) Hcount) as [Hc1 Hadd].
  intros Hrun. apply IH in Hrun as (Hc' & Hb & Hother); [| done | | done].
  2:{ rewrite count_at_insert, decide_True by done. lia. }
  rewrite count_at_insert, decide_True in Hb by done.
  split_and!; [done | lia | lia |].
  intros b Hne. rewrite (Hother b Hne), count_at_insert. by rewrite decide_False.
Qed.

Lemma fillSpaceListByBitLength_loop_counted (st : list WorkSpace) (targetCount : gmap Z Z)
    (targets : list (Z * Z)) (srcMap : gmap Z (list loc)) (dst : list loc) (cc : gmap Z Z)
    (fin : bool) (dst' : list loc) (cc' : gmap Z Z) (fin' : bool) :
  (∀ bl l, l ∈ bucket_of srcMap bl → bl_of st l = Some bl) →
  Forall (λ t, targetCount !! t.1 = Some t.2) targets →
  counted st dst cc → below_targets targetCount cc →
  fillSpaceListByBitLength_loop targets srcMap dst cc fin = (dst', cc', fin') →
  counted st dst' cc' ∧ below_targets targetCount cc' ∧
  (∀ b, count_at cc b <= count_at cc' b) ∧
  (∀ b, targetCount !! b = None → count_at cc' b = count_at cc b) ∧
  (fin' = true → fin = true ∧ Forall (λ t, count_at cc' t.1 = t.2) targets).
Proof.
  intros Hsrc Htargets. revert dst cc fin.
  induction Htargets as [| [bl count] targets Ht _ IH]; intros dst cc fin Hc Hb;
    cbn [fillSpaceListByBitLength_loop].
  { intros [= <- <- <-]. split_and!; [done | done | intros; lia | done | done]. }
  cbn [fst snd] in Ht.
  destruct (srcMap !! bl) as [spaces|] eqn:Hsp.
  - destruct (fill_bucket_by_count spaces bl count dst cc) as [dst1 cc1] eqn:Hfill.
    apply (fill_bucket_by_count_counted st) in Hfill as (Hc1 & Hb1 & Hother);
      [| | done | by apply (Hb bl count) | by apply (Hb bl count)].
    2:{ apply Forall_forall. intros l Hl. apply Hsrc. unfold bucket_of. by rewrite Hsp. }
    assert (Hbelow1 : below_targets targetCount cc1).
    { intros b c Hbc. destruct (decide (b = bl)) as [-> | Hne].
      - assert (c = count) as -> by congruence. split; [lia | by apply (Hb bl count)].
      - rewrite (Hother b Hne). by apply Hb. }
    intros Hrun. apply IH in Hrun as (Hc' & Hb' & Hmono & Hnone & Hfin); [| done | done].
    split_and!; [done | done | | |].
    + intros b. specialize (Hmono b). destruct (decide (b = bl)) as [-> | Hne]; [lia |].
      by rewrite <- (Hother b Hne).
    + intros b Hnone'. rewrite (Hnone b Hnone'). apply Hother. congruence.
    + intros Hfin'. destruct (Hfin Hfin') as [[Hf Heq%Z.eqb_eq]%andb_prop Hrest].
      split; [done |]. constructor; [| done]. cbn [fst snd].
      specialize (Hmono bl). destruct (Hb' bl count Ht). lia.
  - intros Hrun. apply IH in Hrun as (Hc' & Hb' & Hmono & Hnone & Hfin); [| done | done].
    split_and!; [done | done | done | done |].
    intros Hfin'. by destruct (Hfin Hfin').
Qed.

(** A WorkSpace that [generateNewWorkSpace] returns is fresh. *)
Lemma NewWorkSpace_fresh be ord pk bl sk sk1 (l : loc) :
  NewWorkSpace be ord pk bl sk = Returns (sk1, inl l) → fresh_plot sk1 bl l.
Proof.
  unfold NewWorkSpace. destruct (dbDirs sk !! 0%nat); cbn [must obind]; [| done].
  destruct (NewWorkSpace_err _ _ _ _ _ _); [done |]. intros [= <- <-].
  eexists. split.
  { cbn [store with_store]. rewrite lookup_app_r by lia. by rewrite Nat.sub_diag. }
  done.
Qed.

Lemma generateNewWorkSpace_fresh be bl sk sk1 (l : loc) :
  generateNewWorkSpace be bl sk = Returns (sk1, inl l) → fresh_plot sk1 bl l.
Proof.
  unfold generateNewWorkSpace.
  destruct (GenerateNewPublicKey (wallet sk)) as [w' [[pk ord] | msg]]; [| done].
  apply NewWorkSpace_fresh.
Qed.

Lemma bl_of_grows sk sk' (l : loc) :
  grows sk sk' → is_Some (store sk !! l) → bl_of (store sk') l = bl_of (store sk) l.
Proof.
  intros [_ (new & -> & _)] [w Hw]. unfold bl_of.
  by rewrite (lookup_app_l_Some _ _ _ _ Hw), Hw.
Qed.

Lemma of_bitLength_ext (st st' : list WorkSpace) (bl : Z) (ls : list loc) :
  (∀ l, l ∈ ls → bl_of st' l = bl_of st l) →
  of_bitLength st' bl ls = of_bitLength st bl ls.
Proof.
  induction ls as [| l ls IH]; intros Hext; [done |].
  unfold of_bitLength in *. rewrite !filter_cons. rewrite Hext by apply list_elem_of_here.
  rewrite IH; [done |]. intros x Hx. apply Hext. by apply list_elem_of_further.
Qed.

Lemma counted_grows sk sk' (dst : list loc) (cc : gmap Z Z) :
  grows sk sk' → counted (store sk) dst cc → counted (store sk') dst cc.
Proof.
  intros Hg [Hlive Hc]. split.
  - eapply Forall_impl; [exact Hlive |]. intros l [w Hw].
    destruct Hg as [_ (new & -> & _)]. exists w. by apply lookup_app_l_Some.
  - intros bl. rewrite <- Hc. f_equal. f_equal. apply of_bitLength_ext.
    intros l Hl. apply bl_of_grows; [done |].
    unfold all_live in Hlive. rewrite Forall_forall in Hlive. by apply Hlive.
Qed.

Lemma fresh_plot_bl sk (bl : Z) (l : loc) : fresh_plot sk bl l → bl_of (store sk) l = Some bl.
Proof. intros (w & Hw & <- & _). unfold bl_of. by rewrite Hw. Qed.

Lemma generate_by_count_counted (fuel : nat) (be : PlotBackend) (bl count : Z)
    (dst : list loc) (cc : gmap Z Z) sk sk' (dst' : list loc) (cc' : gmap Z Z) :
  counted (store sk) dst cc → count_at cc bl <= count → count < 2 ^ 63 →
  generate_by_count fuel be bl count dst cc sk = Returns (sk', inl (dst', cc')) →
  counted (store sk') dst' cc' ∧ count_at cc' bl = count ∧
  ∀ b, b ≠ bl → count_at cc' b = count_at cc b.
Proof.
  revert dst cc sk. induction fuel as [| fuel IH]; intros dst cc sk Hc Hle Hcount;
    cbn [generate_by_count].
  { destruct (count_at cc bl =? count) eqn:Heq; [| done].
    intros [= <- <- <-]. apply Z.eqb_eq in Heq. done. }
  destruct (count_at cc bl =? count) eqn:Heq.
  { intros [= <- <- <-]. apply Z.eqb_eq in Heq. done. }
  apply Z.eqb_neq in Heq.
  destruct (generateNewWorkSpace be bl sk) as [[sk1 [newWS | err]]| | |] eqn:Hgen;
    cbn [obind]; try done.
  pose proof (generateNewWorkSpace_grows _ _ _ _ _ Hgen) as Hg1.
  apply generateNewWorkSpace_fresh in Hgen.
  destruct (addWorkSpaceToIndex newWS sk1) as [sk2| | |] eqn:Hadd; cbn [obind]; try done.
  apply addWorkSpaceToIndex_grows in Hadd.
  assert (Hfresh : bl_of (store sk2) newWS = Some bl).
  { apply fresh_plot_bl. by apply (fresh_plot_grows sk1). }
  assert (Hc2 : counted (store sk2) dst cc) by eauto using counted_grows.
  destruct (counted_step (store sk2) dst cc bl newWS count Hc2 Hfresh ltac:(lia) Hcount)
    as [Hc3 Hadd1].
  intros Hrun. apply IH in Hrun as (Hc' & Hb & Hother); [| done | | done].
  2:{ rewrite count_at_insert, decide_True by done. lia. }
  split_and!; [done | done |].
  intros b Hne. rewrite (Hother b Hne), count_at_insert. by rewrite decide_False.
Qed.

Lemma generate_by_count_all_counted (fuel : nat) (be : PlotBackend) (targetCount : gmap Z Z)
    (targets : list (Z * Z)) (dst : list loc) (cc : gmap Z Z) sk sk' (dst' : list loc) :
  Forall (λ t, targetCount !! t.1 = Some t.2) targets →
  counted (store sk) dst cc → below_targets targetCount cc →
  generate_by_count_all fuel be targets dst cc sk = Returns (sk', inl dst') →
  ∃ cc', counted (store sk') dst' cc' ∧ below_targets targetCount cc' ∧
    (∀ b, count_at cc b <= count_at cc' b) ∧
    (∀ b, targetCount !! b = None → count_at cc' b = count_at cc b) ∧
    Forall (λ t, count_at cc' t.1 = t.2) targets.
Proof.
  intros Htargets. revert dst cc sk.
  induction Htargets as [| [bl count] targets Ht _ IH]; intros dst cc sk Hc Hb;
    cbn [generate_by_count_all].
  { intros [= <- <-]. exists cc. split_and!; [done | done | intros; lia | done | done]. }
  cbn [fst snd] in Ht.
  destruct (generate_by_count fuel be bl count dst cc sk) as [[sk1 [[dst1 cc1] | err]]| | |]
    eqn:Hgen; cbn [obind]; try done.
  apply generate_by_count_counted in Hgen as (Hc1 & Heq & Hother);
    [| done | by apply (Hb bl count) | by apply (Hb bl count)].
  assert (Hbelow1 : below_targets targetCount cc1).
  { intros b c Hbc. destruct (decide (b = bl)) as [-> | Hne].
    - assert (c = count) as -> by congruence. split; [lia | by apply (Hb bl count)].
    - rewrite (Hother b Hne). by apply Hb. }
  intros Hrun. apply IH in Hrun as (cc' & Hc' & Hb' & Hmono & Hnone & Hall); [| done | done].
  exists cc'. split_and!; [done | done | | |].
  - intros b. specialize (Hmono b). destruct (decide (b = bl)) as [-> | Hne].
    + destruct (Hb bl count Ht). lia.
    + by rewrite <- (Hother b Hne).
  - intros b Hnone'. rewrite (Hnone b Hnone'). apply Hother. congruence.
  - constructor; [| done]. cbn [fst snd].
    specialize (Hmono bl). destruct (Hb' bl count Ht). lia.
Qed.

Lemma push_by_bitLength_live (st : list WorkSpace) (entries : list (string * loc))
    (qm qm' : gmap Z plotterQueue) :
  push_by_bitLength st entries qm = Returns qm' → all_live st entries.*2.
Proof.
  revert qm. induction entries as [| [sid l] r IH]; intros qm; [by constructor |].
  cbn [push_by_bitLength]. destruct (st !! l) as [w|] eqn:Hw; cbn [must obind]; [| done].
  unfold queue_item. cbn [qws_ws newQueuedWorkSpace]. rewrite Hw. cbn [must obind].
  intros Hrun%IH. rewrite fmap_cons. constructor; [by exists w | done].
Qed.

Lemma getIndexedWorkSpaces_bl sk (m : gmap Z (list loc)) :
  getIndexedWorkSpaces sk = Returns m →
  ∀ bl l, l ∈ bucket_of m bl → bl_of (store sk) l = Some bl.
Proof.
  intros Hrun.
  assert (Hlive : all_live (store sk)
            (map_to_list (index_at (workSpaceIndex sk) allState)).*2).
  { revert Hrun. unfold getIndexedWorkSpaces.
    destruct (push_by_bitLength _ _ _) as [qm| | |] eqn:Hp; cbn [obind]; try done.
    intros _. by eapply push_by_bitLength_live. }
  destruct (getIndexedWorkSpaces_perm sk Hlive) as (m' & Hm' & Hperm & _).
  assert (m' = m) as -> by congruence.
  intros bl l. rewrite Hperm, of_bitLength_elem. by intros [_ ?].
Qed.

Lemma counted_empty (st : list WorkSpace) : counted st [] ∅.
Proof. split; [by constructor |]. intros bl. unfold count_at. by rewrite lookup_empty. Qed.

(** The selection of [ConfigureByBitLength] holds, of every bit length,
    as many WorkSpaces as the target asks for. *)
Lemma select_ByBitLength_counted (fuel : nat) (be : PlotBackend) (BlCount : gmap Z Z)
    sk sk1 (resultList : list loc) :
  (∀ bl count, BlCount !! bl = Some count → 0 <= count < 2 ^ 63) →
  select_ByBitLength fuel be BlCount sk = Returns (sk1, inl resultList) →
  all_live (store sk1) resultList ∧
  ∀ bl, Z.of_nat (length (of_bitLength (store sk1) bl resultList)) =
        default 0 (BlCount !! bl).
Proof.
  intros Htargets. unfold select_ByBitLength.
  destruct (getIndexedWorkSpaces sk) as [srcMap| | |] eqn:Hsrc; cbn [obind]; try done.
  pose proof (getIndexedWorkSpaces_bl sk srcMap Hsrc) as Hbl.
  unfold fillSpaceListByBitLength.
  destruct (fillSpaceListByBitLength_loop _ _ _ _ _) as [[dst cc] fin] eqn:Hfill.
  assert (Hall : Forall (λ t, BlCount !! t.1 = Some t.2) (map_to_list BlCount)).
  { apply Forall_forall. intros [bl count] Hin. by apply elem_of_map_to_list in Hin. }
  assert (Hbelow : below_targets BlCount ∅).
  { intros bl count Hc. unfold count_at. rewrite lookup_empty. cbn [default].
    by apply Htargets in Hc. }
  apply (fillSpaceListByBitLength_loop_counted (store sk) BlCount) in Hfill
    as (Hc & Hb & _ & Hnone & Hfin); [| done | done | apply counted_empty | done].
  assert (Hdone : ∀ (st : list WorkSpace) (rl : list loc) (cc' : gmap Z Z),
    counted st rl cc' →
    (∀ b, BlCount !! b = None → count_at cc' b = 0) →
    Forall (λ t, count_at cc' t.1 = t.2) (map_to_list BlCount) →
    all_live st rl ∧
    ∀ bl, Z.of_nat (length (of_bitLength st bl rl)) = default 0 (BlCount !! bl)).
  { intros st rl cc' [Hlive Hcnt] Hn Hf. split; [done |]. intros bl. rewrite Hcnt.
    destruct (BlCount !! bl) as [count|] eqn:Hbc; cbn [default]; [| by apply Hn].
    rewrite Forall_forall in Hf. by apply (Hf (bl, count)), elem_of_map_to_list. }
  assert (Hnone0 : ∀ b, BlCount !! b = None → count_at cc b = 0).
  { intros b Hb0. rewrite (Hnone b Hb0). unfold count_at. by rewrite lookup_empty. }
  destruct fin.
  { intros [= <- <-]. apply (Hdone _ _ cc); [done | done | by apply Hfin]. }
  unfold generateFillSpaceListByBitLength.
  destruct (allowGenerateNewSpace sk); cbn [negb]; [| done].
  destruct (checkOSDiskSize _ _ _) as [[err|]| | |]; cbn [obind]; try done.
  intros Hgen.
  apply (generate_by_count_all_counted _ _ BlCount) in Hgen
    as (cc' & Hc' & _ & _ & Hnone' & Hall'); [| done | done | done].
  apply (Hdone _ _ cc'); [done | | done].
  intros b Hb0. rewrite (Hnone' b Hb0). by apply Hnone0.
Qed.

Lemma bl_of_same_id_state (st st' : list WorkSpace) (l : loc) :
  same_id_state st st' → bl_of st' l = bl_of st l.
Proof.
  intros H. specialize (H l). unfold bl_of.
  destruct (st' !! l) as [w'|], (st !! l) as [w|]; simpl in *; congruence.
Qed.

Lemma infos_of_bitLength (st : list WorkSpace) (ls : list loc) (infos : list WorkSpace)
    (bl : Z) :
  infos_of st ls = Returns infos →
  length (filter (λ w, bitLength (ws_id w) = bl) infos) = length (of_bitLength st bl ls).
Proof.
  revert infos. induction ls as [| l ls IH]; intros infos; cbn [infos_of].
  { by intros [= <-]. }
  destruct (st !! l) as [w|] eqn:Hw; cbn [must obind]; [| done].
  destruct (infos_of st ls) as [r| | |]; cbn [obind]; try done.
  intros [= <-]. unfold of_bitLength. rewrite !filter_cons.
  assert (Hl : bl_of st l = Some (bitLength (ws_id w))) by (unfold bl_of; by rewrite Hw).
  specialize (IH r eq_refl). unfold of_bitLength in IH.
  destruct (decide (bitLength (ws_id w) = bl)) as [Hb | Hb].
  - rewrite (decide_True (P := bl_of st l = Some bl)) by congruence.
    cbn [length]. by rewrite IH.
  - rewrite (decide_False (P := bl_of st l = Some bl)) by congruence. done.
Qed.

(** X17: when ConfigureByBitLength succeeds for targets that are counts
    (not negative), the list it returns has, for every bit length, exactly
    as many WorkSpaces of this bit length as the target asks for, and none
    of a bit length that is not a key of the target. *)
Theorem X17_ConfigureByBitLength_meets_the_counts (fuel : nat) (be : PlotBackend)
    (BlCount : gmap Z Z) (execPlot execMine : bool) sk sk' (infos : list WorkSpace) :
  (∀ bl count, BlCount !! bl = Some count → 0 <= count < 2 ^ 63) →
  ConfigureByBitLength fuel be BlCount execPlot execMine sk = Returns (sk', (infos, None)) →
  ∀ bl, Z.of_nat (length (filter (λ w, bitLength (ws_id w) = bl) infos)) =
        default 0 (BlCount !! bl).
Proof.
  intros Htargets. unfold ConfigureByBitLength.
  destruct (planner_enter sk) as [sk0 | err]; [| done].
  destruct (select_ByBitLength _ _ _ _) as [[sk1 sel]| | |] eqn:Hsel; simpl; try done.
  destruct sel as [resultList | err]; simpl; [| done].
  apply select_ByBitLength_counted in Hsel as [_ Hcount]; [| done].
  unfold successfullyReturn_ByBitLength, failureReturn. case_decide; [done |].
  destruct (clear_using _ _) as [st| | |] eqn:Hcl; simpl; try done.
  apply clear_using_same_id_state in Hcl.
  destruct (requeue _ _ _) as [sk2| | |] eqn:Hr; simpl; try done.
  apply requeue_rebuild in Hr as [(_ & _ & Hst2) _]. simpl in Hst2.
  destruct (infos_of _ _) as [ws| | |] eqn:Hi; simpl; try done.
  intros [= <- <-] bl.
  rewrite (infos_of_bitLength _ _ _ bl Hi), <- Hcount. f_equal. f_equal.
  apply of_bitLength_ext. intros l _.
  assert (store (reset_unless (execMine || execPlot) sk2) = store sk2) as ->
    by (unfold reset_unless; by destruct (negb _)).
  rewrite (bl_of_same_id_state st (store sk2)) by done.
  by apply bl_of_same_id_state.
Qed.
End ByBitLength.

(** ** The planner by size meets its target *)

Section BySize.
Context {W : Type} {wallet_ops : PoCWallet W} {params : PoCParams}.
Implicit Type sk : SpaceKeeper W.

Lemma total_size_app (st : list WorkSpace) (l1 l2 : list loc) :
  total_size st (l1 ++ l2) = total_size st l1 + total_size st l2.
Proof.
  induction l1 as [| l l1 IH]; [done |]. cbn [app total_size foldr] in *.
  fold (total_size st (l1 ++ l2)). fold (total_size st l1). rewrite IH. lia.
Qed.

Lemma total_size_bucket (st : list WorkSpace) (bl : Z) (ls : list loc) :
  Forall (λ l, bl_of st l = Some bl) ls →
  total_size st ls = BitLengthDiskSize bl * Z.of_nat (length ls).
Proof.
  induction 1 as [| l ls Hl _ IH]; [cbn; lia |].
  cbn [total_size foldr length]. fold (total_size st ls). rewrite IH, Hl.
  unfold default. cbn [from_option id]. rewrite Nat2Z.inj_succ. lia.
Qed.

Lemma total_size_ext (st st' : list WorkSpace) (ls : list loc) :
  (∀ l, l ∈ ls → bl_of st' l = bl_of st l) → total_size st' ls = total_size st ls.
Proof.
  induction ls as [| l ls IH]; intros Hext; [done |].
  cbn [total_size foldr]. fold (total_size st ls). fold (total_size st' ls).
  rewrite Hext by apply list_elem_of_here.
  rewrite IH; [done |]. intros x Hx. apply Hext. by apply list_elem_of_further.
Qed.

Lemma infos_of_size (st : list WorkSpace) (ls : list loc) (infos : list WorkSpace) :
  infos_of st ls = Returns infos →
  plots_size infos = total_size st ls ∧
  (usable_plots st ls → Forall (λ w, bitLength (ws_id w) ∈ usableBitLength) infos).
Proof.
  revert infos. induction ls as [| l ls IH]; intros infos; cbn [infos_of].
  { intros [= <-]. split; [done | by constructor]. }
  destruct (st !! l) as [w|] eqn:Hw; cbn [must obind]; [| done].
  destruct (infos_of st ls) as [r| | |]; cbn [obind]; try done.
  intros [= <-]. destruct (IH r eq_refl) as [Hsize Huse].
  assert (Hl : bl_of st l = Some (bitLength (ws_id w))) by (unfold bl_of; by rewrite Hw).
  split.
  - cbn [plots_size total_size foldr]. fold (plots_size r). fold (total_size st ls).
    by rewrite Hsize, Hl.
  - intros [(bl & Hbl & Hl') Hrest]%Forall_cons. constructor; [| by apply Huse].
    by assert (bl = bitLength (ws_id w)) as <- by congruence.
Qed.

Lemma usable_plots_ext (st st' : list WorkSpace) (ls : list loc) :
  (∀ l, l ∈ ls → bl_of st' l = bl_of st l) → usable_plots st ls → usable_plots st' ls.
Proof.
  unfold usable_plots. rewrite !Forall_forall. intros Hext H l Hl.
  destruct (H l Hl) as (bl & ? & ?). exists bl. by rewrite Hext.
Qed.

Lemma usable_plots_live (st : list WorkSpace) (ls : list loc) (l : loc) :
  usable_plots st ls → l ∈ ls → is_Some (st !! l).
Proof.
  unfold usable_plots. rewrite Forall_forall. intros H Hl.
  destruct (H l Hl) as (bl & _ & Hbl). unfold bl_of in Hbl.
  by destruct (st !! l).
Qed.

Lemma usable_plots_bucket (st : list WorkSpace) (bl : Z) (ls : list loc) :
  bl ∈ usableBitLength → Forall (λ l, bl_of st l = Some bl) ls → usable_plots st ls.
Proof. intros Hbl H. eapply Forall_impl; [exact H |]. intros l Hl. by exists bl. Qed.

(** The generation loop of one bit length, when it ends without an
    error: it has made fresh plots of the bit length, as many as fit in
    the deficit. *)
Lemma generate_by_size_sized (fuel : nat) (be : PlotBackend) (bl : Z) (dst : list loc)
    (cur tgt : Z) sk sk' (dst' : list loc) (cur' : Z) :
  0 <= cur <= tgt → 0 <= BitLengthDiskSize bl → tgt + BitLengthDiskSize bl < 2 ^ 63 →
  generate_by_size fuel be bl dst cur tgt sk = Returns (sk', inl (dst', cur')) →
  grows sk sk' ∧
  ∃ new, dst' = dst ++ new ∧ Forall (λ l, bl_of (store sk') l = Some bl) new ∧
    cur' = cur + BitLengthDiskSize bl * Z.of_nat (length new) ∧
    cur' <= tgt ∧ tgt - cur' < BitLengthDiskSize bl.
Proof.
  intros Hcur Hsize Htgt. revert dst cur sk Hcur.
  assert (Hexit : ∀ dst cur sk, 0 <= cur <= tgt →
    tgt - cur < BitLengthDiskSize bl →
    grows sk sk ∧
    ∃ new, dst = dst ++ new ∧ Forall (λ l, bl_of (store sk) l = Some bl) new ∧
      cur = cur + BitLengthDiskSize bl * Z.of_nat (length new) ∧
      cur <= tgt ∧ tgt - cur < BitLengthDiskSize bl).
  { intros dst cur sk Hcur Hlt. split; [apply grows_refl |]. exists [].
    rewrite app_nil_r. split_and!; [done | done | simpl; lia | lia | lia]. }
  induction fuel as [| fuel IH]; intros dst cur sk Hcur; cbn [generate_by_size];
    unfold int_sub; rewrite wrap_id by (unfold in_int; lia).
  { destruct (tgt - cur <? BitLengthDiskSize bl) eqn:Hlt; [| done].
    intros [= <- <- <-]. apply Hexit; [done | by apply Z.ltb_lt]. }
  destruct (tgt - cur <? BitLengthDiskSize bl) eqn:Hlt.
  { intros [= <- <- <-]. apply Hexit; [done | by apply Z.ltb_lt]. }
  apply Z.ltb_ge in Hlt.
  destruct (generateNewWorkSpace be bl sk) as [[sk1 [newWS | err]]| | |] eqn:Hgen;
    cbn [obind]; try done.
  pose proof (generateNewWorkSpace_grows _ _ _ _ _ Hgen) as Hg1.
  apply generateNewWorkSpace_fresh in Hgen.
  destruct (addWorkSpaceToIndex newWS sk1) as [sk2| | |] eqn:Hadd; cbn [obind]; try done.
  apply addWorkSpaceToIndex_grows in Hadd.
  unfold int_add. rewrite wrap_id by (unfold in_int; lia).
  intros Hrun. apply IH in Hrun as (Hg & new & -> & Hnew & -> & Hle & Hlt'); [| lia].
  split; [eauto using grows_trans |].
  exists (newWS :: new). split_and!; [by rewrite <- app_assoc | | | done | done].
  - constructor; [| done]. apply fresh_plot_bl.
    apply (fresh_plot_grows sk2); [done |]. by apply (fresh_plot_grows sk1).
  - rewrite length_cons. lia.
Qed.

Lemma Forall_bl_grows sk sk' (bl : Z) (ls : list loc) :
  grows sk sk' → Forall (λ l, bl_of (store sk) l = Some bl) ls →
  Forall (λ l, bl_of (store sk') l = Some bl) ls.
Proof.
  intros Hg H. eapply Forall_impl; [exact H |]. intros l Hl. cbv beta in *.
  rewrite (bl_of_grows sk sk'); [done | done |].
  unfold bl_of in Hl. by destruct (store sk !! l).
Qed.

Lemma usable_28 : (28 : Z) ∈ usableBitLength.
Proof. unfold usableBitLength. rewrite !elem_of_cons. auto. Qed.
Lemma usable_26 : (26 : Z) ∈ usableBitLength.
Proof. unfold usableBitLength. rewrite !elem_of_cons. auto. Qed.
Lemma usable_24 : (24 : Z) ∈ usableBitLength.
Proof. unfold usableBitLength. rewrite !elem_of_cons. auto. Qed.

(** The selection of [ConfigureBySize]: plots of usable bit lengths whose
    sizes add up to the target, or to less than one minimal disk size or
    one smallest plot below it. *)
Lemma select_BySize_sized (fuel : nat) (be : PlotBackend) (tgt : Z) sk sk1
    (resultList : list loc) :
  sizes_fit 0 tgt →
  select_BySize fuel be tgt sk = Returns (sk1, inl resultList) →
  usable_plots (store sk1) resultList ∧
  total_size (store sk1) resultList <= tgt ∧
  (total_size (store sk1) resultList = tgt ∨
   tgt - total_size (store sk1) resultList < MinDiskSize ∨
   tgt - total_size (store sk1) resultList < BitLengthDiskSize 24).
Proof.
  intros Hfit. unfold select_BySize.
  destruct (getIndexedWorkSpaces sk) as [srcMap| | |] eqn:Hsrc; cbn [obind]; try done.
  pose proof (getIndexedWorkSpaces_bl sk srcMap Hsrc) as Hbl.
  destruct (fillSpaceListBySize_picks srcMap [] 0 tgt Hfit)
    as (p28 & p26 & p24 & fin & Hfill & _ & S28 & S26 & S24 & Hle & Hfin).
  cbv zeta in Hfill, Hle, Hfin. rewrite Hfill. cbn [app] in *.
  assert (Hb : ∀ bl p, sublist p (bucket_of srcMap bl) →
               Forall (λ l, bl_of (store sk) l = Some bl) p).
  { intros bl p Hp. apply Forall_forall. intros l Hl. apply Hbl.
    by eapply elem_of_sublist. }
  pose proof (Hb 28 p28 S28) as B28. pose proof (Hb 26 p26 S26) as B26.
  pose proof (Hb 24 p24 S24) as B24.
  set (cur := 0 + BitLengthDiskSize 28 * Z.of_nat (length p28)
                + BitLengthDiskSize 26 * Z.of_nat (length p26)
                + BitLengthDiskSize 24 * Z.of_nat (length p24)) in *.
  assert (Hsize : total_size (store sk) (p28 ++ p26 ++ p24) = cur).
  { rewrite !total_size_app, (total_size_bucket _ 28), (total_size_bucket _ 26),
      (total_size_bucket _ 24) by done. unfold cur. lia. }
  assert (Huse : usable_plots (store sk) (p28 ++ p26 ++ p24)).
  { unfold usable_plots. rewrite !Forall_app. split_and!.
    - by apply (usable_plots_bucket _ 28 _ usable_28).
    - by apply (usable_plots_bucket _ 26 _ usable_26).
    - by apply (usable_plots_bucket _ 24 _ usable_24). }
  destruct Hfit as [_ Hsz].
  destruct (Hsz 28 ltac:(rewrite !elem_of_cons; auto)) as [H28 T28].
  destruct (Hsz 26 ltac:(rewrite !elem_of_cons; auto)) as [H26 T26].
  destruct (Hsz 24 ltac:(rewrite !elem_of_cons; auto)) as [H24 T24].
  assert (Hcur0 : 0 <= cur) by (unfold cur; nia).
  destruct fin.
  { intros [= <- <-]. rewrite Hsize. split_and!; [done | done |].
    destruct (proj1 Hfin eq_refl); [by left | right; by left]. }
  unfold generateFillSpaceListBySize.
  destruct (allowGenerateNewSpace sk); cbn [negb]; [| done].
  destruct (checkOSDiskSize _ _ _) as [[err|]| | |]; cbn [obind]; try done.
  rewrite allowedBL_descending. cbn [generate_by_size_all].
  destruct (generate_by_size fuel be 28 _ cur tgt sk) as [[s1 [[d1 c1] | err]]| | |] eqn:G1;
    cbn [obind]; try done.
  apply generate_by_size_sized in G1 as (Hg1 & n28 & -> & N28 & -> & Hle1 & _);
    [| lia | done | done].
  destruct (generate_by_size fuel be 26 _ _ tgt s1) as [[s2 [[d2 c2] | err]]| | |] eqn:G2;
    cbn [obind]; try done.
  apply generate_by_size_sized in G2 as (Hg2 & n26 & -> & N26 & -> & Hle2 & _);
    [| lia | done | done].
  destruct (generate_by_size fuel be 24 _ _ tgt s2) as [[s3 [[d3 c3] | err]]| | |] eqn:G3;
    cbn [obind]; try done.
  apply generate_by_size_sized in G3 as (Hg3 & n24 & -> & N24 & -> & Hle3 & Hlt3);
    [| lia | done | done].
  intros [= <- <-].
  pose proof (grows_trans _ _ _ Hg1 (grows_trans _ _ _ Hg2 Hg3)) as Hg.
  assert (Hold : ∀ l, l ∈ p28 ++ p26 ++ p24 → bl_of (store s3) l = bl_of (store sk) l).
  { intros l Hl. apply bl_of_grows; [done |]. by eapply usable_plots_live. }
  assert (N28' : Forall (λ l, bl_of (store s3) l = Some 28) n28).
  { apply (Forall_bl_grows s2 s3); [done |]. by apply (Forall_bl_grows s1 s2). }
  assert (N26' : Forall (λ l, bl_of (store s3) l = Some 26) n26)
    by (by apply (Forall_bl_grows s2 s3)).
  assert (Htotal : total_size (store s3) ((((p28 ++ p26 ++ p24) ++ n28) ++ n26) ++ n24) =
    cur + BitLengthDiskSize 28 * Z.of_nat (length n28)
        + BitLengthDiskSize 26 * Z.of_nat (length n26)
        + BitLengthDiskSize 24 * Z.of_nat (length n24)).
  { set (old := p28 ++ p26 ++ p24) in *.
    rewrite !total_size_app, (total_size_ext (store sk) (store s3) _ Hold), Hsize.
    by rewrite (total_size_bucket _ 28), (total_size_bucket _ 26), (total_size_bucket _ 24). }
  split_and!.
  - set (old := p28 ++ p26 ++ p24) in *. unfold usable_plots. rewrite !Forall_app.
    split_and!.
    + by apply (usable_plots_ext (store sk)).
    + by apply (usable_plots_bucket _ 28 _ usable_28).
    + by apply (usable_plots_bucket _ 26 _ usable_26).
    + by apply (usable_plots_bucket _ 24 _ usable_24).
  - rewrite Htotal. lia.
  - rewrite Htotal. right. right. lia.
Qed.

(** X19: when ConfigureBySize succeeds for a target whose arithmetic does
    not wrap, every WorkSpace it returns has a usable bit length, the
    plot sizes of the returned WorkSpaces never add up to more than the
    target, and they reach the target, or stay below it by less than the
    minimal disk size, or by less than one plot of bit length 24. *)
Theorem X19_ConfigureBySize_fills_the_target (fuel : nat) (be : PlotBackend)
    (targetSize : Z) (password : string) sk sk' (infos : list WorkSpace) :
  (∀ bl, bl ∈ [28; 26; 24] →
     0 <= BitLengthDiskSize bl ∧ targetSize + BitLengthDiskSize bl < 2 ^ 63) →
  ConfigureBySize fuel be targetSize password sk = Returns (sk', (infos, None)) →
  Forall (λ w, bitLength (ws_id w) ∈ usableBitLength) infos ∧
  plots_size infos <= targetSize ∧
  (plots_size infos = targetSize ∨
   targetSize - plots_size infos < MinDiskSize ∨
   targetSize - plots_size infos < BitLengthDiskSize 24).
Proof.
  intros Hsz. unfold ConfigureBySize.
  destruct (planner_enter sk) as [sk0 | err]; [| done].
  cbn [usableBitLength lookup list_lookup must obind].
  destruct (targetSize <? BitLengthDiskSize 24) eqn:Hguard; [done |].
  apply Z.ltb_ge in Hguard.
  assert (Hfit : sizes_fit 0 targetSize).
  { split; [| done]. destruct (Hsz 24 ltac:(rewrite !elem_of_cons; auto)). lia. }
  destruct (Unlock _ _) as [w' [msg|]]; [done |].
  destruct (select_BySize _ _ _ _) as [[sk1 sel]| | |] eqn:Hsel; simpl; try done.
  destruct sel as [resultList | err]; simpl; [| done].
  apply select_BySize_sized in Hsel as (Huse & Hle & Hclose); [| done].
  unfold successfullyReturn_BySize, failureReturn. case_decide; [done |].
  destruct (clear_using _ _) as [st| | |] eqn:Hcl; simpl; try done.
  apply clear_using_same_id_state in Hcl. simpl in Hcl.
  destruct (requeue _ _ _) as [sk2| | |] eqn:Hr; simpl; try done.
  apply requeue_rebuild in Hr as [(_ & _ & Hst2) _]. simpl in Hst2.
  destruct (infos_of _ _) as [ws| | |] eqn:Hi; simpl; try done.
  intros [= <- <-].
  assert (Hsame : ∀ l, l ∈ resultList → bl_of (store sk2) l = bl_of (store sk1) l).
  { intros l _. rewrite (bl_of_same_id_state st (store sk2)) by done.
    by apply bl_of_same_id_state. }
  destruct (infos_of_size _ _ _ Hi) as [Hsize Hinfo].
  rewrite Hsize, (total_size_ext (store sk1) (store sk2) _ Hsame).
  split_and!; [| done | done].
  apply Hinfo. by apply (usable_plots_ext (store sk1)).
Qed.
End BySize.

(** ** The jobs a planner queues *)

Section Jobs.
Context {W : Type} {wallet_ops : PoCWallet W} {params : PoCParams}.
Implicit Type sk : SpaceKeeper W.

Lemma elem_of_insert_item (x it : queueItem) (l : list queueItem) :
  x ∈ insert_item it l ↔ x = it ∨ x ∈ l.
Proof. by rewrite insert_item_perm, elem_of_cons. Qed.

Lemma push_all_jobs (st : list WorkSpace) (wm : bool) (ls : list loc) (q tq : plotterQueue) :
  push_all st wm ls q = Returns tq →
  ∀ l, l ∈ ls → newQueuedWorkSpace l wm ∈ item_qws <$> pending tq.
Proof.
  assert (Hkeep : ∀ ls q tq, push_all st wm ls q = Returns tq →
            ∀ x, x ∈ item_qws <$> pending q → x ∈ item_qws <$> pending tq).
  { clear. induction ls as [| l ls IH]; intros q tq; cbn [push_all].
    - by intros [= <-].
    - destruct (queue_item st _) as [it| | |]; cbn [obind]; try done.
      intros Hrun x Hx. apply (IH _ _ Hrun). unfold pq_Push. cbn [pending].
      apply list_elem_of_fmap in Hx as (y & -> & Hy). apply list_elem_of_fmap_2.
      apply elem_of_insert_item. by right. }
  revert q. induction ls as [| l ls IH]; intros q; cbn [push_all].
  { intros _ l Hl. by apply elem_of_nil in Hl. }
  destruct (queue_item st _) as [it| | |] eqn:Hit; cbn [obind]; try done.
  intros Hrun x [-> | Hx]%elem_of_cons; [| by apply (IH _ Hrun)].
  apply (Hkeep _ _ _ Hrun). unfold pq_Push. cbn [pending].
  revert Hit. unfold queue_item. destruct (st !! _); cbn [must obind]; [| done].
  intros [= <-]. apply list_elem_of_fmap. eexists. split; [| apply elem_of_insert_item; by left].
  done.
Qed.

Lemma has_job_same_plots sk sk' (l : loc) (wm : bool) :
  same_plots sk sk' →
  (∀ it, it ∈ pending (queue sk) → it ∈ pending (queue sk')) →
  has_job sk l wm → has_job sk' l wm.
Proof.
  intros (_ & _ & Hst) Hq (w & it & Hw & Hit & Hqws & Hsid).
  destruct (same_id_state_lookup _ _ _ _ Hst Hw) as (w' & Hw' & Hid & _).
  exists w', it. split_and!; [done | by apply Hq | done | by rewrite Hid].
Qed.

Lemma useWorkSpace_queue (l : loc) sk sk' :
  useWorkSpace l sk = Returns sk' →
  queue sk' = queue sk ∧
  ∀ x, x ∈ workSpaceList sk' → x ∈ workSpaceList sk ∨ x = l.
Proof.
  unfold useWorkSpace.
  destruct (sid_at (store sk) l) as [sid| | |]; simpl; try done.
  destruct (list_has_sid _ _ sid) as [[|]| | |]; simpl; try done.
  { intros [= <-]. split; [done | by left]. }
  destruct (store sk !! l) as [w|]; simpl; [| done].
  intros [= <-]. split; [done |]. simpl. intros x.
  rewrite elem_of_app, list_elem_of_singleton. tauto.
Qed.

Lemma drain_into_jobs (qs : list queuedWorkSpace) sk sk' :
  drain_into qs sk = Returns sk' →
  same_plots sk sk' ∧
  (∀ it, it ∈ pending (queue sk) → it ∈ pending (queue sk')) ∧
  (∀ qws, qws ∈ qs → has_job sk' (qws_ws qws) (wouldMining qws)) ∧
  (∀ x, x ∈ workSpaceList sk' → x ∈ workSpaceList sk ∨ x ∈ qws_ws <$> qs).
Proof.
  revert sk. induction qs as [| qws r IH]; intros sk; cbn [drain_into].
  { intros [= <-]. split_and!; [apply same_plots_refl | done | | by left].
    intros qws Hq. by apply elem_of_nil in Hq. }
  destruct (queue_item (store sk) qws) as [it| | |] eqn:Hit; cbn [obind]; try done.
  destruct (useWorkSpace _ _) as [sk1| | |] eqn:Hu; cbn [obind]; try done.
  pose proof (useWorkSpace_same_plots _ _ _ Hu) as Hp1.
  apply useWorkSpace_queue in Hu as [Hq1 Hl1]. cbn [queue with_queue] in Hq1.
  intros (Hp & Hkeep & Hjobs & Hlist)%IH.
  assert (Hp' : same_plots sk sk').
  { eapply same_plots_trans; [| exact Hp]. destruct Hp1 as (? & ? & ?). by split_and!. }
  assert (Hin : ∀ x, x ∈ insert_item it (pending (queue sk)) → x ∈ pending (queue sk')).
  { intros x Hx. apply Hkeep. rewrite Hq1. done. }
  split_and!; [done | | |].
  - intros x Hx. apply Hin, elem_of_insert_item. by right.
  - intros q [-> | Hq]%elem_of_cons; [| by apply Hjobs].
    revert Hit. unfold queue_item.
    destruct (store sk !! qws_ws qws) as [w|] eqn:Hw; cbn [must obind]; [| done].
    intros [= <-].
    destruct Hp' as (_ & _ & Hst).
    destruct (same_id_state_lookup _ _ _ _ Hst Hw) as (w' & Hw' & Hid & _).
    eexists w', _. split_and!; [done | apply Hin, elem_of_insert_item; by left | |].
    + cbn [item_qws]. by destruct qws.
    + cbn [item_sid]. by rewrite Hid.
  - intros x [Hx | Hx]%Hlist.
    + apply Hl1 in Hx as [Hx | ->]; [by left | right]. rewrite fmap_cons. apply list_elem_of_here.
    + right. rewrite fmap_cons. by apply list_elem_of_further.
Qed.

Lemma requeue_jobs (wm : bool) (resultList : list loc) sk sk' :
  requeue wm resultList sk = Returns sk' →
  same_plots sk sk' ∧
  (∀ it, it ∈ pending (queue sk) → it ∈ pending (queue sk')) ∧
  (∀ l, l ∈ resultList → has_job sk' l wm) ∧
  (∀ x, x ∈ workSpaceList sk' → x ∈ workSpaceList sk ∨ has_job sk' x wm).
Proof.
  unfold requeue. destruct (push_all _ _ _ _) as [tq| | |] eqn:Hpush; cbn [obind]; try done.
  pose proof (push_all_jobs _ _ _ _ _ Hpush) as Hall.
  assert (Hwm : ∀ ls q tq, push_all (store sk) wm ls q = Returns tq →
            (∀ it, it ∈ pending q → wouldMining (item_qws it) = wm) →
            ∀ it, it ∈ pending tq → wouldMining (item_qws it) = wm).
  { clear. induction ls as [| l ls IH]; intros q tq; cbn [push_all].
    - by intros [= <-].
    - unfold queue_item. cbn [qws_ws newQueuedWorkSpace].
      destruct (store sk !! l) as [w|]; cbn [must obind]; [| done].
      intros Hrun H0. apply (IH _ _ Hrun). unfold pq_Push. cbn [pending].
      intros it [-> | Hit]%elem_of_insert_item; [done | by apply H0]. }
  specialize (Hwm _ _ _ Hpush).
  intros (Hp & Hkeep & Hjobs & Hlist)%drain_into_jobs.
  assert (Hj : ∀ qws, qws ∈ item_qws <$> pending tq → has_job sk' (qws_ws qws) wm).
  { intros qws Hq. pose proof (Hjobs qws Hq) as Hjob.
    apply list_elem_of_fmap in Hq as (it & -> & Hit).
    rewrite Hwm in Hjob; [done | | done]. intros ? Hnil. by apply elem_of_nil in Hnil. }
  split_and!; [done | done | |].
  - intros l Hl. by apply (Hj (newQueuedWorkSpace l wm)), Hall.
  - intros x [Hx | Hx]%Hlist; [by left | right].
    apply list_elem_of_fmap in Hx as (qws & -> & Hq). by apply Hj.
Qed.

Lemma infos_of_elem (st : list WorkSpace) (ls : list loc) (infos : list WorkSpace)
    (w : WorkSpace) :
  infos_of st ls = Returns infos → w ∈ infos → ∃ l, l ∈ ls ∧ st !! l = Some w.
Proof.
  revert infos. induction ls as [| l ls IH]; intros infos; cbn [infos_of].
  { intros [= <-] Hw. by apply elem_of_nil in Hw. }
  destruct (st !! l) as [w0|] eqn:Hw0; cbn [must obind]; [| done].
  destruct (infos_of st ls) as [r| | |]; cbn [obind]; try done.
  intros [= <-] [-> | Hw]%elem_of_cons.
  - exists l. split; [apply list_elem_of_here | done].
  - destruct (IH r eq_refl Hw) as (x & ? & ?). exists x. split; [by apply list_elem_of_further | done].
Qed.

(** The jobs of the WorkSpaces of a list answer for their snapshots. *)
Lemma queued_for_intro sk sk2 sk' (ls : list loc) (infos : list WorkSpace) (wm : bool) :
  (∀ it, it ∈ pending (queue sk) → it ∈ pending (queue sk2)) →
  (∀ l, l ∈ ls → has_job sk2 l wm) →
  infos_of (store sk2) ls = Returns infos →
  store sk' = store sk2 → queue sk' = queue sk2 →
  queued_for sk sk' infos wm.
Proof.
  intros Hkeep Hjobs Hinfos Hst Hq. split.
  - intros it Hit. rewrite Hq. by apply Hkeep.
  - intros w Hw. destruct (infos_of_elem _ _ _ _ Hinfos Hw) as (l & Hl & Hlw).
    destruct (Hjobs l Hl) as (w' & it & Hw' & Hit & Hqws & Hsid).
    assert (w' = w) as -> by congruence.
    exists it. rewrite Hq, Hst, Hqws. by split_and!.
Qed.

(** The generation of plots leaves the plotter queue alone. *)
Lemma NewWorkSpace_queue be ord pk bl sk sk' r :
  NewWorkSpace be ord pk bl sk = Returns (sk', r) → queue sk' = queue sk.
Proof.
  unfold NewWorkSpace. destruct (dbDirs sk !! 0%nat); cbn [must obind]; [| done].
  destruct (NewWorkSpace_err _ _ _ _ _ _); by intros [= <- <-].
Qed.

Lemma generateNewWorkSpace_queue be bl sk sk' r :
  generateNewWorkSpace be bl sk = Returns (sk', r) → queue sk' = queue sk.
Proof.
  unfold generateNewWorkSpace.
  destruct (GenerateNewPublicKey (wallet sk)) as [w' [[pk ord] | msg]].
  - by intros ->%NewWorkSpace_queue.
  - by intros [= <- <-].
Qed.

Lemma addWorkSpaceToIndex_queue (l : loc) sk sk' :
  addWorkSpaceToIndex l sk = Returns sk' → queue sk' = queue sk.
Proof.
  intros (w & _ & H)%addWorkSpaceToIndex_Returns.
  destruct (index_Get sk allState _); by rewrite H.
Qed.

Lemma generate_by_count_queue fuel be bl count dst cc sk sk' r :
  generate_by_count fuel be bl count dst cc sk = Returns (sk', r) → queue sk' = queue sk.
Proof.
  revert dst cc sk. induction fuel as [| fuel IH]; intros dst cc sk; cbn [generate_by_count].
  { destruct (_ =? _); [by intros [= <- <-] | done]. }
  destruct (_ =? _); [by intros [= <- <-] |].
  destruct (generateNewWorkSpace be bl sk) as [[sk1 [newWS | err]]| | |] eqn:Hgen;
    cbn [obind]; try done.
  - apply generateNewWorkSpace_queue in Hgen.
    destruct (addWorkSpaceToIndex newWS sk1) as [sk2| | |] eqn:Hadd; cbn [obind]; try done.
    apply addWorkSpaceToIndex_queue in Hadd. intros ->%IH. congruence.
  - intros [= <- <-]. by eapply generateNewWorkSpace_queue.
Qed.

Lemma generate_by_count_all_queue fuel be targets dst cc sk sk' r :
  generate_by_count_all fuel be targets dst cc sk = Returns (sk', r) → queue sk' = queue sk.
Proof.
  revert dst cc sk. induction targets as [| [bl count] targets IH]; intros dst cc sk;
    cbn [generate_by_count_all].
  { by intros [= <- <-]. }
  destruct (generate_by_count _ _ _ _ _ _ _) as [[sk1 [[dst1 cc1] | err]]| | |] eqn:Hgen;
    cbn [obind]; try done.
  - apply generate_by_count_queue in Hgen. intros ->%IH. done.
  - intros [= <- <-]. by eapply generate_by_count_queue.
Qed.

Lemma select_ByBitLength_queue fuel be BlCount sk sk' r :
  select_ByBitLength fuel be BlCount sk = Returns (sk', r) → queue sk' = queue sk.
Proof.
  unfold select_ByBitLength.
  destruct (getIndexedWorkSpaces sk) as [srcMap| | |]; cbn [obind]; try done.
  destruct (fillSpaceListByBitLength _ _ _ _) as [[dst cc] fin].
  destruct fin; [by intros [= <- <-] |].
  unfold generateFillSpaceListByBitLength.
  destruct (negb _); [by intros [= <- <-] |].
  destruct (checkOSDiskSize _ _ _) as [[err|]| | |]; cbn [obind]; try done.
  - by intros [= <- <-].
  - apply generate_by_count_all_queue.
Qed.

Lemma generateFillSpaceListByPubKey_queue be dst targets ords sk sk' r :
  generateFillSpaceListByPubKey be dst targets ords sk = Returns (sk', r) →
  queue sk' = queue sk.
Proof.
  unfold generateFillSpaceListByPubKey.
  destruct (checkOSDiskSize _ _ _) as [[err|]| | |]; cbn [obind]; try done.
  { by intros [= <- <-]. }
  revert dst sk. induction targets as [| [pk bl] rest IH]; intros dst sk;
    cbn [generate_by_pubKey].
  { by intros [= <- <-]. }
  destruct (index_Get sk allState _) as [l|]; [apply IH |].
  unfold generateNewWorkSpaceByPubKey.
  destruct (NewWorkSpace _ _ _ _ _) as [[sk1 [newWS | err]]| | |] eqn:Hn; cbn [obind];
    try done.
  - apply NewWorkSpace_queue in Hn.
    destruct (addWorkSpaceToIndex newWS sk1) as [sk2| | |] eqn:Ha; cbn [obind]; try done.
    apply addWorkSpaceToIndex_queue in Ha. intros ->%IH. congruence.
  - intros [= <- <-]. by eapply NewWorkSpace_queue.
Qed.

(** X20: a planner that is asked to start plots (execPlot or execMine)
    and succeeds leaves in the plotter queue every job that was pending
    before, and for every WorkSpace it returns a pending job under the
    sid of that WorkSpace; the job would go on to mining exactly when
    execMine is set for ConfigureByBitLength and ConfigureByPubKey, and
    always for ConfigureByFlags. *)
Theorem X20_planners_queue_what_they_return (execPlot execMine : bool) sk sk'
    (infos : list WorkSpace) :
  execMine || execPlot = true →
  (∀ (fuel : nat) (be : PlotBackend) (BlCount : gmap Z Z),
     ConfigureByBitLength fuel be BlCount execPlot execMine sk = Returns (sk', (infos, None)) →
     queued_for sk sk' infos execMine) ∧
  (∀ (be : PlotBackend) (PubKeyBL : list (PubKey * Z)) (PubKeyOrdinal : gmap PubKey Z),
     ConfigureByPubKey be PubKeyBL PubKeyOrdinal execPlot execMine sk =
       Returns (sk', (infos, None)) →
     queued_for sk sk' infos execMine) ∧
  (∀ (flags : list WorkSpaceState),
     ConfigureByFlags flags execPlot execMine sk = Returns (sk', (infos, None)) →
     queued_for sk sk' infos true).
Proof.
  intros Hexec. split_and!.
  - intros fuel be BlCount. unfold ConfigureByBitLength.
    destruct (planner_enter sk) as [sk0 | err] eqn:Hent; [| done].
    apply planner_enter_inl in Hent as (_ & _ & ->).
    destruct (select_ByBitLength _ _ _ _) as [[sk1 sel]| | |] eqn:Hsel; simpl; try done.
    destruct sel as [resultList | err]; simpl; [| done].
    apply select_ByBitLength_queue in Hsel. cbn [queue with_configured with_configuring] in Hsel.
    unfold successfullyReturn_ByBitLength, failureReturn. case_decide; [done |].
    destruct (clear_using _ _) as [st| | |] eqn:Hcl; simpl; try done.
    destruct (requeue _ _ _) as [sk2| | |] eqn:Hr; simpl; try done.
    apply requeue_jobs in Hr as (_ & Hkeep & Hjobs & _). rewrite Hexec.
    unfold reset_unless. cbn [negb].
    destruct (infos_of _ _) as [ws| | |] eqn:Hi; simpl; try done.
    intros [= <- <-]. apply (queued_for_intro _ sk2 _ resultList); try done.
    intros it Hit. apply Hkeep. cbn [queue with_list with_store]. by rewrite Hsel.
  - intros be PubKeyBL PubKeyOrdinal. unfold ConfigureByPubKey.
    destruct (planner_enter sk) as [sk0 | err] eqn:Hent; [| done].
    apply planner_enter_inl in Hent as (_ & _ & ->).
    destruct (generateFillSpaceListByPubKey _ _ _ _ _) as [[sk1 sel]| | |] eqn:Hsel;
      simpl; try done.
    destruct sel as [resultList | err]; simpl; [| done].
    apply generateFillSpaceListByPubKey_queue in Hsel.
    cbn [queue with_configured with_configuring] in Hsel.
    unfold successfullyReturn_ByPubKey, failureReturn. case_decide; [done |].
    destruct (requeue _ _ _) as [sk2| | |] eqn:Hr; simpl; try done.
    apply requeue_jobs in Hr as (_ & Hkeep & Hjobs & _). rewrite Hexec.
    unfold reset_unless. cbn [negb].
    destruct (infos_of _ _) as [ws| | |] eqn:Hi; simpl; try done.
    intros [= <- <-]. apply (queued_for_intro _ sk2 _ resultList); try done.
    intros it Hit. apply Hkeep. cbn [queue with_list]. by rewrite Hsel.
  - intros flags. unfold ConfigureByFlags.
    destruct (planner_enter sk) as [sk0 | err] eqn:Hent; [| done].
    apply planner_enter_inl in Hent as (_ & _ & ->).
    destruct (requeue _ _ _) as [sk2| | |] eqn:Hr; simpl; try done.
    apply requeue_jobs in Hr as (_ & Hkeep & _ & Hlist). rewrite Hexec.
    unfold reset_unless. cbn [negb].
    destruct (infos_of _ _) as [ws| | |] eqn:Hi; simpl; try done.
    intros [= <- <-].
    apply (queued_for_intro _ sk2 _ (workSpaceList sk2)); try done.
    + intros l [Hl | Hl]%Hlist; [| done]. by apply elem_of_nil in Hl.
    + by case_decide.
    + by case_decide.
Qed.
End Jobs.

(** ** The verbs on plotting and registered WorkSpaces *)

Section Plotting.
Context {W : Type} {wallet_ops : PoCWallet W} {params : PoCParams}.
Implicit Type sk : SpaceKeeper W.

Lemma popped_is_live sk (sid : string) (qws : queuedWorkSpace) (wq : WorkSpace) :
  popped (queue sk) = Some qws → store sk !! qws_ws qws = Some wq →
  popped_is sk sid = Returns (bool_decide (SpaceID_String (ws_id wq) = sid)).
Proof.
  intros Hp Hw. unfold popped_is, pq_PoppedItem, sid_at. rewrite Hp. cbn [must obind].
  by rewrite Hw.
Qed.

Lemma pq_set_wouldMining_last (b b' : bool) (q : plotterQueue) :
  pq_set_wouldMining b (pq_set_wouldMining b' q) = pq_set_wouldMining b q.
Proof. unfold pq_set_wouldMining. cbn [pending popped]. by destruct (popped q). Qed.

(** X21: the verbs on a WorkSpace that is plotting and in use, while the
    plotter has a job in flight. When the job in flight is for this sid,
    Plot and Mine change nothing but the wouldMining flag of that job
    (false for Plot, true for Mine, the last verb winning), and Stop
    drops the pending jobs of the sid, clears the flag and returns what
    StopPlot of the WorkSpace returns. When the job in flight is for
    another sid, the three verbs return WorkSpaceIsNotPlotting; Plot and
    Mine then change nothing and Stop has only dropped the pending jobs of
    the sid. No verb changes the state of the WorkSpace or the indexes. *)
Theorem X21_verbs_on_a_plotting_WorkSpace (be : PlotBackend) sk (sid : string)
    (l : loc) (w : WorkSpace) (qws : queuedWorkSpace) (wq : WorkSpace) :
  index_inv sk → live_and_using sk sid l w → ws_state w = Plotting →
  popped (queue sk) = Some qws → store sk !! qws_ws qws = Some wq →
  let flag := λ b q, with_queue (pq_set_wouldMining b q) sk in
  let dropped := pq_Delete sid (queue sk) in
  if decide (SpaceID_String (ws_id wq) = sid) then
    PlotWS sid sk = Returns (flag false (queue sk), None) ∧
    MineWS sid sk = Returns (flag true (queue sk), None) ∧
    MineWS sid (flag false (queue sk)) = Returns (flag true (queue sk), None) ∧
    PlotWS sid (flag true (queue sk)) = Returns (flag false (queue sk), None) ∧
    StopWS be sid sk = Returns (flag false dropped, foreign (ws_StopPlot be l))
  else
    PlotWS sid sk = Returns (sk, Some ErrWorkSpaceIsNotPlotting) ∧
    MineWS sid sk = Returns (sk, Some ErrWorkSpaceIsNotPlotting) ∧
    StopWS be sid sk = Returns (with_queue dropped sk, Some ErrWorkSpaceIsNotPlotting).
Proof.
  intros Hinv Hlive Hst Hpop Hwq flag dropped. pose proof Hlive as (Hall & Hw & Hu).
  pose proof (slots_of_state sk sid l w Hinv Hall Hw) as Hslot. rewrite Hst in Hslot.
  pose proof (known_and_using_true _ _ _ _ Hlive) as Hk.
  pose proof (popped_is_live sk sid qws wq Hpop Hwq) as Hpi.
  assert (Hverbs : ∀ sk0 : SpaceKeeper W,
    known_and_using sk0 sid = Returns true →
    (∀ s, index_Get sk0 (OfState s) sid = if decide (s = Plotting) then Some l else None) →
    ∀ same, popped_is sk0 sid = Returns same →
    PlotWS sid sk0 =
      Returns (if same then (with_queue (pq_set_wouldMining false (queue sk0)) sk0, None)
               else (sk0, Some ErrWorkSpaceIsNotPlotting)) ∧
    MineWS sid sk0 =
      Returns (if same then (with_queue (pq_set_wouldMining true (queue sk0)) sk0, None)
               else (sk0, Some ErrWorkSpaceIsNotPlotting))).
  { intros sk0 Hk0 Hslot0 same Hsame. unfold PlotWS, MineWS. rewrite Hk0. cbn [obind negb].
    rewrite (Hslot0 Registered), (Hslot0 Plotting). cbn [decide]. rewrite Hsame.
    cbn [obind]. by destruct same. }
  assert (Hflag : ∀ b q,
    known_and_using (flag b q) sid = Returns true ∧
    (∀ s, index_Get (flag b q) (OfState s) sid =
          if decide (s = Plotting) then Some l else None)).
  { intros b q. split; [exact Hk | exact Hslot]. }
  assert (Hstop : StopWS be sid sk =
    Returns (if bool_decide (SpaceID_String (ws_id wq) = sid)
             then (flag false dropped, foreign (ws_StopPlot be l))
             else (with_queue dropped sk, Some ErrWorkSpaceIsNotPlotting))).
  { unfold StopWS. rewrite Hk. cbn [obind negb].
    change (index_Get (with_queue ?q sk) ?b ?s) with (index_Get sk b s).
    rewrite (Hslot Plotting). cbn [decide].
    rewrite (popped_is_live (with_queue (pq_Delete sid (queue sk)) sk) sid qws wq Hpop Hwq).
    cbn [obind]. destruct (bool_decide _); [| done]. cbn [negb].
    unfold flag, dropped. by rewrite with_queue_twice. }
  destruct (Hverbs sk Hk Hslot _ Hpi) as [HP HM].
  case_decide as Hsid.
  - rewrite (bool_decide_eq_true_2 _ Hsid) in HP, HM, Hstop.
    split_and!; [done | done | | | done].
    + destruct (Hflag false (queue sk)) as [Hk1 Hs1].
      destruct (Hverbs (flag false (queue sk)) Hk1 Hs1 true) as [_ HM1].
      { rewrite (popped_is_live _ sid (mkQueued (qws_ws qws) false) wq);
          [by rewrite (bool_decide_eq_true_2 _ Hsid) | | done].
        unfold flag. cbn [queue with_queue pq_set_wouldMining popped]. by rewrite Hpop. }
      rewrite HM1. unfold flag. cbn [queue with_queue].
      by rewrite pq_set_wouldMining_last, with_queue_twice.
    + destruct (Hflag true (queue sk)) as [Hk1 Hs1].
      destruct (Hverbs (flag true (queue sk)) Hk1 Hs1 true) as [HP1 _].
      { rewrite (popped_is_live _ sid (mkQueued (qws_ws qws) true) wq);
          [by rewrite (bool_decide_eq_true_2 _ Hsid) | | done].
        unfold flag. cbn [queue with_queue pq_set_wouldMining popped]. by rewrite Hpop. }
      rewrite HP1. unfold flag. cbn [queue with_queue].
      by rewrite pq_set_wouldMining_last, with_queue_twice.
  - rewrite (bool_decide_eq_false_2 _ Hsid) in HP, HM, Hstop. by split_and!.
Qed.

(** X22: the verbs on a registered WorkSpace in use. Stop only drops the
    pending jobs of the sid from the queue. While the job channel has
    room, Mine sends one job with wouldMining set and changes nothing
    else, and a Stop after it still only drops the jobs of the queue: the
    job sent stays in the channel. When the channel holds
    plotterMaxChanSize jobs, the send of Plot and of Mine blocks. *)
Theorem X22_verbs_on_a_registered_WorkSpace (be : PlotBackend) sk (sid : string)
    (l : loc) (w : WorkSpace) :
  index_inv sk → live_and_using sk sid l w → ws_state w = Registered →
  let job := newQueuedWorkSpace l true in
  let sent := with_chan (newQueuedWorkSpaceCh sk ++ [job]) sk in
  StopWS be sid sk = Returns (with_queue (pq_Delete sid (queue sk)) sk, None) ∧
  ((length (newQueuedWorkSpaceCh sk) < plotterMaxChanSize)%nat →
     MineWS sid sk = Returns (sent, None) ∧
     StopWS be sid sent = Returns (with_queue (pq_Delete sid (queue sk)) sent, None) ∧
     job ∈ newQueuedWorkSpaceCh (with_queue (pq_Delete sid (queue sk)) sent)) ∧
  ((plotterMaxChanSize ≤ length (newQueuedWorkSpaceCh sk))%nat →
     PlotWS sid sk = Blocked ∧ MineWS sid sk = Blocked).
Proof.
  intros Hinv Hlive Hst job sent. pose proof Hlive as (Hall & Hw & Hu).
  pose proof (slots_of_state sk sid l w Hinv Hall Hw) as Hslot. rewrite Hst in Hslot.
  pose proof (known_and_using_true _ _ _ _ Hlive) as Hk.
  assert (Hstop : ∀ sk0 : SpaceKeeper W,
    known_and_using sk0 sid = Returns true →
    (∀ s, index_Get sk0 (OfState s) sid = if decide (s = Registered) then Some l else None) →
    StopWS be sid sk0 = Returns (with_queue (pq_Delete sid (queue sk0)) sk0, None)).
  { intros sk0 Hk0 Hslot0. unfold StopWS. rewrite Hk0. cbn [obind negb].
    change (index_Get (with_queue ?q sk0) ?b ?s) with (index_Get sk0 b s).
    by rewrite (Hslot0 Plotting), (Hslot0 Mining). }
  split_and!.
  - by apply Hstop.
  - intros Hroom.
    assert (Hmine : MineWS sid sk = Returns (sent, None)).
    { unfold MineWS. rewrite Hk. cbn [obind negb]. rewrite (Hslot Registered).
      rewrite (decide_True (P := Registered = Registered)) by done.
      unfold chan_send. by rewrite decide_True. }
    split; [exact Hmine |]. split; [apply (Hstop sent); [exact Hk | exact Hslot] |].
    unfold sent. cbn [newQueuedWorkSpaceCh with_queue with_chan].
    rewrite elem_of_app, list_elem_of_singleton. by right.
  - intros Hfull. unfold PlotWS, MineWS. rewrite Hk. cbn [obind negb].
    rewrite (Hslot Registered).
    rewrite (decide_True (P := Registered = Registered)) by done. unfold chan_send.
    rewrite !decide_False by lia. by split.
Qed.
End Plotting.

(** ** The planner by public key returns what was asked for *)

Section ByPubKey.
Context {W : Type} {wallet_ops : PoCWallet W} {params : PoCParams}.
Implicit Type sk : SpaceKeeper W.

Lemma sid_of_grows sk sk' (l : loc) :
  grows sk sk' → is_Some (store sk !! l) → sid_of (store sk') l = sid_of (store sk) l.
Proof.
  intros [_ (new & -> & _)] [w Hw]. unfold sid_of.
  by rewrite (lookup_app_l_Some _ _ _ _ Hw), Hw.
Qed.

Lemma NewWorkSpace_sid be ord pk bl sk sk1 (l : loc) :
  NewWorkSpace be ord pk bl sk = Returns (sk1, inl l) →
  sid_of (store sk1) l = Some (SpaceID_String (NewSpaceID ord pk bl)).
Proof.
  unfold NewWorkSpace. destruct (dbDirs sk !! 0%nat); cbn [must obind]; [| done].
  destruct (NewWorkSpace_err _ _ _ _ _ _); [done |]. intros [= <- <-].
  unfold sid_of. cbn [store with_store]. rewrite lookup_app_r by lia.
  by rewrite Nat.sub_diag.
Qed.

(** The generation by public key gives, in the order of the targets, a
    WorkSpace of the identity asked for. *)
Lemma generate_by_pubKey_sids be (targets : list (PubKey * Z)) (ords : gmap PubKey Z)
    (dst : list loc) sk sk' (dst' : list loc) :
  index_inv sk →
  generate_by_pubKey be targets ords dst sk = Returns (sk', inl dst') →
  ∃ new, dst' = dst ++ new ∧
    sid_of (store sk') <$> new = (λ t, Some (target_sid ords t)) <$> targets.
Proof.
  revert dst sk. induction targets as [| [pk bl] rest IH]; intros dst sk Hinv;
    cbn [generate_by_pubKey].
  { intros [= <- <-]. exists []. by rewrite app_nil_r. }
  assert (Hstep : ∀ sk1 (l : loc),
    index_inv sk1 →
    sid_of (store sk1) l = Some (target_sid ords (pk, bl)) →
    generate_by_pubKey be rest ords (dst ++ [l]) sk1 = Returns (sk', inl dst') →
    ∃ new, dst' = dst ++ new ∧
      sid_of (store sk') <$> new = (λ t, Some (target_sid ords t)) <$> (pk, bl) :: rest).
  { intros sk1 l Hinv1 Hl Hrun.
    pose proof (generate_by_pubKey_grows _ _ _ _ _ _ _ Hrun) as [Hg _].
    destruct (IH _ _ Hinv1 Hrun) as (new & -> & Hnew).
    exists (l :: new). split; [by rewrite <- app_assoc |].
    rewrite !fmap_cons, Hnew. f_equal. rewrite (sid_of_grows sk1 sk'); [done | done |].
    unfold sid_of in Hl. by destruct (store sk1 !! l). }
  destruct (index_Get sk allState _) as [l|] eqn:Hget.
  { apply Hstep; [done |]. destruct Hinv as (_ & _ & Hkeys). by apply (Hkeys allState). }
  unfold generateNewWorkSpaceByPubKey.
  destruct (NewWorkSpace _ _ _ _ _) as [[sk1 [newWS | err]]| | |] eqn:Hn; cbn [obind];
    try done.
  pose proof (NewWorkSpace_keeps _ _ _ _ _ _ _ Hn) as [_ Hinv1].
  pose proof (NewWorkSpace_sid _ _ _ _ _ _ _ Hn) as Hsid.
  destruct (addWorkSpaceToIndex newWS sk1) as [sk2| | |] eqn:Ha; cbn [obind]; try done.
  pose proof (addWorkSpaceToIndex_keeps _ _ _ Ha) as [_ Hinv2].
  apply addWorkSpaceToIndex_grows in Ha.
  apply Hstep; [by apply Hinv2, Hinv1 |].
  rewrite (sid_of_grows sk1 sk2); [done | done |].
  unfold sid_of in Hsid. by destruct (store sk1 !! newWS).
Qed.

Lemma infos_of_sids (st : list WorkSpace) (ls : list loc) (infos : list WorkSpace) :
  infos_of st ls = Returns infos →
  Some <$> ((λ w, SpaceID_String (ws_id w)) <$> infos) = sid_of st <$> ls.
Proof.
  revert infos. induction ls as [| l ls IH]; intros infos; cbn [infos_of].
  { by intros [= <-]. }
  destruct (st !! l) as [w|] eqn:Hw; cbn [must obind]; [| done].
  destruct (infos_of st ls) as [r| | |]; cbn [obind]; try done.
  intros [= <-]. rewrite !fmap_cons, (IH r eq_refl). unfold sid_of at 2. by rewrite Hw.
Qed.

(** X23: on a SpaceKeeper with a consistent index, when ConfigureByPubKey
    succeeds, the WorkSpaces it returns are, in the order in which the
    requested keys are ranged over, those of the identities asked for:
    the sid of each is the one built from the key, its ordinal (0 when
    the ordinal map has none) and its bit length. *)
Theorem X23_ConfigureByPubKey_returns_the_requested (be : PlotBackend)
    (PubKeyBL : list (PubKey * Z)) (PubKeyOrdinal : gmap PubKey Z)
    (execPlot execMine : bool) sk sk' (infos : list WorkSpace) :
  index_inv sk →
  ConfigureByPubKey be PubKeyBL PubKeyOrdinal execPlot execMine sk =
    Returns (sk', (infos, None)) →
  (λ w, SpaceID_String (ws_id w)) <$> infos = target_sid PubKeyOrdinal <$> PubKeyBL.
Proof.
  intros Hinv. unfold ConfigureByPubKey.
  destruct (planner_enter sk) as [sk0 | err] eqn:Hent; [| done].
  apply planner_enter_inl in Hent as (_ & _ & ->).
  destruct (generateFillSpaceListByPubKey _ _ _ _ _) as [[sk1 sel]| | |] eqn:Hsel;
    simpl; try done.
  destruct sel as [resultList | err]; simpl; [| done].
  revert Hsel. unfold generateFillSpaceListByPubKey.
  destruct (checkOSDiskSize _ _ _) as [[err|]| | |]; cbn [obind]; try done.
  intros Hgen. apply generate_by_pubKey_sids in Hgen as (new & -> & Hsids);
    [| by apply (index_inv_same sk)].
  cbn [app] in *.
  unfold successfullyReturn_ByPubKey, failureReturn. case_decide; [done |].
  destruct (requeue _ _ _) as [sk2| | |] eqn:Hr; simpl; try done.
  apply requeue_rebuild in Hr as [(_ & _ & Hst2) _]. simpl in Hst2.
  destruct (infos_of _ _) as [ws| | |] eqn:Hi; simpl; try done.
  intros [= <- <-]. apply (inj (fmap Some)).
  rewrite (infos_of_sids _ _ _ Hi).
  assert (store (reset_unless (execMine || execPlot) sk2) = store sk2) as ->
    by (unfold reset_unless; by destruct (negb _)).
  rewrite <- list_fmap_compose.
  change (Some ∘ target_sid PubKeyOrdinal) with (λ t, Some (target_sid PubKeyOrdinal t)).
  rewrite <- Hsids. apply list_fmap_ext. intros i l _.
  by apply same_id_state_sid_of.
Qed.
End ByPubKey.

(** ** The planner by flags lists the flagged WorkSpaces *)

Section ByFlags.
Context {W : Type} {wallet_ops : PoCWallet W} {params : PoCParams}.
Implicit Type sk : SpaceKeeper W.

Lemma items_by_flags_elem (flags : list WorkSpaceState) sk (l : loc) :
  l ∈ items_by_flags flags sk ↔
  ∃ s sid, s ∈ flags ∧ index_Get sk (OfState s) sid = Some l.
Proof.
  unfold items_by_flags, index_Get. rewrite list_elem_of_bind. split.
  - intros (s & ([sid l'] & -> & Hin)%list_elem_of_fmap & Hs).
    apply elem_of_map_to_list in Hin. by exists s, sid.
  - intros (s & sid & Hs & Hget). exists s. split; [| done].
    apply list_elem_of_fmap. exists (sid, l). split; [done |].
    by apply elem_of_map_to_list.
Qed.

Lemma push_all_ws (st : list WorkSpace) (wm : bool) (ls : list loc) (q tq : plotterQueue) :
  push_all st wm ls q = Returns tq →
  ∀ it, it ∈ pending tq → it ∈ pending q ∨ qws_ws (item_qws it) ∈ ls.
Proof.
  revert q. induction ls as [| l ls IH]; intros q; cbn [push_all].
  { intros [= <-] it Hit. by left. }
  unfold queue_item. cbn [qws_ws newQueuedWorkSpace].
  destruct (st !! l) as [w|]; cbn [must obind]; [| done].
  intros Hrun it Hit. destruct (IH _ Hrun it Hit) as [Hq | Hl].
  - unfold pq_Push in Hq. cbn [pending] in Hq.
    apply elem_of_insert_item in Hq as [-> | Hq]; [| by left].
    right. cbn [item_qws qws_ws]. apply list_elem_of_here.
  - right. by apply list_elem_of_further.
Qed.

Lemma useWorkSpace_listed (l : loc) sk sk' :
  useWorkSpace l sk = Returns sk' →
  (∀ x, x ∈ workSpaceList sk → x ∈ workSpaceList sk') ∧
  ∃ e, e ∈ workSpaceList sk' ∧ is_Some (sid_of (store sk) l) ∧
       sid_of (store sk) e = sid_of (store sk) l.
Proof.
  unfold useWorkSpace.
  destruct (sid_at (store sk) l) as [sid| | |] eqn:Hs; simpl; try done.
  apply sid_at_Returns in Hs.
  destruct (list_has_sid _ _ sid) as [found| | |] eqn:Hf; simpl; try done.
  apply list_has_sid_spec in Hf. destruct found.
  - intros [= <-]. split; [done |].
    destruct Hf as [Hf _]. specialize (Hf eq_refl).
    unfold sids_of in Hf. apply list_elem_of_fmap in Hf as (e & He & Hin).
    exists e. split; [done |]. rewrite Hs. split; [by eexists | done].
  - destruct (store sk !! l) as [w|]; simpl; [| done].
    intros [= <-]. simpl. split.
    + intros x Hx. rewrite elem_of_app. by left.
    + exists l. split; [| by rewrite Hs; split; [eexists |]].
      rewrite elem_of_app, list_elem_of_singleton. by right.
Qed.

Lemma drain_into_listed (qs : list queuedWorkSpace) sk sk' :
  drain_into qs sk = Returns sk' →
  (∀ x, x ∈ workSpaceList sk → x ∈ workSpaceList sk') ∧
  ∀ qws, qws ∈ qs →
    ∃ e, e ∈ workSpaceList sk' ∧ is_Some (sid_of (store sk) (qws_ws qws)) ∧
         sid_of (store sk) e = sid_of (store sk) (qws_ws qws).
Proof.
  revert sk. induction qs as [| qws r IH]; intros sk; cbn [drain_into].
  { intros [= <-]. split; [done |]. intros qws Hq. by apply elem_of_nil in Hq. }
  destruct (queue_item (store sk) qws) as [it| | |]; cbn [obind]; try done.
  destruct (useWorkSpace _ _) as [sk1| | |] eqn:Hu; cbn [obind]; try done.
  pose proof (useWorkSpace_same_plots _ _ _ Hu) as (_ & _ & Hst1). cbn [store with_queue] in Hst1.
  apply useWorkSpace_listed in Hu as (Hmono1 & e & He & Hsome & Hsid).
  cbn [workSpaceList store with_queue] in *.
  intros (Hmono & Hall)%IH. split; [by auto |].
  intros q [-> | Hq]%elem_of_cons.
  - exists e. split; [by apply Hmono | done].
  - destruct (Hall q Hq) as (e' & He' & Hsome' & Hsid').
    rewrite (same_id_state_sid_of _ _ e' Hst1),
      (same_id_state_sid_of _ _ (qws_ws q) Hst1) in Hsid'.
    rewrite (same_id_state_sid_of _ _ (qws_ws q) Hst1) in Hsome'. by exists e'.
Qed.

(** X24: on a SpaceKeeper with a consistent index, after a call of
    ConfigureByFlags that passed the entry guards, workSpaceList holds
    exactly the indexed WorkSpaces that are in one of the given states,
    and the list returned is the snapshot of these: each is in one of
    the given states and in use. *)
Theorem X24_ConfigureByFlags_lists_the_flagged (flags : list WorkSpaceState)
    (execPlot execMine : bool) sk sk' (infos : list WorkSpace) (e : option error) :
  index_inv sk → started sk = false → configuring sk = 0 →
  ConfigureByFlags flags execPlot execMine sk = Returns (sk', (infos, e)) →
  (∀ l, l ∈ workSpaceList sk' ↔
        ∃ s sid, s ∈ flags ∧ index_Get sk (OfState s) sid = Some l) ∧
  (∀ w, w ∈ infos ↔ ∃ l, l ∈ workSpaceList sk' ∧ store sk' !! l = Some w) ∧
  Forall (λ w, ws_state w ∈ flags ∧ ws_using w = true) infos.
Proof.
  intros Hinv Hs Hc. unfold ConfigureByFlags. rewrite (planner_enter_ok sk Hs Hc).
  set (sk0 := with_configured 0 (with_configuring 1 sk)).
  unfold requeue.
  destruct (push_all _ _ _ _) as [tq| | |] eqn:Hpush; cbn [obind]; try done.
  pose proof (push_all_jobs _ _ _ _ _ Hpush) as Hpushed.
  pose proof (push_all_ws _ _ _ _ _ Hpush) as Hws.
  destruct (drain_into _ _) as [sk2| | |] eqn:Hdrain; cbn [obind]; try done.
  pose proof (drain_into_rebuild _ _ _ Hdrain) as [(Hix2 & _ & Hst2) Hused].
  pose proof (drain_into_jobs _ _ _ Hdrain) as (_ & _ & _ & Hsub).
  pose proof (drain_into_listed _ _ _ Hdrain) as (_ & Hlisted).
  cbn [workSpaceList store workSpaceIndex with_list sk0 with_configured with_configuring]
    in Hix2, Hst2, Hsub, Hlisted.
  set (sk3 := reset_unless (execMine || execPlot) sk2).
  assert (Hsk3 : store sk3 = store sk2 ∧ workSpaceList sk3 = workSpaceList sk2)
    by (unfold sk3, reset_unless; by destruct (negb _)).
  destruct Hsk3 as [Hst3 Hl3].
  destruct (infos_of _ _) as [ws| | |] eqn:Hi; cbn [obind]; try done.
  assert (Hlist : ∀ l, l ∈ workSpaceList sk2 ↔
            ∃ s sid, s ∈ flags ∧ index_Get sk (OfState s) sid = Some l).
  { intros l. rewrite <- (items_by_flags_elem flags sk l).
    change (items_by_flags flags sk) with (items_by_flags flags sk0). split.
    - intros [Hl | Hl]%Hsub; [by apply elem_of_nil in Hl |].
      apply list_elem_of_fmap in Hl as (qws & -> & Hq).
      apply list_elem_of_fmap in Hq as (it & -> & Hit).
      destruct (Hws it Hit) as [Hnil | Hin]; [by apply elem_of_nil in Hnil | done].
    - intros Hl. pose proof Hl as (s & sid & Hsf & Hget)%items_by_flags_elem.
      destruct (Hlisted (newQueuedWorkSpace l true) (Hpushed l Hl))
        as (e' & He' & _ & Hsid).
      cbn [qws_ws newQueuedWorkSpace] in Hsid.
      assert (e' ∈ items_by_flags flags sk0) as (s' & sid' & _ & Hget')%items_by_flags_elem.
      { apply Hsub in He' as [He' | He']; [by apply elem_of_nil in He' |].
        apply list_elem_of_fmap in He' as (qws & -> & Hq).
        apply list_elem_of_fmap in Hq as (it & -> & Hit).
        destruct (Hws it Hit) as [Hnil | Hin]; [by apply elem_of_nil in Hnil | done]. }
      destruct Hinv as (Hwf & _ & Hkeys).
      pose proof (Hkeys _ _ _ Hget) as Hk. pose proof (Hkeys _ _ _ Hget') as Hk'.
      change (index_Get sk0 ?b ?x) with (index_Get sk b x) in Hget'.
      pose proof (Hkeys _ _ _ Hget') as Hk''.
      assert (sid' = sid) as -> by congruence.
      destruct (Hwf _ _ _ Hget) as [Ha _]. destruct (Hwf _ _ _ Hget') as [Ha' _].
      assert (e' = l) as -> by congruence. done. }
  assert (Hinfos : ∀ w, w ∈ ws ↔ ∃ l, l ∈ workSpaceList sk2 ∧ store sk2 !! l = Some w).
  { intros w. rewrite Hst3, Hl3 in Hi. split; [by apply infos_of_elem |].
    intros (l & Hl & Hw). clear -Hi Hl Hw. revert ws Hi.
    induction (workSpaceList sk2) as [| x xs IH]; intros ws; cbn [infos_of].
    { by apply elem_of_nil in Hl. }
    destruct (store sk2 !! x) as [wx|] eqn:Hwx; cbn [must obind]; [| done].
    destruct (infos_of (store sk2) xs) as [r| | |]; cbn [obind]; try done.
    intros [= <-]. apply elem_of_cons in Hl as [-> | Hl].
    - assert (wx = w) as -> by congruence. apply list_elem_of_here.
    - apply list_elem_of_further. by apply IH. }
  assert (Hall : Forall (λ w, ws_state w ∈ flags ∧ ws_using w = true) ws).
  { apply Forall_forall. intros w (l & Hl & Hw)%Hinfos. split.
    - apply Hlist in Hl as (s & sid & Hsf & Hget).
      destruct Hinv as (Hwf & _ & _). destruct (Hwf _ _ _ Hget) as [_ (w0 & Hw0 & <-)].
      destruct (same_id_state_lookup _ _ _ _ Hst2 Hw0) as (w' & Hw' & _ & Hstate).
      assert (w' = w) as -> by congruence. by rewrite Hstate.
    - destruct Hused as [Hu _].
      { split; [by intros ? ?%elem_of_nil | apply NoDup_nil_2]. }
      destruct (Hu l Hl) as (w' & Hw' & ?). congruence. }
  intros [= <- <- <-].
  assert (Hfields : ∀ v : SpaceKeeper W,
    store v = store sk2 → workSpaceList v = workSpaceList sk2 →
    (∀ l, l ∈ workSpaceList v ↔
          ∃ s sid, s ∈ flags ∧ index_Get sk (OfState s) sid = Some l) ∧
    (∀ w, w ∈ ws ↔ ∃ l, l ∈ workSpaceList v ∧ store v !! l = Some w) ∧
    Forall (λ w, ws_state w ∈ flags ∧ ws_using w = true) ws).
  { intros v -> ->. done. }
  apply Hfields; by case_decide.
Qed.
End ByFlags.

(** ** The properties above on the concrete instance *)

Section BuiltIndex.
Context {W : Type} {wallet_ops : PoCWallet W} {params : PoCParams}.
Implicit Type sk : SpaceKeeper W.

Lemma index_inv_empty sk : workSpaceIndex sk = empty_index → index_inv sk.
Proof.
  intros Hix.
  assert (Hnone : ∀ b sid, index_Get sk b sid = None).
  { intros b sid. unfold index_Get. rewrite Hix. destruct b as [[| | |]|]; apply lookup_empty. }
  split_and!.
  - intros s sid l. by rewrite Hnone.
  - intros sid l. by rewrite Hnone.
  - intros b sid l. by rewrite Hnone.
Qed.

Lemma index_all_index_inv (ls : list loc) sk sk' :
  index_inv sk → index_all ls sk = Returns sk' → index_inv sk'.
Proof.
  revert sk. induction ls as [| l r IH]; intros sk Hinv; cbn [index_all].
  - by intros [= <-].
  - destruct (addWorkSpaceToIndex l sk) as [sk1| | |] eqn:Hadd; cbn [obind]; try done.
    apply IH. by apply (addWorkSpaceToIndex_keeps _ _ _ Hadd).
Qed.

(** A SpaceKeeper whose index was built over its store has a consistent
    index. *)
Lemma index_inv_built (ls : list loc) sk :
  index_all ls (with_index empty_index sk) = Returns sk → index_inv sk.
Proof. apply index_all_index_inv. by apply index_inv_empty. Qed.
End BuiltIndex.

Section Instances.
#[local] Existing Instance demo_params.
#[local] Existing Instance demo_wallet.

Lemma demo_sk_index_inv : index_inv demo_sk.
Proof. apply (index_inv_built [0%nat; 1%nat]). vm_compute. reflexivity. Qed.

Lemma demo_sk_list_inv : list_inv demo_sk.
Proof. split; [exact demo_sk_using_iff_listed | exact demo_sk_list_no_dup]. Qed.

Lemma demo_mining_index_inv : index_inv demo_mining.
Proof. apply (index_inv_built [0%nat]). vm_compute. reflexivity. Qed.

Lemma demo_mining_list_inv : list_inv demo_mining.
Proof.
  split.
  - intros l. simpl. rewrite list_elem_of_singleton. destruct l as [| l]; simpl.
    + split; [by exists demo_wsM | done].
    + split; [done | by intros (w & [=] & ?)].
  - unfold list_no_dup. simpl. apply NoDup_singleton.
Qed.

Lemma demo_both_index_inv : index_inv demo_both.
Proof. apply (index_inv_built [0%nat; 1%nat]). vm_compute. reflexivity. Qed.

Lemma demo_both_live_B : live_and_using demo_both demo_sidB 1%nat (set_using true demo_wsB).
Proof. split_and!; [by vm_compute | done | done]. Qed.

Lemma demo_plotting_index_inv : index_inv demo_plotting.
Proof. apply (index_inv_built [0%nat]). vm_compute. reflexivity. Qed.

Lemma demo_plotting_live : live_and_using demo_plotting demo_sidP 0%nat demo_wsP.
Proof. split_and!; [by vm_compute | done | done]. Qed.

(** X1 on the concrete instance: Stop on the mining WorkSpace M. *)
Lemma X1_witness :
  ∃ sk', ActOnWorkSpace demo_backend demo_sidM Stop demo_mining = Returns (sk', None) ∧
         index_inv sk' ∧ list_inv sk'.
Proof.
  assert (Hrun : ∃ sk', ActOnWorkSpace demo_backend demo_sidM Stop demo_mining =
                        Returns (sk', None))
    by (vm_compute; eexists; reflexivity).
  destruct Hrun as [sk' Hrun]. exists sk'. split; [exact Hrun |].
  destruct (X1_verbs_keep_the_invariants demo_backend demo_sidM Stop demo_mining sk' None
              demo_mining_index_inv demo_mining_list_inv Hrun) as (Hi & Hl & _).
  split; [exact Hi | exact Hl].
Defined.

(** X2 on the concrete instance: Mine, then Stop, on the ready WorkSpace
    B of [demo_both]. *)
Lemma X2_witness :
  ∃ sk1, MineWS demo_sidB demo_both = Returns (sk1, None) ∧
         StopWS demo_backend demo_sidB sk1 =
           Returns (with_queue (pq_Delete demo_sidB (queue demo_both)) demo_both, None).
Proof.
  destruct (X2_mine_then_stop_returns_to_ready demo_backend demo_both demo_sidB 1%nat
              (set_using true demo_wsB) demo_both_index_inv demo_both_live_B eq_refl)
    as (sk1 & Hm & _ & _ & _ & Hs).
  exists sk1. split; [exact Hm | exact Hs].
Defined.

(** X3 on the concrete instance: a second Stop on M. *)
Lemma X3_witness :
  ∃ sk1, StopWS demo_backend demo_sidM demo_mining = Returns (sk1, None) ∧
         StopWS demo_backend demo_sidM sk1 = Returns (sk1, None).
Proof.
  assert (Hrun : ∃ sk1, StopWS demo_backend demo_sidM demo_mining = Returns (sk1, None))
    by (vm_compute; eexists; reflexivity).
  destruct Hrun as [sk1 Hrun]. exists sk1. split; [exact Hrun |].
  apply (X3_second_stop_changes_nothing demo_backend demo_mining sk1 demo_sidM None);
    [by vm_compute | exact Hrun].
Defined.




(** X7 on the concrete instance: the size of one plot of bit length 24
    asked for. *)
Lemma X7_witness :
  ∃ sk' infos,
    ConfigureBySize 10 demo_backend (2 ^ 27) "pw" demo_sk = Returns (sk', (infos, None)) ∧
    configuring sk' = 0 ∧ Configured sk' = true ∧ infos ≠ [] ∧
    index_inv sk' ∧ list_inv sk' ∧ pending (queue sk') = [].
Proof.
  assert (Hrun : ∃ sk' infos,
    ConfigureBySize 10 demo_backend (2 ^ 27) "pw" demo_sk = Returns (sk', (infos, None)))
    by (vm_compute; eexists _, _; reflexivity).
  destruct Hrun as (sk' & infos & Hrun). exists sk', infos. split; [exact Hrun |].
  destruct (X7_ConfigureBySize_outcome 10 demo_backend (2 ^ 27) "pw"
              demo_sk sk' infos None eq_refl eq_refl Hrun)
    as (_ & Hc & Hconf & Hinfos & Hi & Hl & Hq).
  split_and!; [exact Hc | by apply Hconf | by apply Hinfos | exact (Hi demo_sk_index_inv)
              | exact (Hl demo_sk_list_inv) | exact (Hq eq_refl)].
Defined.


(** X9 on the concrete instance: the ready WorkSpaces asked for. *)
Lemma X9_witness :
  ∃ sk' infos,
    ConfigureByFlags [Ready] false false demo_sk = Returns (sk', (infos, None)) ∧
    same_plots demo_sk sk' ∧ configuring sk' = 0 ∧
    infos_of (store sk') (workSpaceList sk') = Returns infos ∧
    index_inv sk' ∧ listed_are_used sk' ∧ list_no_dup sk' ∧ pending (queue sk') = [].
Proof.
  assert (Hrun : ∃ sk' infos,
    ConfigureByFlags [Ready] false false demo_sk = Returns (sk', (infos, None)))
    by (vm_compute; eexists _, _; reflexivity).
  destruct Hrun as (sk' & infos & Hrun). exists sk', infos. split; [exact Hrun |].
  destruct (X9_ConfigureByFlags_outcome [Ready] false false demo_sk sk' infos None
              eq_refl eq_refl Hrun)
    as (_ & _ & Hsame & Hc & _ & Hinfos & Hi & Hu & Hnd & Hq).
  split_and!; [exact Hsame | exact Hc | exact Hinfos | exact (Hi demo_sk_index_inv)
              | exact Hu | exact Hnd | exact (Hq eq_refl eq_refl)].
Defined.

(** X10 on the concrete instance: the registered WorkSpaces in use. *)
Lemma X10_witness :
  ∃ ids infos,
    WorkSpaceIDs (mkFlags false [Registered]) demo_sk = Returns (ids, None) ∧
    WorkSpaceInfos (mkFlags false [Registered]) demo_sk = Returns (infos, None) ∧
    ids = (λ w, SpaceID_String (ws_id w)) <$> infos ∧ NoDup ids ∧ demo_wsA ∈ infos.
Proof.
  destruct (X10_WorkSpaceIDs_and_Infos_agree (mkFlags false [Registered]) demo_sk
              demo_sk_list_inv) as (ids & infos & Hids & Hinfos & Heq & Hnd & _ & Hall).
  exists ids, infos. split_and!; [exact Hids | exact Hinfos | exact Heq | exact Hnd |].
  apply (Hall 0%nat demo_wsA); [apply list_elem_of_here | reflexivity |].
  right. apply list_elem_of_here.
Defined.

(** X11 on the concrete instance: Stop on the mining WorkSpaces. *)
Lemma X11_witness :
  ∃ sk' errs,
    ActOnWorkSpaces demo_backend [Mining] Stop demo_mining = Returns (sk', (errs, None)) ∧
    index_inv sk' ∧ list_inv sk' ∧ is_Some (errs !! demo_sidM).
Proof.
  assert (Hrun : ∃ sk' errs,
    ActOnWorkSpaces demo_backend [Mining] Stop demo_mining = Returns (sk', (errs, None)))
    by (vm_compute; eexists _, _; reflexivity).
  destruct Hrun as (sk' & errs & Hrun). exists sk', errs. split; [exact Hrun |].
  destruct (X11_ActOnWorkSpaces_reports_on_the_selection demo_backend [Mining] Stop
              demo_mining sk' errs None demo_mining_index_inv demo_mining_list_inv Hrun)
    as (Hi & Hl & _ & _ & _ & Herrs).
  split_and!; [exact Hi | exact Hl |].
  apply (Herrs eq_refl). exists 0%nat, demo_wsM.
  split_and!; [apply list_elem_of_here | reflexivity | apply list_elem_of_here | reflexivity].
Defined.

(** X12 on the concrete instance: a proof asked of the WorkSpace A. *)
Lemma X12_witness :
  ∃ sk' r e,
    GetProof demo_backend demo_sidA [] demo_started = Returns (sk', (r, e)) ∧
    (∃ c, sk' = with_cache c demo_started) ∧ (e = None ↔ is_Some r).
Proof.
  assert (Hrun : ∃ sk' r e,
    GetProof demo_backend demo_sidA [] demo_started = Returns (sk', (r, e)))
    by (vm_compute; eexists _, _, _; reflexivity).
  destruct Hrun as (sk' & r & e & Hrun). exists sk', r, e. split; [exact Hrun |].
  destruct (X12_GetProof_touches_only_the_cache demo_backend demo_sidA [] demo_started
              sk' r e Hrun) as ((c & Hc & _) & _ & _ & Hr & _).
  split; [by exists c | exact Hr].
Defined.

(** X13 on the concrete instance: A deleted from a list that has it
    twice. *)
Lemma X13_witness :
  ∃ r, deleteFromSlice [demo_wsA; demo_wsB] [1%nat; 0%nat; 0%nat] demo_sidA = Returns r.
Proof.
  destruct (X13_deleteFromSlice_drops_the_first [demo_wsA; demo_wsB]
              [1%nat; 0%nat; 0%nat] demo_sidA) as (r & Hr & _).
  - unfold all_live. repeat apply Forall_cons_2; [by eexists .. | apply Forall_nil_2].
  - by exists r.
Defined.

(** X14 on the concrete instance: the two directories of [demo_sk] given
    in the other order. *)
Lemma X14_witness :
  ∃ e, ResetDBDirs (λ sk, Returns (sk, None)) ["/data/b"; "/data/a"] demo_sk =
         Returns (demo_sk, e) ∧
       (e = None ↔ ["/data/b"; "/data/a"] ≡ₚ dbDirs demo_sk).
Proof.
  assert (Hnd : NoDup ["/data/b"; "/data/a"]).
  { apply NoDup_cons. split; [| apply NoDup_singleton].
    rewrite list_elem_of_singleton. discriminate. }
  destruct (X14_ResetDBDirs_exact_without_repetition (λ sk, Returns (sk, None))
              ["/data/b"; "/data/a"] demo_sk Hnd) as (_ & _ & Hreset).
  destruct (Hreset eq_refl) as (e & Hrun & He & _); [discriminate |].
  exists e. split; [exact Hrun | exact He].
Defined.

(** X15 on the concrete instance: B indexed again. *)
Lemma X15_witness :
  ∃ sk', addWorkSpaceToIndex 1%nat demo_sk = Returns sk' ∧ sk' = demo_sk ∧ index_inv sk'.
Proof.
  destruct (X15_addWorkSpaceToIndex_never_overwrites 1%nat demo_wsB demo_sk
              (proj1 demo_sk_index_inv) eq_refl)
    as (sk' & Hrun & _ & _ & Hsame & _ & _ & Hi).
  exists sk'. split_and!; [exact Hrun | | exact (Hi demo_sk_index_inv)].
  apply Hsame. exists 1%nat. by vm_compute.
Defined.

(** X16 on the concrete instance: room for one plot of bit length 24. *)
Lemma X16_witness :
  ∃ sk' r, generateFillSpaceListBySize 1 demo_backend [] 0 (2 ^ 27) demo_sk =
             Returns (sk', r).
Proof.
  destruct (X16_generateFillSpaceListBySize_ends 1 demo_backend [] 0 (2 ^ 27) demo_sk)
    as (sk' & r & Hrun & _).
  - reflexivity.
  - discriminate.
  - lia.
  - lia.
  - intros bl Hbl. rewrite !elem_of_cons in Hbl.
    destruct Hbl as [-> | [-> | [-> | Hbl]]]; [by vm_compute .. |].
    by apply elem_of_nil in Hbl.
  - by exists sk', r.
Defined.

(** X17 on the concrete instance: one plot of bit length 26 asked for. *)
Lemma X17_witness :
  ∃ sk' infos,
    ConfigureByBitLength 10 demo_backend {[ 26 := 1 ]} true false demo_sk =
      Returns (sk', (infos, None)) ∧
    Z.of_nat (length (filter (λ w, bitLength (ws_id w) = 26) infos)) = 1 ∧
    Z.of_nat (length (filter (λ w, bitLength (ws_id w) = 24) infos)) = 0.
Proof.
  assert (Hrun : ∃ sk' infos,
    ConfigureByBitLength 10 demo_backend {[ 26 := 1 ]} true false demo_sk =
      Returns (sk', (infos, None)))
    by (vm_compute; eexists _, _; reflexivity).
  destruct Hrun as (sk' & infos & Hrun). exists sk', infos. split; [exact Hrun |].
  assert (Hcounts : ∀ bl count,
    ({[ 26 := 1 ]} : gmap Z Z) !! bl = Some count → 0 <= count < 2 ^ 63).
  { intros bl count [_ <-]%lookup_singleton_Some. lia. }
  pose proof (X17_ConfigureByBitLength_meets_the_counts 10 demo_backend {[ 26 := 1 ]}
                true false demo_sk sk' infos Hcounts Hrun) as Hmeet.
  split; [exact (Hmeet 26) | exact (Hmeet 24)].
Defined.

(** X18 on the concrete instance: the two WorkSpaces of [demo_sk], both
    of bit length 24. *)
Lemma X18_witness :
  ∃ m, getIndexedWorkSpaces demo_sk = Returns m ∧
       0%nat ∈ bucket_of m 24 ∧ 1%nat ∈ bucket_of m 24.
Proof.
  destruct (X18_getIndexedWorkSpaces_groups_the_index demo_sk
              (proj1 (proj2 demo_sk_index_inv))) as (m & Hrun & Hin & _).
  exists m. split_and!; [exact Hrun | |].
  - apply Hin. exists demo_sidA, demo_wsA. split_and!; vm_compute; reflexivity.
  - apply Hin. exists demo_sidB, demo_wsB. split_and!; vm_compute; reflexivity.
Defined.

(** X19 on the concrete instance: the size of one plot of bit length 24
    asked for. *)
Lemma X19_witness :
  ∃ sk' infos,
    ConfigureBySize 10 demo_backend (2 ^ 27) "pw" demo_sk = Returns (sk', (infos, None)) ∧
    plots_size infos <= 2 ^ 27.
Proof.
  assert (Hsizes : ∀ bl, bl ∈ [28; 26; 24] →
    0 <= BitLengthDiskSize bl ∧ 2 ^ 27 + BitLengthDiskSize bl < 2 ^ 63).
  { intros bl Hbl. rewrite !elem_of_cons in Hbl.
    destruct Hbl as [-> | [-> | [-> | Hbl]]]; [by vm_compute .. |].
    by apply elem_of_nil in Hbl. }
  assert (Hrun : ∃ sk' infos,
    ConfigureBySize 10 demo_backend (2 ^ 27) "pw" demo_sk = Returns (sk', (infos, None)))
    by (vm_compute; eexists _, _; reflexivity).
  destruct Hrun as (sk' & infos & Hrun). exists sk', infos. split; [exact Hrun |].
  destruct (X19_ConfigureBySize_fills_the_target 10 demo_backend (2 ^ 27) "pw"
              demo_sk sk' infos Hsizes Hrun) as (_ & Hle & _).
  exact Hle.
Defined.

(** X20 on the concrete instance: the ready WorkSpaces asked for, to be
    plotted. *)
Lemma X20_witness :
  ∃ sk' infos,
    ConfigureByFlags [Ready] true false demo_sk = Returns (sk', (infos, None)) ∧
    queued_for demo_sk sk' infos true.
Proof.
  assert (Hrun : ∃ sk' infos,
    ConfigureByFlags [Ready] true false demo_sk = Returns (sk', (infos, None)))
    by (vm_compute; eexists _, _; reflexivity).
  destruct Hrun as (sk' & infos & Hrun). exists sk', infos. split; [exact Hrun |].
  destruct (X20_planners_queue_what_they_return true false demo_sk sk' infos eq_refl)
    as (_ & _ & Hflags).
  exact (Hflags [Ready] Hrun).
Defined.

(** X21 on the concrete instance: Plot on the plotting WorkSpace P, whose
    job is in flight. *)
Lemma X21_witness :
  PlotWS demo_sidP demo_plotting =
    Returns (with_queue (pq_set_wouldMining false (queue demo_plotting)) demo_plotting, None).
Proof.
  pose proof (X21_verbs_on_a_plotting_WorkSpace demo_backend demo_plotting demo_sidP
                0%nat demo_wsP (mkQueued 0%nat true) demo_wsP demo_plotting_index_inv
                demo_plotting_live eq_refl eq_refl eq_refl) as Hverbs.
  cbv zeta in Hverbs. rewrite decide_True in Hverbs by reflexivity.
  exact (proj1 Hverbs).
Defined.

(** X22 on the concrete instance: Stop, then Mine, on the registered
    WorkSpace A. *)
Lemma X22_witness :
  StopWS demo_backend demo_sidA demo_sk =
    Returns (with_queue (pq_Delete demo_sidA (queue demo_sk)) demo_sk, None) ∧
  MineWS demo_sidA demo_sk =
    Returns (with_chan [newQueuedWorkSpace 0%nat true] demo_sk, None).
Proof.
  destruct (X22_verbs_on_a_registered_WorkSpace demo_backend demo_sk demo_sidA 0%nat
              demo_wsA demo_sk_index_inv demo_sk_live_A eq_refl) as (Hstop & Hmine & _).
  split; [exact Hstop |]. apply Hmine. vm_compute. lia.
Defined.

(** X23 on the concrete instance: the key of B asked for. *)
Lemma X23_witness :
  ∃ sk' infos,
    ConfigureByPubKey demo_backend [("B", 24)] {[ "B" := 1 ]} true true demo_sk =
      Returns (sk', (infos, None)) ∧
    (λ w, SpaceID_String (ws_id w)) <$> infos = [demo_sidB].
Proof.
  assert (Hrun : ∃ sk' infos,
    ConfigureByPubKey demo_backend [("B", 24)] {[ "B" := 1 ]} true true demo_sk =
      Returns (sk', (infos, None)))
    by (vm_compute; eexists _, _; reflexivity).
  destruct Hrun as (sk' & infos & Hrun). exists sk', infos. split; [exact Hrun |].
  exact (X23_ConfigureByPubKey_returns_the_requested demo_backend [("B", 24)]
           {[ "B" := 1 ]} true true demo_sk sk' infos demo_sk_index_inv Hrun).
Defined.

(** X24 on the concrete instance: the registered and the ready WorkSpaces
    asked for. *)
Lemma X24_witness :
  ∃ sk' infos,
    ConfigureByFlags [Registered; Ready] false true demo_sk = Returns (sk', (infos, None)) ∧
    (∀ w, w ∈ infos ↔ ∃ l, l ∈ workSpaceList sk' ∧ store sk' !! l = Some w) ∧
    Forall (λ w, ws_state w ∈ [Registered; Ready] ∧ ws_using w = true) infos.
Proof.
  assert (Hrun : ∃ sk' infos,
    ConfigureByFlags [Registered; Ready] false true demo_sk = Returns (sk', (infos, None)))
    by (vm_compute; eexists _, _; reflexivity).
  destruct Hrun as (sk' & infos & Hrun). exists sk', infos. split; [exact Hrun |].
  destruct (X24_ConfigureByFlags_lists_the_flagged [Registered; Ready] false true
              demo_sk sk' infos None demo_sk_index_inv eq_refl eq_refl Hrun)
    as (_ & Hinfos & Hall).
  split; [exact Hinfos | exact Hall].
Defined.
End Instances.
